(** * snappy: tiered ZFS snapshot manager

    A shallow embedding of [snappy.py] and the properties of its retention
    engine.  The file follows the layout of the program:

    - [PyStr]     the string operations of Python the program calls;
    - [PySort]    [sorted] and indexing from the end;
    - [Calendar]  the parts of [datetime] the program calls;
    - [Effects]   standard output, external commands and exceptions;
    - [Snappy]    the program: [parse_timestamp], [list_snapshots], the ZFS
                  operations, [create_daily_snapshot], the helpers of the
                  retention logic and [tiered_retention];
    - [Cli]       [load_sanoid_conf] from what the parser has read,
                  [resolve_template] and [main] after [parse_args];

    then the facts the properties rest on ([CalendarFacts], [SortFacts],
    [OrderFacts], [Traces], [EffectFacts], [BucketFacts], [PlanFacts], [Run],
    [RunFacts]) and the properties themselves.  The parsing of the
    configuration file by [configparser] and of the command line by
    [argparse] are not part of the embedding: [Cli] starts from their
    results.

    Characters are code points below 256 (a ZFS name is ASCII); integers are
    unbounded, as Python's. *)

From Stdlib Require Import ZArith List String Ascii Bool Lia Permutation Sorted.
Import ListNotations.
Local Open Scope Z_scope.

(* ================================================================== *)
(** * Python strings *)
(* ================================================================== *)

Module PyStr.
Local Open Scope string_scope.

Definition chr (n : nat) : ascii := ascii_of_nat n.

Definition TAB : ascii := chr 9.
Definition LF : ascii := chr 10.
Definition CR : ascii := chr 13.

Definition code_in (c : ascii) (codes : list nat) : bool :=
  existsb (Nat.eqb (nat_of_ascii c)) codes.

(** [c in s] for a one-character [c]. *)
Fixpoint contains_char (c : ascii) (s : string) : bool :=
  match s with
  | "" => false
  | String a s' => Ascii.eqb a c || contains_char c s'
  end.

(** [s] without its prefix [p], when [s.startswith(p)]. *)
Fixpoint strip_prefix (p s : string) : option string :=
  match p, s with
  | "", _ => Some s
  | String a p', String b s' =>
      if Ascii.eqb a b then strip_prefix p' s' else None
  | String _ _, "" => None
  end.

Definition cons_head (c : ascii) (l : list string) : list string :=
  match l with
  | [] => [String c ""]
  | hd :: tl => String c hd :: tl
  end.

(** [s.split(sep)] for a one-character [sep]: never empty. *)
Fixpoint split_char (sep : ascii) (s : string) : list string :=
  match s with
  | "" => [""]
  | String c s' =>
      if Ascii.eqb c sep then "" :: split_char sep s'
      else cons_head c (split_char sep s')
  end.

(** [s.split(sep, 1)] read as a pair: [None] where Python returns the
    one-element list [[s]]. *)
Fixpoint split_once (sep : ascii) (s : string) : option (string * string) :=
  match s with
  | "" => None
  | String c s' =>
      if Ascii.eqb c sep then Some ("", s')
      else match split_once sep s' with
           | Some (a, b) => Some (String c a, b)
           | None => None
           end
  end.

(** [s.replace(old, new)] for a non-empty [old]: every occurrence, left to
    right, without overlap.  [skip] counts the characters of an occurrence
    that was just replaced and are still to be dropped. *)
Fixpoint replace_from (old new : string) (skip : nat) (s : string) : string :=
  match s with
  | "" => ""
  | String c s' =>
      match skip with
      | S k => replace_from old new k s'
      | O =>
          if prefix old s
          then new ++ replace_from old new (Nat.pred (length old)) s'
          else String c (replace_from old new 0 s')
      end
  end.

(** [s.replace("", new)] puts [new] before every character and at the end. *)
Fixpoint intersperse (new s : string) : string :=
  match s with
  | "" => new
  | String c s' => new ++ String c (intersperse new s')
  end.

Definition replace (old new s : string) : string :=
  match old with
  | "" => intersperse new s
  | _ => replace_from old new 0 s
  end.

(** The line boundaries of [str.splitlines] below code point 256. *)
Definition is_linebreak (c : ascii) : bool :=
  code_in c [10; 11; 12; 13; 28; 29; 30; 133]%nat.

Fixpoint break_lines (s : string) : list string :=
  match s with
  | "" => [""]
  | String c s' =>
      if Ascii.eqb c CR then
        match s' with
        | String c2 s'' =>
            if Ascii.eqb c2 LF then "" :: break_lines s''
            else "" :: break_lines s'
        | "" => "" :: break_lines s'
        end
      else if is_linebreak c then "" :: break_lines s'
      else cons_head c (break_lines s')
  end.

Fixpoint drop_last_empty (l : list string) : list string :=
  match l with
  | [] => []
  | [x] => if String.eqb x "" then [] else [x]
  | x :: l' => x :: drop_last_empty l'
  end.

(** [s.splitlines()]. *)
Definition splitlines (s : string) : list string :=
  drop_last_empty (break_lines s).

(** Whitespace below code point 256, as [str.isspace] has it and
    [str.strip] strips it. *)
Definition is_space (c : ascii) : bool :=
  code_in c [9; 10; 11; 12; 13; 28; 29; 30; 31; 32; 133; 160]%nat.

Fixpoint lstrip (s : string) : string :=
  match s with
  | "" => ""
  | String c s' => if is_space c then lstrip s' else s
  end.

Fixpoint rstrip (s : string) : string :=
  match s with
  | "" => ""
  | String c s' =>
      let r := rstrip s' in
      if is_space c && String.eqb r "" then "" else String c r
  end.

Definition is_digit (c : ascii) : bool :=
  let n := nat_of_ascii c in (48 <=? n)%nat && (n <=? 57)%nat.

Definition digit_val (c : ascii) : Z := Z.of_nat (nat_of_ascii c) - 48.

(** The digits of an [int] literal: single underscores between digits. *)
Fixpoint int_digits (s : string) (acc : Z) (after_digit : bool) : option Z :=
  match s with
  | "" => if after_digit then Some acc else None
  | String c s' =>
      if is_digit c then int_digits s' (10 * acc + digit_val c) true
      else if Ascii.eqb c "_" && after_digit then int_digits s' acc false
      else None
  end.

(** The whitespace [int] skips around a number: the ASCII whitespace of C,
    which leaves out the separators U+001C to U+001F, and what
    [str.isspace] accepts above ASCII. *)
Definition is_int_space (c : ascii) : bool :=
  code_in c [9; 10; 11; 12; 13; 32; 133; 160]%nat.

Fixpoint int_lstrip (s : string) : string :=
  match s with
  | "" => ""
  | String c s' => if is_int_space c then int_lstrip s' else s
  end.

Fixpoint int_rstrip (s : string) : string :=
  match s with
  | "" => ""
  | String c s' =>
      let r := int_rstrip s' in
      if is_int_space c && String.eqb r "" then "" else String c r
  end.

Fixpoint count_digits (s : string) : Z :=
  match s with
  | "" => 0
  | String c s' => (if is_digit c then 1 else 0) + count_digits s'
  end.

(** [sys.get_int_max_str_digits()], at its default: [int] refuses a text
    of more digits. *)
Definition INT_MAX_STR_DIGITS : Z := 4300.

(** The number after the sign. *)
Definition int_unsigned (r : string) : option Z :=
  if Z.ltb INT_MAX_STR_DIGITS (count_digits r) then None
  else int_digits r 0 false.

(** [int(s)]: [None] stands for [ValueError]. *)
Definition int_of_str (s : string) : option Z :=
  match int_rstrip (int_lstrip s) with
  | String "+" r => int_unsigned r
  | String "-" r => option_map Z.opp (int_unsigned r)
  | r => int_unsigned r
  end.

Definition digit_char (d : Z) : ascii := chr (48 + Z.to_nat (d mod 10)).

(** [f"{n:02d}"] and [f"{n:04d}"] for [0 <= n] of at most that many digits. *)
Definition pad2 (n : Z) : string :=
  String (digit_char (n / 10)) (String (digit_char n) "").

Definition pad4 (n : Z) : string :=
  String (digit_char (n / 1000)) (String (digit_char (n / 100)) (pad2 n)).

End PyStr.

(* ================================================================== *)
(** * [sorted] and [l[-1]] *)
(* ================================================================== *)

Module PySort.

Section Sorted.
Context {A K : Type} (key : A -> K) (lt : K -> K -> bool).

(** [x] goes before the first element that is not smaller: elements of
    equal key keep the order they came in. *)
Fixpoint insert (x : A) (l : list A) : list A :=
  match l with
  | [] => [x]
  | y :: l' => if lt (key y) (key x) then y :: insert x l' else x :: y :: l'
  end.

(** [sorted(l, key=key)].  Python's sort is stable and compares keys with
    [<] alone; on a strict weak order every stable sort returns this list. *)
Fixpoint sorted (l : list A) : list A :=
  match l with
  | [] => []
  | x :: l' => insert x (sorted l')
  end.

End Sorted.

(** [l[-1]]: [None] stands for [IndexError]. *)
Fixpoint last_item {A : Type} (l : list A) : option A :=
  match l with
  | [] => None
  | [x] => Some x
  | _ :: l' => last_item l'
  end.

End PySort.

(* ================================================================== *)
(** * The calendar of Python's [datetime] *)
(* ================================================================== *)

Module Calendar.
Import PyStr.

Record date : Type := mkdate { d_year : Z; d_month : Z; d_day : Z }.

(** A naive [datetime.datetime]. *)
Record datetime : Type := mkdatetime {
  year : Z; month : Z; day : Z;
  hour : Z; minute : Z; second : Z; microsecond : Z
}.

(** A normalised [datetime.timedelta]. *)
Record timedelta : Type := mktimedelta {
  days : Z; seconds : Z; microseconds : Z
}.

Definition MINYEAR : Z := 1.
Definition MAXYEAR : Z := 9999.

Definition is_leap (y : Z) : bool :=
  (y mod 4 =? 0) && (negb (y mod 100 =? 0) || (y mod 400 =? 0)).

Definition days_before_year (y : Z) : Z :=
  let y' := y - 1 in y' * 365 + y' / 4 - y' / 100 + y' / 400.

Definition DAYS_IN_MONTH : list Z :=
  [-1; 31; 28; 31; 30; 31; 30; 31; 31; 30; 31; 30; 31].

Definition DAYS_BEFORE_MONTH : list Z :=
  [-1; 0; 31; 59; 90; 120; 151; 181; 212; 243; 273; 304; 334].

Definition days_in_month (y m : Z) : Z :=
  if (m =? 2) && is_leap y then 29 else nth (Z.to_nat m) DAYS_IN_MONTH 0.

Definition days_before_month (y m : Z) : Z :=
  nth (Z.to_nat m) DAYS_BEFORE_MONTH 0
  + (if (2 <? m) && is_leap y then 1 else 0).

(** Proleptic Gregorian ordinal: 1 January of year 1 is day 1. *)
Definition ymd2ord (y m d : Z) : Z :=
  days_before_year y + days_before_month y m + d.

(** The fields a constructor of [datetime] accepts. *)
Definition valid_date (y m d : Z) : bool :=
  (MINYEAR <=? y) && (y <=? MAXYEAR) && (1 <=? m) && (m <=? 12)
  && (1 <=? d) && (d <=? days_in_month y m).

Definition valid_time (h mi s us : Z) : bool :=
  (0 <=? h) && (h <=? 23) && (0 <=? mi) && (mi <=? 59)
  && (0 <=? s) && (s <=? 59) && (0 <=? us) && (us <=? 999999).

Definition valid_datetime (t : datetime) : bool :=
  valid_date (year t) (month t) (day t)
  && valid_time (hour t) (minute t) (second t) (microsecond t).

(** [t.date()] *)
Definition date_of (t : datetime) : date :=
  mkdate (year t) (month t) (day t).

Definition date_eqb (a b : date) : bool :=
  (d_year a =? d_year b) && (d_month a =? d_month b) && (d_day a =? d_day b).

Definition toordinal (t : datetime) : Z := ymd2ord (year t) (month t) (day t).

(** Comparison of tuples of integers: the first position that differs
    decides, a proper prefix is smaller. *)
Fixpoint tuple_cmp (a b : list Z) : comparison :=
  match a, b with
  | [], [] => Eq
  | [], _ :: _ => Lt
  | _ :: _, [] => Gt
  | x :: a', y :: b' =>
      match x ?= y with
      | Eq => tuple_cmp a' b'
      | c => c
      end
  end.

Definition fields (t : datetime) : list Z :=
  [year t; month t; day t; hour t; minute t; second t; microsecond t].

(** [datetime] compares its seven fields as a tuple. *)
Definition datetime_cmp (a b : datetime) : comparison :=
  tuple_cmp (fields a) (fields b).

Definition datetime_ltb (a b : datetime) : bool :=
  match datetime_cmp a b with Lt => true | _ => false end.

Definition datetime_eqb (a b : datetime) : bool :=
  match datetime_cmp a b with Eq => true | _ => false end.

(** [timedelta(days, seconds, microseconds)] normalises so that
    [0 <= seconds < 86400] and [0 <= microseconds < 1000000]. *)
Definition timedelta_new (d s us : Z) : timedelta :=
  let total := (d * 86400 + s) * 1000000 + us in
  mktimedelta (total / 86400000000)
              ((total mod 86400000000) / 1000000)
              (total mod 1000000).

(** [a - b] on two naive datetimes. *)
Definition datetime_sub (a b : datetime) : timedelta :=
  let secs1 := second a + minute a * 60 + hour a * 3600 in
  let secs2 := second b + minute b * 60 + hour b * 3600 in
  timedelta_new (toordinal a - toordinal b) (secs1 - secs2)
                (microsecond a - microsecond b).

Definition isoweek1monday (y : Z) : Z :=
  let THURSDAY := 3 in
  let firstday := ymd2ord y 1 1 in
  let firstweekday := (firstday + 6) mod 7 in
  let week1monday := firstday - firstweekday in
  if THURSDAY <? firstweekday then week1monday + 7 else week1monday.

(** [t.isocalendar()]: ISO year, ISO week number, ISO weekday. *)
Definition isocalendar (t : datetime) : Z * Z * Z :=
  let y := year t in
  let week1monday := isoweek1monday y in
  let today := toordinal t in
  let week := (today - week1monday) / 7 in
  let wday := (today - week1monday) mod 7 in
  if week <? 0 then
    let y := y - 1 in
    let week1monday := isoweek1monday y in
    (y, (today - week1monday) / 7 + 1, (today - week1monday) mod 7 + 1)
  else if (52 <=? week) && (isoweek1monday (y + 1) <=? today) then
    (y + 1, 1, wday + 1)
  else (y, week + 1, wday + 1).

(** [t.strftime("%Y-%m-%d_%H:%M:%S")], for a year of four digits. *)
Definition strftime (t : datetime) : string :=
  (pad4 (year t) ++ "-" ++ pad2 (month t) ++ "-" ++ pad2 (day t) ++ "_"
   ++ pad2 (hour t) ++ ":" ++ pad2 (minute t) ++ ":" ++ pad2 (second t))%string.

(** ** [strptime] on the format ["%Y-%m-%d_%H:%M:%S"]

    [strptime] turns the format into a regular expression: [%Y] is four
    digits, every other directive an alternation of two-character forms
    followed by a one-character form, tried in that order.  [k] is the rest
    of the expression: an alternative that matches is given up when the rest
    fails after it. *)

Definition or_else {A : Type} (a b : option A) : option A :=
  match a with Some _ => a | None => b end.

Definition directive {R : Type} (two : ascii -> ascii -> bool)
    (one : ascii -> bool) (s : string) (k : Z -> string -> option R)
  : option R :=
  or_else
    (match s with
     | String a (String b r) =>
         if two a b
         then k ((if is_digit a then 10 * digit_val a else 0) + digit_val b) r
         else None
     | _ => None
     end)
    (match s with
     | String a r => if one a then k (digit_val a) r else None
     | _ => None
     end).

Definition between (lo hi : ascii) (c : ascii) : bool :=
  let n := nat_of_ascii c in
  (nat_of_ascii lo <=? n)%nat && (n <=? nat_of_ascii hi)%nat.

(** [%m]: [1[0-2]|0[1-9]|[1-9]] *)
Definition two_m (a b : ascii) : bool :=
  (Ascii.eqb a "1" && between "0" "2" b)
  || (Ascii.eqb a "0" && between "1" "9" b).
(** [%d]: [3[0-1]|[1-2]\d|0[1-9]|[1-9]| [1-9]] *)
Definition two_d (a b : ascii) : bool :=
  (Ascii.eqb a "3" && between "0" "1" b) || (between "1" "2" a && is_digit b)
  || (Ascii.eqb a "0" && between "1" "9" b)
  || (Ascii.eqb a " " && between "1" "9" b).
(** [%H]: [2[0-3]|[0-1]\d|\d] *)
Definition two_H (a b : ascii) : bool :=
  (Ascii.eqb a "2" && between "0" "3" b) || (between "0" "1" a && is_digit b).
(** [%M]: [[0-5]\d|\d] *)
Definition two_M (a b : ascii) : bool := between "0" "5" a && is_digit b.
(** [%S]: [6[0-1]|[0-5]\d|\d] *)
Definition two_S (a b : ascii) : bool :=
  (Ascii.eqb a "6" && between "0" "1" b) || (between "0" "5" a && is_digit b).

Definition literal {R : Type} (c : ascii) (s : string) (k : string -> option R)
  : option R :=
  match s with
  | String a r => if Ascii.eqb a c then k r else None
  | EmptyString => None
  end.

Definition four_digits {R : Type} (s : string) (k : Z -> string -> option R)
  : option R :=
  match s with
  | String a (String b (String c (String d r))) =>
      if is_digit a && is_digit b && is_digit c && is_digit d
      then k (1000 * digit_val a + 100 * digit_val b + 10 * digit_val c
              + digit_val d) r
      else None
  | _ => None
  end.

(** The match of the expression at the start of [s]: the six numbers and
    what is left of [s]. *)
Definition strptime_match (s : string) : option (list Z * string) :=
  four_digits s (fun yr s =>
  literal "-" s (fun s =>
  directive two_m (between "1" "9") s (fun mo s =>
  literal "-" s (fun s =>
  directive two_d (between "1" "9") s (fun dy s =>
  literal "_" s (fun s =>
  directive two_H is_digit s (fun hr s =>
  literal ":" s (fun s =>
  directive two_M is_digit s (fun mi s =>
  literal ":" s (fun s =>
  directive two_S is_digit s (fun sc s =>
  Some ([yr; mo; dy; hr; mi; sc], s)))))))))))).

(** [datetime.datetime.strptime(s, "%Y-%m-%d_%H:%M:%S")]: [None] stands
    for [ValueError] (no match, unconverted data, or fields that
    [datetime] refuses). *)
Definition strptime (s : string) : option datetime :=
  match strptime_match s with
  | Some ([yr; mo; dy; hr; mi; sc], EmptyString) =>
      if valid_date yr mo dy && valid_time hr mi sc 0
      then Some (mkdatetime yr mo dy hr mi sc 0)
      else None
  | _ => None
  end.

End Calendar.

(* ================================================================== *)
(** * Output, external commands and exceptions *)
(* ================================================================== *)

Module Effects.
Import Calendar.

Inductive exn : Type :=
| ValueError (msg : string)
| IndexError
| CalledProcessError (argv : list string).

Inductive outcome (A : Type) : Type :=
| Ok (a : A)
| Raise (e : exn).
Arguments Ok {A} a.
Arguments Raise {A} e.

(** The calendar period a bucket stands for: the keys of the dictionaries
    built by [group_by_day], [group_by_week], [group_by_month] and the
    yearly pass. *)
Inductive period : Type :=
| Day (d : date)
| Week (iso_year iso_week : Z)
| Month (y m : Z)
| Year (y : Z).

(** The three mutating operations. *)
Inductive op : Type :=
| Create (full : string)
| Rename (old new : string)
| Destroy (full : string).

(** The messages of [v1], [v2] and [v3], with the values they print. *)
Inductive note : Type :=
| RunningZfsList (cmd : list string)
| IgnoringForeign (full : string)
| FoundManaged (n : nat) (dataset : string)
| SkippedToday
| SkippedUnchanged
| NoSnapshots
| SortedSnapshots (n : nat)
| Window (tier : string) (first : Z) (last : option Z)
| Processing (tier : string)
| ZoneContains (tier : string) (n : nat)
| Keeping (tier : string) (bucket : period) (n : nat) (full : string)
| Promote (old new : string)
| ExecutingPromotions
| ExecutingDeletions
| Finished.

(** A line on standard output: a message, or the line [zfs_create],
    [zfs_rename] and [zfs_destroy] print, which starts with [[DRY]] in a
    dry run. *)
Inductive line : Type :=
| Message (n : note)
| OpLine (dry : bool) (o : op).

Inductive event : Type :=
| Print (l : line)
| Call (argv : list string).

Definition trace : Type := list event.

(** What the program does not decide: the verbosity read from the command
    line, the exit status and output of a command given what happened before
    it, and the order in which a [set] of strings is iterated, which Python
    leaves open: some arrangement of the elements inserted. *)
Record runtime : Type := mkruntime {
  VERBOSITY : Z;
  exit_ok : trace -> list string -> bool;
  output_of : trace -> list string -> option string;
  iter_set : list string -> list string;
  iter_set_perm : forall l, Permutation (iter_set l) l
}.

(** A computation reads the events so far and returns the events it adds and
    its result. *)
Definition M (A : Type) : Type := trace -> trace * outcome A.

Definition ret {A : Type} (a : A) : M A := fun _ => ([], Ok a).

Definition raise {A : Type} (e : exn) : M A := fun _ => ([], Raise e).

Definition bind {A B : Type} (m : M A) (f : A -> M B) : M B :=
  fun h =>
    match m h with
    | (t, Ok a) => let (t', r) := f a (h ++ t) in (t ++ t', r)
    | (t, Raise e) => (t, Raise e)
    end.

Definition print (l : line) : M unit := fun _ => ([Print l], Ok tt).

(** A [for] loop over a list. *)
Fixpoint for_each {A : Type} (l : list A) (body : A -> M unit) : M unit :=
  match l with
  | [] => ret tt
  | x :: l' => bind (body x) (fun _ => for_each l' body)
  end.

(** A [for] loop that updates a state. *)
Fixpoint fold_each {A S : Type} (l : list A) (body : A -> S -> M S) (s : S)
  : M S :=
  match l with
  | [] => ret s
  | x :: l' => bind (body x s) (fun s' => fold_each l' body s')
  end.

Definition of_option {A : Type} (o : option A) (e : exn) : M A :=
  match o with
  | Some a => ret a
  | None => raise e
  end.

Section Runtime.
Variable rt : runtime.

(** [v1], [v2], [v3] print when the verbosity is at least their level. *)
Definition say (level : Z) (n : note) : M unit :=
  if level <=? VERBOSITY rt then print (Message n) else ret tt.
Definition v1 : note -> M unit := say 1.
Definition v2 : note -> M unit := say 2.
Definition v3 : note -> M unit := say 3.

(** [subprocess.check_call(argv)] *)
Definition check_call (argv : list string) : M unit :=
  fun h =>
    ([Call argv],
     if exit_ok rt h argv then Ok tt else Raise (CalledProcessError argv)).

(** [subprocess.check_output(argv, text=True)] *)
Definition check_output (argv : list string) : M string :=
  fun h =>
    ([Call argv],
     match output_of rt h argv with
     | Some out => Ok out
     | None => Raise (CalledProcessError argv)
     end).

End Runtime.

Declare Scope monad_scope.
Delimit Scope monad_scope with M.
Notation "x <- m ;; k" := (bind m (fun x => k))
  (at level 61, m at next level, right associativity) : monad_scope.
Notation "' pat <- m ;; k" := (bind m (fun x => match x with pat => k end))
  (at level 61, pat pattern, m at next level, right associativity)
  : monad_scope.
Notation "m ;; k" := (bind m (fun _ => k))
  (at level 61, right associativity) : monad_scope.

End Effects.

(* ================================================================== *)
(** * The program *)
(* ================================================================== *)

Module Snappy.
Import PyStr PySort Calendar Effects.
Local Open Scope string_scope.
Local Open Scope monad_scope.

(** ** Data structures *)

Record Snapshot : Type := mkSnapshot {
  dataset : string;
  full_name : string;        (* dataset@snapname *)
  prefix : string;
  timestamp : datetime;
  tier : string;             (* daily/weekly/monthly/yearly *)
  used : Z                   (* ZFS "used" (unique bytes) *)
}.

(** The field [prefix] of [RetentionSpec] is [spec_prefix] here. *)
Record RetentionSpec : Type := mkRetentionSpec {
  daily : Z;
  weekly : Z;
  monthly : Z;
  yearly : Z;
  spec_prefix : string
}.

(** A Python [set] of strings: the elements in the order they were first
    added.  Iteration goes through [iter_set]. *)
Definition str_set : Type := list string.

Definition mem (x : string) (s : str_set) : bool := existsb (String.eqb x) s.

Definition set_add (x : string) (s : str_set) : str_set :=
  if mem x s then s else (s ++ [x])%list.

(** ** Timestamp parsing *)

Definition parse_timestamp (ts : string) : M datetime :=
  of_option (strptime ts) (ValueError ("Unsupported timestamp: " ++ ts)).

(** ** Snapshot enumeration *)

Definition TIERS : list string := ["daily"; "weekly"; "monthly"; "yearly"].

Definition is_char (c : ascii) : ascii -> bool := Ascii.eqb c.

(** [\d{4}-\d{2}-\d{2}_\d{2}:\d{2}:\d{2}] *)
Definition stamp_shape : list (ascii -> bool) :=
  [is_digit; is_digit; is_digit; is_digit; is_char "-";
   is_digit; is_digit; is_char "-"; is_digit; is_digit; is_char "_";
   is_digit; is_digit; is_char ":"; is_digit; is_digit; is_char ":";
   is_digit; is_digit].

(** The text matched by a sequence of character classes, and the rest. *)
Fixpoint match_shape (shape : list (ascii -> bool)) (s : string)
  : option (string * string) :=
  match shape, s with
  | [], _ => Some ("", s)
  | cls :: shape', String c s' =>
      if cls c then
        match match_shape shape' s' with
        | Some (m, r) => Some (String c m, r)
        | None => None
        end
      else None
  | _ :: _, "" => None
  end.

(** [$]: the end of the string, or a line feed that ends it. *)
Definition at_end (s : string) : bool :=
  String.eqb s "" || String.eqb s (String LF "").

(** [(daily|weekly|monthly|yearly)$] *)
Definition match_tier (s : string) : option string :=
  find (fun t => match strip_prefix t s with
                 | Some r => at_end r
                 | None => false
                 end) TIERS.

(** [regex.match(snapname)] and [m.groups()], for the pattern
    [^{re.escape(prefix)}-(\d{4}-\d{2}-\d{2}_\d{2}:\d{2}:\d{2})]
    [_(daily|weekly|monthly|yearly)$]. *)
Definition regex_match (prefix snapname : string) : option (string * string) :=
  match strip_prefix (prefix ++ "-") snapname with
  | None => None
  | Some s =>
      match match_shape stamp_shape s with
      | Some (ts_str, String "_" s') =>
          match match_tier s' with
          | Some tier => Some (ts_str, tier)
          | None => None
          end
      | _ => None
      end
  end.

(** The command of [list_snapshots]. *)
Definition zfs_list_cmd (dataset : string) : list string :=
  ["zfs"; "list"; "-t"; "snapshot"; "-o"; "name,used"; "-H";
   "-s"; "creation"; dataset].

Section Program.
Variable rt : runtime.

(** The loop of [list_snapshots] over the lines of the listing. *)
Fixpoint scan_lines (prefix : string) (lines : list string)
    (snaps : list Snapshot) : M (list Snapshot) :=
  match lines with
  | [] => ret snaps
  | line :: rest =>
      match split_char TAB line with
      | [full; used] =>
          if negb (contains_char "@" full) then scan_lines prefix rest snaps
          else
            '(ds, snapname) <- of_option (split_once "@" full)
                                 (ValueError "not enough values to unpack") ;;
            match regex_match prefix snapname with
            | None =>
                v3 rt (IgnoringForeign full) ;;
                scan_lines prefix rest snaps
            | Some (ts_str, tier) =>
                ts <- parse_timestamp ts_str ;;
                used <- of_option (int_of_str used)
                          (ValueError "invalid literal for int()") ;;
                let snap := mkSnapshot ds full prefix ts tier used in
                scan_lines prefix rest (snaps ++ [snap])%list
            end
      | _ => raise (ValueError "wrong number of values to unpack")
      end
  end.

Definition list_snapshots (dataset prefix : string) : M (list Snapshot) :=
  let cmd := zfs_list_cmd dataset in
  v3 rt (RunningZfsList cmd) ;;
  raw <- check_output rt cmd ;;
  snaps <- scan_lines prefix (splitlines raw) [] ;;
  v2 rt (FoundManaged (List.length snaps) dataset) ;;
  ret snaps.

(** ** ZFS operations *)

Definition zfs_destroy (full : string) (dry : bool) : M unit :=
  if dry then print (OpLine true (Destroy full))
  else print (OpLine false (Destroy full)) ;;
       check_call rt ["zfs"; "destroy"; full].

Definition zfs_rename (old new : string) (dry : bool) : M unit :=
  if dry then print (OpLine true (Rename old new))
  else print (OpLine false (Rename old new)) ;;
       check_call rt ["zfs"; "rename"; old; new].

Definition zfs_create (full : string) (dry : bool) : M unit :=
  if dry then print (OpLine true (Create full))
  else print (OpLine false (Create full)) ;;
       check_call rt ["zfs"; "snapshot"; full].

(** ** Snapshot creation logic

    [now] is the reading of [datetime.datetime.now()]. *)
Definition create_daily_snapshot (dataset prefix : string)
    (snaps : list Snapshot) (dry : bool) (now : datetime) : M unit :=
  let today := date_of now in
  let create :=
    let ts := strftime now in
    let name := dataset ++ "@" ++ prefix ++ "-" ++ ts ++ "_daily" in
    zfs_create name dry in
  match last_item snaps with
  | Some last =>
      if date_eqb (date_of (timestamp last)) today
         && String.eqb (tier last) "daily"
      then v1 rt SkippedToday
      else if Z.eqb (used last) 0 then v1 rt SkippedUnchanged
      else create
  | None => create
  end.

(** ** Helpers for retention logic *)

Definition age_days (ts now : datetime) : Z := days (datetime_sub now ts).

Definition period_eqb (a b : period) : bool :=
  match a, b with
  | Day d, Day d' => date_eqb d d'
  | Week y w, Week y' w' => Z.eqb y y' && Z.eqb w w'
  | Month y m, Month y' m' => Z.eqb y y' && Z.eqb m m'
  | Year y, Year y' => Z.eqb y y'
  | _, _ => false
  end.

(** A dictionary of buckets: the keys in the order they were inserted. *)
Definition buckets : Type := list (period * list Snapshot).

(** [buckets.setdefault(k, []).append(s)] *)
Fixpoint setdefault_append (k : period) (s : Snapshot) (b : buckets)
  : buckets :=
  match b with
  | [] => [(k, [s])]
  | (k', group) :: b' =>
      if period_eqb k k' then (k', group ++ [s])%list :: b'
      else (k', group) :: setdefault_append k s b'
  end.

Definition group_by (key : Snapshot -> period) (snaps : list Snapshot)
  : buckets :=
  fold_left (fun b s => setdefault_append (key s) s b) snaps [].

Definition day_of (s : Snapshot) : period := Day (date_of (timestamp s)).

Definition week_of (s : Snapshot) : period :=
  let '(y, w, _) := isocalendar (timestamp s) in Week y w.

Definition month_of (s : Snapshot) : period :=
  Month (year (timestamp s)) (month (timestamp s)).

Definition year_of (s : Snapshot) : period := Year (year (timestamp s)).

Definition group_by_day : list Snapshot -> buckets := group_by day_of.
Definition group_by_week : list Snapshot -> buckets := group_by week_of.
Definition group_by_month : list Snapshot -> buckets := group_by month_of.
(** The yearly pass builds its dictionary in place. *)
Definition group_by_year : list Snapshot -> buckets := group_by year_of.

(** The key of [pick_best], [(s.used, s.timestamp)], and [<] on it: the
    first component that differs decides. *)
Definition best_key (s : Snapshot) : Z * datetime := (used s, timestamp s).

Definition best_key_ltb (a b : Z * datetime) : bool :=
  if Z.eqb (fst a) (fst b) then datetime_ltb (snd a) (snd b)
  else Z.ltb (fst a) (fst b).

(** Pick snapshot with largest 'used', tie-broken by newest timestamp.
    [None] stands for the [IndexError] of an empty group. *)
Definition pick_best (group : list Snapshot) : option Snapshot :=
  last_item (sorted best_key best_key_ltb group).

(** ** Tiered retention engine *)

Definition daily_window (spec : RetentionSpec) : Z := daily spec.
Definition weekly_window (spec : RetentionSpec) : Z :=
  daily spec + weekly spec * 7.
Definition monthly_window (spec : RetentionSpec) : Z :=
  weekly_window spec + monthly spec * 30.
Definition yearly_window (spec : RetentionSpec) : Z :=
  monthly_window spec + yearly spec * 365.

(** The conditions of the four comprehensions, on an age in days. *)
Definition in_daily_zone (spec : RetentionSpec) (age : Z) : bool :=
  Z.leb age (daily_window spec).
Definition in_weekly_zone (spec : RetentionSpec) (age : Z) : bool :=
  Z.ltb (daily_window spec) age && Z.leb age (weekly_window spec).
Definition in_monthly_zone (spec : RetentionSpec) (age : Z) : bool :=
  Z.ltb (weekly_window spec) age && Z.leb age (monthly_window spec).
Definition in_yearly_zone (spec : RetentionSpec) (age : Z) : bool :=
  Z.ltb (monthly_window spec) age.

Definition zone (cond : RetentionSpec -> Z -> bool) (spec : RetentionSpec)
    (now : datetime) (snaps : list Snapshot) : list Snapshot :=
  filter (fun s => cond spec (age_days (timestamp s) now)) snaps.

Definition daily_zone := zone in_daily_zone.
Definition weekly_zone := zone in_weekly_zone.
Definition monthly_zone := zone in_monthly_zone.
Definition yearly_zone := zone in_yearly_zone.

(** The three collections the passes fill. *)
Record plan : Type := mkplan {
  keep : str_set;
  deletes : str_set;
  renames : list (string * string)
}.

Definition empty_plan : plan := mkplan [] [] [].

Definition keep_add (x : string) (p : plan) : plan :=
  mkplan (set_add x (keep p)) (deletes p) (renames p).
Definition deletes_add (x : string) (p : plan) : plan :=
  mkplan (keep p) (set_add x (deletes p)) (renames p).
Definition renames_append (r : string * string) (p : plan) : plan :=
  mkplan (keep p) (deletes p) (renames p ++ [r])%list.

(** [for s in group:]
    [if s.full_name != best.full_name: deletes.add(s.full_name)] *)
Definition delete_rest (best : Snapshot) (group : list Snapshot) (p : plan)
  : plan :=
  fold_left
    (fun p s =>
       if negb (String.eqb (full_name s) (full_name best))
       then deletes_add (full_name s) p else p)
    group p.

(** The body of the loop over the buckets of a zone.  The four passes are
    the same text up to the tier: [label] is the word of the message,
    [target] the tier of the zone. *)
Definition process_bucket (label target : string)
    (b : period * list Snapshot) (p : plan) : M plan :=
  let '(k, group) := b in
  best <- of_option (pick_best group) IndexError ;;
  v2 rt (Keeping label k (List.length group) (full_name best)) ;;
  let p := keep_add (full_name best) p in
  p <- (if negb (String.eqb (tier best) target) then
          let new := replace ("_" ++ tier best) ("_" ++ target)
                             (full_name best) in
          v1 rt (Promote (full_name best) new) ;;
          ret (keep_add new (renames_append (full_name best, new) p))
        else ret p) ;;
  ret (delete_rest best group p).

Definition process_buckets (label target : string) (b : buckets) (p : plan)
  : M plan :=
  fold_each b (process_bucket label target) p.

(** [tiered_retention] from the sort to the end of the yearly pass. *)
Definition plan_retention (snaps : list Snapshot) (spec : RetentionSpec)
    (now : datetime) : M plan :=
  let snaps := sorted timestamp datetime_ltb snaps in
  v3 rt (SortedSnapshots (List.length snaps)) ;;
  v3 rt (Window "Daily" 0 (Some (daily_window spec))) ;;
  v3 rt (Window "Weekly" (daily_window spec + 1) (Some (weekly_window spec))) ;;
  v3 rt (Window "Monthly" (weekly_window spec + 1)
                (Some (monthly_window spec))) ;;
  v3 rt (Window "Yearly" (monthly_window spec + 1) None) ;;
  let p := empty_plan in
  v1 rt (Processing "DAILY") ;;
  let daily := daily_zone spec now snaps in
  v2 rt (ZoneContains "Daily" (List.length daily)) ;;
  p <- process_buckets "Daily" "daily" (group_by_day daily) p ;;
  v1 rt (Processing "WEEKLY") ;;
  p <- process_buckets "Weekly" "weekly"
         (group_by_week (weekly_zone spec now snaps)) p ;;
  v1 rt (Processing "MONTHLY") ;;
  p <- process_buckets "Monthly" "monthly"
         (group_by_month (monthly_zone spec now snaps)) p ;;
  v1 rt (Processing "YEARLY") ;;
  p <- process_buckets "Yearly" "yearly"
         (group_by_year (yearly_zone spec now snaps)) p ;;
  ret p.

(** The execution of the operations: promotions, then deletions. *)
Definition execute (p : plan) (dry : bool) : M unit :=
  v1 rt ExecutingPromotions ;;
  for_each (renames p)
    (fun '(old, new) =>
       if negb (String.eqb old new) && negb (mem old (deletes p))
       then zfs_rename old new dry else ret tt) ;;
  v1 rt ExecutingDeletions ;;
  for_each (iter_set rt (deletes p))
    (fun full =>
       if negb (mem full (keep p)) then zfs_destroy full dry else ret tt) ;;
  v1 rt Finished.

(** Main retention logic.  [now] is the reading of
    [datetime.datetime.now()]. *)
Definition tiered_retention (snaps : list Snapshot) (spec : RetentionSpec)
    (dry : bool) (now : datetime) : M unit :=
  match snaps with
  | [] => v2 rt NoSnapshots
  | _ :: _ =>
      p <- plan_retention snaps spec now ;;
      execute p dry
  end.

End Program.
End Snappy.

(* ================================================================== *)
(** * Configuration and the command line *)
(* ================================================================== *)

Module Cli.
Import PyStr PySort Calendar Effects Snappy.
Local Open Scope string_scope.
Local Open Scope list_scope.
Local Open Scope Z_scope.

(** ** Python values and dictionaries *)

(** A value of the configuration as [load_sanoid_conf] leaves it: an [int]
    or a [str]. *)
Inductive value : Type :=
| VInt (n : Z)
| VStr (s : string).

(** A [dict] with string keys: the items in the order of insertion. *)
Definition dict (V : Type) : Type := list (string * V).

(** [d.get(k)] *)
Fixpoint get {V : Type} (k : string) (d : dict V) : option V :=
  match d with
  | [] => None
  | (k', v) :: d' => if String.eqb k k' then Some v else get k d'
  end.

(** [d.get(k, default)] *)
Definition get_default {V : Type} (k : string) (default : V) (d : dict V)
  : V :=
  match get k d with Some v => v | None => default end.

(** [d[k] = v] *)
Fixpoint setitem {V : Type} (k : string) (v : V) (d : dict V) : dict V :=
  match d with
  | [] => [(k, v)]
  | (k', v') :: d' =>
      if String.eqb k k' then (k', v) :: d' else (k', v') :: setitem k v d'
  end.

(** [d.update(other)] *)
Definition update {V : Type} (d other : dict V) : dict V :=
  fold_left (fun d kv => setitem (fst kv) (snd kv) d) other d.

(** [s.strip()] *)
Definition strip (s : string) : string := rstrip (lstrip s).

(** The characters below code point 256 that [str.isdigit] accepts: the
    ten digits and the superscripts two, three and one. *)
Definition is_digit_char (c : ascii) : bool :=
  is_digit c || code_in c [178; 179; 185]%nat.

Fixpoint all_digit_chars (s : string) : bool :=
  match s with
  | EmptyString => true
  | String c s' => is_digit_char c && all_digit_chars s'
  end.

(** [s.isdigit()] *)
Definition isdigit (s : string) : bool :=
  negb (String.eqb s "") && all_digit_chars s.

Fixpoint digits_of (fuel : nat) (n : Z) (acc : string) : string :=
  match fuel with
  | O => acc
  | S fuel' =>
      let acc' := String (digit_char n) acc in
      if n <? 10 then acc' else digits_of fuel' (n / 10) acc'
  end.

(** [str(n)] for an [int]. *)
Definition str_of_int (n : Z) : string :=
  let digits m := digits_of (S (Z.to_nat (Z.log2 m))) m "" in
  if n <? 0 then String "-" (digits (- n)) else digits n.

(** [f"{v}"] *)
Definition format (v : value) : string :=
  match v with
  | VInt n => str_of_int n
  | VStr s => s
  end.

(** [int(v)]; the message of the [ValueError] stands for the two of
    Python, that of a text that is no number and that of a text of too
    many digits. *)
Definition int (v : value) : outcome Z :=
  match v with
  | VInt n => Ok n
  | VStr s =>
      match int_of_str s with
      | Some n => Ok n
      | None => Raise (ValueError "invalid literal for int()")
      end
  end.

(** ** Config loading

    What [configparser] has read from the file: the sections in order,
    each with its items, all of them strings. *)
Definition parsed : Type := list (string * list (string * string)).

Definition config : Type := dict (dict value).

(** The body of the inner loop of [load_sanoid_conf]. *)
Definition convert (text : string) : outcome value :=
  let val := strip text in
  if isdigit val then
    match int (VStr val) with
    | Ok n => Ok (VInt n)
    | Raise e => Raise e
    end
  else Ok (VStr val).

Fixpoint load_items (items : list (string * string)) (sec : dict value)
  : outcome (dict value) :=
  match items with
  | [] => Ok sec
  | (key, text) :: rest =>
      match convert text with
      | Ok val => load_items rest (setitem key val sec)
      | Raise e => Raise e
      end
  end.

Fixpoint load_sections (p : parsed) (cfg : config) : outcome config :=
  match p with
  | [] => Ok cfg
  | (sec, items) :: rest =>
      match load_items items [] with
      | Ok d => load_sections rest (setitem sec d cfg)
      | Raise e => Raise e
      end
  end.

(** [load_sanoid_conf], from what the parser has read. *)
Definition load_sanoid_conf (p : parsed) : outcome config :=
  load_sections p [].

Definition resolve_template (cfg : config) (section : string)
  : outcome (dict value) :=
  let sec := get_default section [] cfg in
  match get "use_template" sec with
  | None => Ok sec
  | Some tpl =>
      let tpl_sec := ("template_" ++ format tpl)%string in
      match get tpl_sec cfg with
      | None =>
          Raise (ValueError ("Template '" ++ format tpl ++ "' referenced by '"
                             ++ section ++ "' not found")%string)
      | Some t => Ok (update t sec)
      end
  end.

(** ** The entry point *)

(** The namespace [parse_args] returns. *)
Record args : Type := mkargs {
  args_conf : string;
  args_dry : bool;
  args_create : bool;
  args_v : Z;
  args_dataset : string
}.

(** [main] can end in an exception of the engine or in the [TypeError] of
    [re.escape] on a prefix that is an [int]. *)
Inductive error : Type :=
| Engine (e : exn)
| TypeError.

(** The messages of [main]. *)
Inductive main_note : Type :=
| UsingPrefix (prefix : value)
| Retention (daily weekly monthly yearly : Z)
| CreatingDaily
| ApplyingPolicy.

(** An event of the whole program: one of the engine, or a message of
    [main]. *)
Inductive main_event : Type :=
| Core (e : event)
| Note (n : main_note).

Definition core (t : list main_event) : trace :=
  flat_map (fun e => match e with Core e => [e] | Note _ => [] end) t.

(** A computation of [main]: as [M], over the events of the whole
    program. *)
Definition Run (A : Type) : Type :=
  list main_event -> list main_event * (A + error).

Definition unit_run {A : Type} (a : A) : Run A := fun _ => ([], inl a).

Definition fail {A : Type} (e : error) : Run A := fun _ => ([], inr e).

Definition and_then {A B : Type} (m : Run A) (f : A -> Run B) : Run B :=
  fun h =>
    match m h with
    | (t, inl a) => let (t', r) := f a (h ++ t) in (t ++ t', r)
    | (t, inr e) => (t, inr e)
    end.

(** A computation of the engine inside [main]: it sees the events of the
    engine so far. *)
Definition lift {A : Type} (m : M A) : Run A :=
  fun h =>
    let (t, r) := m (core h) in
    (map Core t,
     match r with Ok a => inl a | Raise e => inr (Engine e) end).

Definition of_outcome {A : Type} (o : outcome A) : Run A :=
  lift (fun _ => ([], o)).

(** [v1] on a message of [main]. *)
Definition note1 (rt : runtime) (n : main_note) : Run unit :=
  fun _ => (if 1 <=? VERBOSITY rt then [Note n] else [], inl tt).

(** [VERBOSITY = args.v] *)
Definition with_verbosity (rt : runtime) (v : Z) : runtime :=
  mkruntime v (exit_ok rt) (output_of rt) (iter_set rt) (iter_set_perm rt).

(** [list_snapshots] on a prefix that is an [int]: the command runs, then
    [re.escape] raises. *)
Definition list_snapshots_int (rt : runtime) (dataset : string)
  : Run (list Snapshot) :=
  and_then (lift (bind (v3 rt (RunningZfsList (zfs_list_cmd dataset)))
                    (fun _ => check_output rt (zfs_list_cmd dataset))))
           (fun _ => fail TypeError).

(** [main], after [parse_args]: [p] is what the parser reads from
    [args.conf], [now_create] and [now_retention] the clock as
    [create_daily_snapshot] and [tiered_retention] read it. *)
Definition main (rt0 : runtime) (p : parsed) (a : args)
    (now_create now_retention : datetime) : Run unit :=
  let rt := with_verbosity rt0 (args_v a) in
  and_then (of_outcome (load_sanoid_conf p)) (fun cfg =>
  and_then (of_outcome (resolve_template cfg (args_dataset a))) (fun sec =>
  let prefix := get_default "snapshot_prefix" (VStr "snappy") sec in
  and_then (of_outcome (int (get_default "daily" (VInt 0) sec))) (fun d =>
  and_then (of_outcome (int (get_default "weekly" (VInt 0) sec))) (fun w =>
  and_then (of_outcome (int (get_default "monthly" (VInt 0) sec))) (fun m =>
  and_then (of_outcome (int (get_default "yearly" (VInt 0) sec))) (fun y =>
  and_then (note1 rt (UsingPrefix prefix)) (fun _ =>
  and_then (note1 rt (Retention d w m y)) (fun _ =>
  match prefix with
  | VInt _ =>
      and_then (list_snapshots_int rt (args_dataset a)) (fun _ =>
      unit_run tt)
  | VStr prefix =>
      let spec := mkRetentionSpec d w m y prefix in
      and_then (lift (list_snapshots rt (args_dataset a) prefix))
        (fun snaps =>
      and_then
        (if args_create a then
           and_then (note1 rt CreatingDaily) (fun _ =>
           and_then (lift (create_daily_snapshot rt (args_dataset a) prefix
                             snaps (args_dry a) now_create)) (fun _ =>
           lift (list_snapshots rt (args_dataset a) prefix)))
         else unit_run snaps) (fun snaps =>
      and_then (note1 rt ApplyingPolicy) (fun _ =>
      lift (tiered_retention rt snaps spec (args_dry a) now_retention))))
  end)))))))).

End Cli.

(* ================================================================== *)
(** * Facts about the calendar *)
(* ================================================================== *)

Module CalendarFacts.
Import Calendar.

Lemma days_before_year_succ (y : Z) :
  days_before_year (y + 1)
  = days_before_year y + 365 + (if is_leap y then 1 else 0).
Proof.
  unfold days_before_year, is_leap.
  replace (y + 1 - 1) with y by lia.
  destruct (y mod 4 =? 0) eqn:E4; destruct (y mod 100 =? 0) eqn:E100;
    destruct (y mod 400 =? 0) eqn:E400; simpl;
    rewrite ?Z.eqb_eq, ?Z.eqb_neq in *; Z.div_mod_to_equations; lia.
Qed.

Lemma days_before_year_mono (a b : Z) :
  a <= b -> days_before_year a <= days_before_year b.
Proof.
  unfold days_before_year. intros. Z.div_mod_to_equations. lia.
Qed.

Lemma month_cases (m : Z) :
  1 <= m <= 12 ->
  m = 1 \/ m = 2 \/ m = 3 \/ m = 4 \/ m = 5 \/ m = 6 \/ m = 7 \/ m = 8
  \/ m = 9 \/ m = 10 \/ m = 11 \/ m = 12.
Proof. lia. Qed.

Ltac each_month m H :=
  destruct (month_cases m H) as
    [?|[?|[?|[?|[?|[?|[?|[?|[?|[?|[?|?]]]]]]]]]]]; subst m.

(** Reads the entries of the month tables. *)
Ltac read_tables :=
  repeat match goal with
         | |- context [nth ?n ?l ?d] =>
             let v := eval vm_compute in (nth n l d) in
             change (nth n l d) with v
         end;
  cbn.

(** A month ends within its year. *)
Lemma month_within_year (y m : Z) :
  1 <= m <= 12 ->
  0 <= days_before_month y m
  /\ days_before_month y m + days_in_month y m
     <= 365 + (if is_leap y then 1 else 0).
Proof.
  intros H. unfold days_before_month, days_in_month.
  each_month m H; destruct (is_leap y); read_tables; lia.
Qed.

(** A month ends before a later month of the year starts. *)
Lemma month_before_month (y m1 m2 : Z) :
  1 <= m1 -> m1 < m2 -> m2 <= 12 ->
  days_before_month y m1 + days_in_month y m1 <= days_before_month y m2.
Proof.
  intros H1 H H2.
  assert (B1 : 1 <= m1 <= 12) by lia.
  assert (B2 : 1 <= m2 <= 12) by lia.
  unfold days_before_month, days_in_month.
  each_month m1 B1; each_month m2 B2; try lia;
    destruct (is_leap y); read_tables; lia.
Qed.

Lemma valid_date_bounds (y m d : Z) :
  valid_date y m d = true ->
  1 <= y <= 9999 /\ 1 <= m <= 12 /\ 1 <= d <= days_in_month y m.
Proof.
  unfold valid_date, MINYEAR, MAXYEAR.
  rewrite !andb_true_iff, !Z.leb_le. lia.
Qed.

Lemma valid_time_bounds (h mi s us : Z) :
  valid_time h mi s us = true ->
  0 <= h <= 23 /\ 0 <= mi <= 59 /\ 0 <= s <= 59 /\ 0 <= us <= 999999.
Proof.
  unfold valid_time. rewrite !andb_true_iff, !Z.leb_le. lia.
Qed.

(** The ordinal grows with the date. *)
Lemma ymd2ord_lt (y1 m1 d1 y2 m2 d2 : Z) :
  valid_date y1 m1 d1 = true -> valid_date y2 m2 d2 = true ->
  tuple_cmp [y1; m1; d1] [y2; m2; d2] = Lt ->
  ymd2ord y1 m1 d1 < ymd2ord y2 m2 d2.
Proof.
  intros V1 V2 C.
  apply valid_date_bounds in V1, V2.
  destruct V1 as (Y1 & M1 & D1), V2 as (Y2 & M2 & D2).
  pose proof (month_within_year y1 m1 M1) as [P1 E1].
  pose proof (month_within_year y2 m2 M2) as [P2 E2].
  unfold ymd2ord. cbn in C.
  destruct (Z.compare_spec y1 y2) as [Ey|Ly|Gy]; try discriminate.
  - subst y2.
    destruct (Z.compare_spec m1 m2) as [Em|Lm|Gm]; try discriminate.
    + subst m2.
      destruct (Z.compare_spec d1 d2); try discriminate. lia.
    + pose proof (month_before_month y1 m1 m2). lia.
  - pose proof (days_before_year_succ y1).
    pose proof (days_before_year_mono (y1 + 1) y2).
    destruct (is_leap y1); lia.
Qed.

(** Microseconds since the start of day 0 of the ordinal. *)
Definition stamp (t : datetime) : Z :=
  (toordinal t * 86400 + (second t + minute t * 60 + hour t * 3600)) * 1000000
  + microsecond t.

Lemma days_of_sub (a b : datetime) :
  days (datetime_sub a b) = (stamp a - stamp b) / 86400000000.
Proof.
  unfold datetime_sub, timedelta_new, stamp. cbn [days].
  f_equal. ring.
Qed.

Lemma valid_datetime_bounds (t : datetime) :
  valid_datetime t = true ->
  valid_date (year t) (month t) (day t) = true
  /\ 0 <= hour t <= 23 /\ 0 <= minute t <= 59 /\ 0 <= second t <= 59
  /\ 0 <= microsecond t <= 999999.
Proof.
  unfold valid_datetime. rewrite andb_true_iff. intros [D T].
  apply valid_time_bounds in T. tauto.
Qed.

(** The order of [datetime] is the order of time. *)
Lemma stamp_lt (a b : datetime) :
  valid_datetime a = true -> valid_datetime b = true ->
  datetime_cmp a b = Lt -> stamp a < stamp b.
Proof.
  intros Va Vb C.
  apply valid_datetime_bounds in Va, Vb.
  destruct Va as (Da & Ha & Ma & Sa & Ua), Vb as (Db & Hb & Mb & Sb & Ub).
  unfold stamp, toordinal.
  pose proof (ymd2ord_lt _ _ _ _ _ _ Da Db) as O.
  unfold datetime_cmp, fields in C. cbn in C, O.
  destruct (Z.compare_spec (year a) (year b)) as [Ey|?|?]; try discriminate;
    [rewrite Ey in *|specialize (O eq_refl); lia].
  destruct (Z.compare_spec (month a) (month b)) as [Em|?|?]; try discriminate;
    [rewrite Em in *|specialize (O eq_refl); lia].
  destruct (Z.compare_spec (day a) (day b)) as [Ed|?|?]; try discriminate;
    [rewrite Ed in *|specialize (O eq_refl); lia].
  clear O.
  destruct (Z.compare_spec (hour a) (hour b)); try discriminate; [|lia].
  destruct (Z.compare_spec (minute a) (minute b)); try discriminate; [|lia].
  destruct (Z.compare_spec (second a) (second b)); try discriminate; [|lia].
  destruct (Z.compare_spec (microsecond a) (microsecond b)); try discriminate.
  lia.
Qed.

End CalendarFacts.

(* ================================================================== *)
(** * Facts about [sorted] and the order of keys *)
(* ================================================================== *)

Module SortFacts.
Import PySort.

Lemma last_item_In {A : Type} (l : list A) (b : A) :
  last_item l = Some b -> In b l.
Proof.
  induction l as [|x [|y l'] IH]; intros E; try discriminate.
  - injection E as ->. now left.
  - right. now apply IH.
Qed.

Lemma last_item_nonempty {A : Type} (l : list A) :
  l <> [] -> exists b, last_item l = Some b.
Proof.
  induction l as [|x [|y l'] IH]; intros N; try congruence.
  - now exists x.
  - apply IH. discriminate.
Qed.

Section SortedFacts.
Context {A K : Type} (key : A -> K) (lt : K -> K -> bool).

Lemma insert_perm (x : A) (l : list A) :
  Permutation (insert key lt x l) (x :: l).
Proof.
  induction l as [|y l IH]; cbn; [reflexivity|].
  destruct (lt (key y) (key x)); [|reflexivity].
  rewrite IH. apply perm_swap.
Qed.

Lemma sorted_perm (l : list A) : Permutation (sorted key lt l) l.
Proof.
  induction l as [|x l IH]; cbn; [reflexivity|].
  rewrite insert_perm. now constructor.
Qed.

Lemma sorted_In (x : A) (l : list A) : In x (sorted key lt l) <-> In x l.
Proof.
  split; apply Permutation_in; [|symmetry]; apply sorted_perm.
Qed.

Lemma sorted_nonempty (l : list A) : l <> [] -> sorted key lt l <> [].
Proof.
  intros N E. apply N.
  pose proof (sorted_perm l) as P. rewrite E in P.
  now apply Permutation_nil.
Qed.

Lemma insert_nonempty (x : A) (l : list A) : insert key lt x l <> [].
Proof. destruct l as [|y l]; cbn; [|destruct (lt (key y) (key x))]; easy. Qed.

Lemma last_item_cons (y : A) (l : list A) :
  l <> [] -> last_item (y :: l) = last_item l.
Proof. now destruct l. Qed.

(** An element smaller than none of the rest goes to the end ... *)
Lemma insert_above_all (x : A) (l : list A) :
  (forall y, In y l -> lt (key y) (key x) = true) ->
  insert key lt x l = l ++ [x].
Proof.
  induction l as [|y l IH]; intros H; cbn; [reflexivity|].
  rewrite (H y (or_introl eq_refl)). f_equal.
  apply IH. intros z Hz. apply H. now right.
Qed.

(** ... and an insertion leaves the last element in place unless the new
    element is greater. *)
Lemma insert_keeps_last (a x : A) (l : list A) :
  last_item l = Some x -> lt (key x) (key a) = false ->
  last_item (insert key lt a l) = Some x.
Proof.
  induction l as [|y l IH]; intros E N; [discriminate|].
  cbn [insert]. destruct l as [|z l'].
  - injection E as ->. cbn. now rewrite N.
  - change (last_item (z :: l') = Some x) in E.
    destruct (lt (key y) (key a)).
    + rewrite last_item_cons by apply insert_nonempty. now apply IH.
    + exact E.
Qed.

Lemma last_item_snoc (l : list A) (x : A) : last_item (l ++ [x]) = Some x.
Proof.
  induction l as [|y l IH]; [reflexivity|].
  cbn [app]. rewrite last_item_cons; [exact IH|]. now destruct l.
Qed.

(** The last of [sorted]: the element no earlier one exceeds and every
    later one is smaller than. *)
Lemma last_sorted_split (l1 l2 : list A) (x : A) :
  (forall y, In y l1 -> lt (key x) (key y) = false) ->
  (forall y, In y l2 -> lt (key y) (key x) = true) ->
  last_item (sorted key lt (l1 ++ x :: l2)) = Some x.
Proof.
  intros H1 H2. induction l1 as [|a l1 IH]; cbn [app sorted].
  - rewrite insert_above_all; [apply last_item_snoc|].
    intros y Hy. apply H2. now apply sorted_In.
  - apply insert_keeps_last.
    + apply IH. intros y Hy. apply H1. now right.
    + apply H1. now left.
Qed.

(** The key of [b] is not smaller than the key of [a]. *)
Definition not_above (a b : A) : Prop := lt (key b) (key a) = false.

Hypothesis lt_asym : forall a b, lt a b = true -> lt b a = false.
Hypothesis ge_trans :
  forall a b c, lt b a = false -> lt c b = false -> lt c a = false.

Lemma lt_irrefl (a : K) : lt a a = false.
Proof.
  destruct (lt a a) eqn:E; [|reflexivity].
  now rewrite (lt_asym _ _ E) in E.
Qed.

Lemma insert_sorted (x : A) (l : list A) :
  StronglySorted not_above l -> StronglySorted not_above (insert key lt x l).
Proof.
  induction 1 as [|y l S IH F]; cbn.
  - repeat constructor.
  - destruct (lt (key y) (key x)) eqn:E.
    + constructor; [exact IH|].
      apply Forall_forall. intros z Hz.
      apply (Permutation_in _ (insert_perm x l)) in Hz.
      destruct Hz as [<-|Hz].
      * unfold not_above. now apply lt_asym.
      * rewrite Forall_forall in F. now apply F.
    + constructor; [now constructor|].
      constructor; [exact E|].
      rewrite Forall_forall in F |- *. intros z Hz.
      unfold not_above in *. eapply ge_trans; [exact E|now apply F].
Qed.

Lemma sorted_sorted (l : list A) : StronglySorted not_above (sorted key lt l).
Proof.
  induction l as [|x l IH]; cbn; [constructor|now apply insert_sorted].
Qed.

Lemma last_item_max (l : list A) (b : A) :
  StronglySorted not_above l -> last_item l = Some b ->
  forall x, In x l -> not_above x b.
Proof.
  induction 1 as [|y l S IH F]; intros E x Hx; [contradiction|].
  destruct l as [|z l'].
  - injection E as <-. destruct Hx as [<-|[]]. apply lt_irrefl.
  - change (last_item (z :: l') = Some b) in E.
    destruct Hx as [<-|Hx].
    + rewrite Forall_forall in F. apply F. now apply last_item_In.
    + now apply IH.
Qed.

(** The last of [sorted] has a key no element exceeds. *)
Lemma last_sorted_max (l : list A) (b : A) :
  last_item (sorted key lt l) = Some b ->
  In b l /\ forall x, In x l -> lt (key b) (key x) = false.
Proof.
  intros E. split.
  - apply sorted_In. now apply last_item_In.
  - intros x Hx.
    apply (last_item_max _ _ (sorted_sorted l) E). now apply sorted_In.
Qed.

End SortedFacts.
End SortFacts.

Module OrderFacts.
Import Calendar Snappy.

Lemma tuple_cmp_refl (a : list Z) : tuple_cmp a a = Eq.
Proof.
  induction a as [|x a IH]; cbn; [reflexivity|].
  now rewrite Z.compare_refl.
Qed.

Lemma tuple_cmp_eq (a b : list Z) : tuple_cmp a b = Eq -> a = b.
Proof.
  revert b. induction a as [|x a IH]; intros [|y b]; cbn; try easy.
  destruct (Z.compare_spec x y); try discriminate.
  intros E. subst. f_equal. now apply IH.
Qed.

Lemma tuple_cmp_antisym (a b : list Z) :
  tuple_cmp b a = CompOpp (tuple_cmp a b).
Proof.
  revert b. induction a as [|x a IH]; intros [|y b]; cbn; try easy.
  rewrite (Z.compare_antisym x y).
  destruct (x ?= y); cbn; auto.
Qed.

Lemma tuple_cmp_trans (a b c : list Z) :
  tuple_cmp a b = Lt -> tuple_cmp b c = Lt -> tuple_cmp a c = Lt.
Proof.
  revert b c. induction a as [|x a IH]; intros [|y b] [|z c]; cbn; try easy.
  destruct (Z.compare_spec x y), (Z.compare_spec y z); try discriminate;
    intros H1 H2; subst.
  - rewrite Z.compare_refl. eauto.
  - now apply Z.compare_lt_iff in H0 as ->.
  - now apply Z.compare_lt_iff in H as ->.
  - assert (L : x < z) by lia. now apply Z.compare_lt_iff in L as ->.
Qed.

(** The key of [pick_best] read as one tuple of integers. *)
Definition flat_key (k : Z * datetime) : list Z := fst k :: fields (snd k).

Lemma flat_key_inj (a b : Z * datetime) : flat_key a = flat_key b -> a = b.
Proof.
  destruct a as [u [y m d h mi s us]], b as [u' [y' m' d' h' mi' s' us']].
  unfold flat_key, fields; cbn. intros E.
  now injection E as -> -> -> -> -> -> -> ->.
Qed.

Lemma best_key_ltb_flat (a b : Z * datetime) :
  best_key_ltb a b
  = match tuple_cmp (flat_key a) (flat_key b) with Lt => true | _ => false end.
Proof.
  unfold best_key_ltb, flat_key, datetime_ltb, datetime_cmp.
  cbn [tuple_cmp].
  destruct (Z.compare_spec (fst a) (fst b)) as [E|L|G].
  - apply Z.eqb_eq in E. now rewrite E.
  - assert (N : fst a <> fst b) by lia.
    apply Z.eqb_neq in N. rewrite N. now apply Z.ltb_lt.
  - assert (N : fst a <> fst b) by lia.
    apply Z.eqb_neq in N. rewrite N. apply Z.ltb_ge. lia.
Qed.

Lemma best_key_ltb_asym (a b : Z * datetime) :
  best_key_ltb a b = true -> best_key_ltb b a = false.
Proof.
  rewrite !best_key_ltb_flat, (tuple_cmp_antisym (flat_key a) (flat_key b)).
  now destruct (tuple_cmp (flat_key a) (flat_key b)).
Qed.

Lemma best_key_ge_trans (a b c : Z * datetime) :
  best_key_ltb b a = false -> best_key_ltb c b = false ->
  best_key_ltb c a = false.
Proof.
  rewrite !best_key_ltb_flat.
  destruct (tuple_cmp (flat_key c) (flat_key a)) eqn:Eca; try reflexivity.
  destruct (tuple_cmp (flat_key b) (flat_key a)) eqn:Eba; try discriminate.
  - apply tuple_cmp_eq in Eba. rewrite Eba. now rewrite Eca.
  - rewrite tuple_cmp_antisym in Eba.
    destruct (tuple_cmp (flat_key a) (flat_key b)) eqn:Eab; try discriminate.
    now rewrite (tuple_cmp_trans _ _ _ Eca Eab).
Qed.

(** Two keys of which neither is smaller are the same key. *)
Lemma best_key_total (a b : Z * datetime) :
  best_key_ltb a b = false -> best_key_ltb b a = false -> a = b.
Proof.
  rewrite !best_key_ltb_flat, (tuple_cmp_antisym (flat_key a) (flat_key b)).
  destruct (tuple_cmp (flat_key a) (flat_key b)) eqn:E; try discriminate.
  intros _ _. now apply flat_key_inj, tuple_cmp_eq.
Qed.

End OrderFacts.

(* ================================================================== *)
(** * Reading a trace *)
(* ================================================================== *)

Module Traces.
Import Effects.
Local Open Scope string_scope.

(** The operations the program announced on standard output, in order. *)
Definition announced (t : trace) : list op :=
  flat_map (fun e => match e with Print (OpLine _ o) => [o] | _ => [] end) t.

(** The commands the program ran, in order. *)
Definition issued (t : trace) : list (list string) :=
  flat_map (fun e => match e with Call argv => [argv] | _ => [] end) t.

(** The command of an operation. *)
Definition command (o : op) : list string :=
  match o with
  | Create full => ["zfs"; "snapshot"; full]
  | Rename old new => ["zfs"; "rename"; old; new]
  | Destroy full => ["zfs"; "destroy"; full]
  end.

Definition is_message (e : event) : bool :=
  match e with Print (Message _) => true | _ => false end.

(** What [say] prints. *)
Definition said (rt : runtime) (level : Z) (n : note) : trace :=
  if Z.leb level (VERBOSITY rt) then [Print (Message n)] else [].

(** What [zfs_create], [zfs_rename] and [zfs_destroy] leave in the trace. *)
Definition op_events (dry : bool) (o : op) : trace :=
  if dry then [Print (OpLine true o)]
  else [Print (OpLine false o); Call (command o)].

(** The real counterpart of an event of a dry run: the line without
    [[DRY]] and the command. *)
Definition realise_event (e : event) : trace :=
  match e with
  | Print (OpLine true o) => op_events false o
  | _ => [e]
  end.

Definition realise (t : trace) : trace := flat_map realise_event t.

(** Every command of the trace is the command of an announced operation,
    in the same order; a dry run has no command. *)
Definition paired (dry : bool) (t : trace) : Prop :=
  issued t = if dry then [] else map command (announced t).

(** [m] always returns [a], adding the events [t]. *)
Definition emits {A : Type} (m : M A) (t : trace) (a : A) : Prop :=
  forall h, m h = (t, Ok a).

(** [m] adds the blocks [bs] one after the other and returns, or stops after
    a block because a command failed. *)
Definition runs (rt : runtime) (m : M unit) (bs : list trace) : Prop :=
  forall h, exists k,
    fst (m h) = List.concat (firstn k bs)
    /\ ((snd (m h) = Ok tt /\ firstn k bs = bs)
        \/ exists argv h',
             snd (m h) = Raise (CalledProcessError argv)
             /\ exit_ok rt h' argv = false).

End Traces.

Module EffectFacts.
Import Effects Traces.

Lemma announced_app (t t' : trace) :
  announced (t ++ t') = announced t ++ announced t'.
Proof. apply flat_map_app. Qed.

Lemma issued_app (t t' : trace) : issued (t ++ t') = issued t ++ issued t'.
Proof. apply flat_map_app. Qed.


Lemma messages_announced (t : trace) :
  forallb is_message t = true -> announced t = [].
Proof.
  induction t as [|[[n|d o]|argv] t IH]; cbn; try easy.
Qed.

Lemma messages_issued (t : trace) :
  forallb is_message t = true -> issued t = [].
Proof.
  induction t as [|[[n|d o]|argv] t IH]; cbn; try easy.
Qed.


Lemma said_messages (rt : runtime) (level : Z) (n : note) :
  forallb is_message (said rt level n) = true.
Proof. unfold said. now destruct (level <=? VERBOSITY rt). Qed.

Lemma announced_concat (bs : list trace) :
  announced (List.concat bs) = List.concat (map announced bs).
Proof.
  induction bs as [|b bs IH]; cbn; [reflexivity|].
  now rewrite announced_app, IH.
Qed.



Lemma paired_app dry (t t' : trace) :
  paired dry t -> paired dry t' -> paired dry (t ++ t').
Proof.
  unfold paired. intros H H'. rewrite issued_app, announced_app, H, H'.
  destruct dry; [reflexivity|]. now rewrite map_app.
Qed.

Lemma Forall_prefix {A : Type} (P : A -> Prop) (k : nat) (l : list A) :
  Forall P l -> Forall P (firstn k l).
Proof.
  intros F. revert k.
  induction F as [|x l H F IH]; intros [|k]; cbn; constructor; auto.
Qed.

(** A property of the blocks holds of every run of them. *)
Lemma paired_blocks dry (bs : list trace) (k : nat) :
  Forall (paired dry) bs -> paired dry (List.concat (firstn k bs)).
Proof.
  intros F. apply (Forall_prefix _ k) in F.
  induction F as [|b l P F IH]; cbn.
  - unfold paired. now destruct dry.
  - now apply paired_app.
Qed.

Lemma announced_blocks (P : op -> Prop) (bs : list trace) (k : nat) :
  Forall (fun b => Forall P (announced b)) bs ->
  Forall P (announced (List.concat (firstn k bs))).
Proof.
  intros F. apply (Forall_prefix _ k) in F.
  induction F as [|b l H F IH]; cbn; [constructor|].
  rewrite announced_app. apply Forall_app. now split.
Qed.

Lemma realise_op_events (o : op) :
  realise (op_events true o) = op_events false o.
Proof. reflexivity. Qed.

(** ** Computations that cannot fail *)

Lemma emits_ret {A : Type} (a : A) : emits (ret a) [] a.
Proof. now intros h. Qed.

Lemma emits_bind {A B : Type} (m : M A) (f : A -> M B) t a t' b :
  emits m t a -> emits (f a) t' b -> emits (bind m f) (t ++ t') b.
Proof.
  intros Hm Hf h. unfold bind. rewrite Hm, Hf. reflexivity.
Qed.

Lemma emits_say (rt : runtime) (level : Z) (n : note) :
  emits (say rt level n) (said rt level n) tt.
Proof.
  intros h. unfold say, said. now destruct (level <=? VERBOSITY rt).
Qed.


(** A loop that keeps an invariant of its state and prints messages only. *)
Lemma emits_fold_each {A S : Type} (I : S -> Prop) (l : list A)
    (body : A -> S -> M S) :
  (forall x s, In x l -> I s ->
     exists t s', emits (body x s) t s' /\ I s'
                  /\ forallb is_message t = true) ->
  forall s, I s ->
    exists t s', emits (fold_each l body s) t s' /\ I s'
                 /\ forallb is_message t = true.
Proof.
  induction l as [|x l IH]; intros H s Hs; cbn.
  - exists [], s. split; [apply emits_ret|now split].
  - destruct (H x s (or_introl eq_refl) Hs) as (t & s' & E & Hs' & Q).
    destruct (IH (fun y s0 Hy => H y s0 (or_intror Hy)) s' Hs')
      as (t' & s'' & E' & Hs'' & Q').
    exists (t ++ t'), s''. split; [now apply emits_bind with (a := s')|].
    split; [exact Hs''|]. now rewrite forallb_app, Q, Q'.
Qed.

(** ** Results that do not depend on the runtime *)

Lemma snd_bind {A B : Type} (m : M A) (f : A -> M B) (h : trace) :
  snd (bind m f h)
  = match snd (m h) with
    | Ok a => snd (f a (h ++ fst (m h)))
    | Raise e => Raise e
    end.
Proof.
  unfold bind. destruct (m h) as [t [a|e]]; cbn; [|reflexivity].
  now destruct (f a (h ++ t)).
Qed.

(** [m] and [m'] return the same result, whatever happened before. *)
Definition same_result {A : Type} (m m' : M A) : Prop :=
  forall h h', snd (m h) = snd (m' h').

Lemma same_result_bind {A B : Type} (m m' : M A) (f f' : A -> M B) :
  same_result m m' -> (forall a, same_result (f a) (f' a)) ->
  same_result (bind m f) (bind m' f').
Proof.
  intros Hm Hf h h'. rewrite !snd_bind, (Hm h h').
  destruct (snd (m' h')); [apply Hf|reflexivity].
Qed.

Lemma same_result_ret {A : Type} (a : A) : same_result (ret a) (ret a).
Proof. now intros h h'. Qed.

Lemma same_result_of_option {A : Type} (o : option A) (e : exn) :
  same_result (of_option o e) (of_option o e).
Proof. now destruct o. Qed.

Lemma same_result_say (rt rt' : runtime) (level : Z) (n : note) :
  same_result (say rt level n) (say rt' level n).
Proof.
  intros h h'. now rewrite (emits_say rt level n h), (emits_say rt' level n h').
Qed.

Lemma same_result_fold_each {A S : Type} (l : list A)
    (body body' : A -> S -> M S) :
  (forall x s, same_result (body x s) (body' x s)) ->
  forall s, same_result (fold_each l body s) (fold_each l body' s).
Proof.
  intros H. induction l as [|x l IH]; intros s; cbn.
  - apply same_result_ret.
  - apply same_result_bind; [apply H|exact IH].
Qed.

(** ** Computations that stop when a command fails *)

Section Stopping.
Variable rt : runtime.

Lemma runs_emits (m : M unit) (t : trace) : emits m t tt -> runs rt m [t].
Proof.
  intros H h. exists 1%nat. rewrite H. cbn. rewrite app_nil_r. auto.
Qed.

Lemma runs_nil : runs rt (ret tt) [].
Proof. intros h. exists 0%nat. cbn. auto. Qed.

Lemma firstn_all_app {A : Type} (k : nat) (l l' : list A) :
  firstn (List.length l + k) (l ++ l') = l ++ firstn k l'.
Proof.
  rewrite firstn_app.
  replace (List.length l + k - List.length l)%nat with k by lia.
  f_equal. apply firstn_all2. lia.
Qed.

Lemma firstn_short_app {A : Type} (k : nat) (l l' : list A) :
  firstn (Nat.min k (List.length l)) (l ++ l') = firstn k l.
Proof.
  rewrite firstn_app.
  replace (Nat.min k (List.length l) - List.length l)%nat with 0%nat by lia.
  cbn. rewrite app_nil_r.
  destruct (Nat.le_gt_cases k (List.length l)) as [L|G].
  - now rewrite Nat.min_l.
  - rewrite Nat.min_r by lia. rewrite !firstn_all2; auto; lia.
Qed.

Lemma runs_seq (m k : M unit) (bs bs' : list trace) :
  runs rt m bs -> runs rt k bs' -> runs rt (bind m (fun _ => k)) (bs ++ bs').
Proof.
  intros Hm Hk h. unfold bind.
  destruct (Hm h) as (n & Et & Er).
  destruct (m h) as [t r]. cbn in Et, Er.
  destruct Er as [[-> Full]|(argv & h' & -> & F)].
  - destruct (Hk (h ++ t)) as (n' & Et' & Er').
    destruct (k (h ++ t)) as [t' r']. cbn in Et', Er' |- *.
    exists (List.length bs + n')%nat.
    rewrite Full in Et. subst t t'.
    rewrite firstn_all_app, List.concat_app. split; [reflexivity|].
    destruct Er' as [[-> Full']|(argv & h' & -> & F)].
    + left. now rewrite Full'.
    + right. now exists argv, h'.
  - exists (Nat.min n (List.length bs)). cbn.
    rewrite firstn_short_app. split; [exact Et|]. right. now exists argv, h'.
Qed.

Lemma runs_after {A : Type} (m : M A) (f : A -> M unit) t a bs :
  emits m t a -> runs rt (f a) bs -> runs rt (bind m f) (t :: bs).
Proof.
  intros Hm Hf h. unfold bind. rewrite Hm.
  destruct (Hf (h ++ t)) as (n & Et & Er).
  destruct (f a (h ++ t)) as [t' r']. cbn in Et, Er |- *.
  exists (S n). cbn. subst t'. split; [reflexivity|].
  destruct Er as [[-> Full]|(argv & h' & -> & F)];
    [left|right; now exists argv, h'].
  now rewrite Full.
Qed.

Lemma runs_for_each {A : Type} (l : list A) (body : A -> M unit)
    (tr : A -> trace) :
  (forall x, runs rt (body x) [tr x]) -> runs rt (for_each l body) (map tr l).
Proof.
  intros H. induction l as [|x l IH]; cbn.
  - apply runs_nil.
  - change (tr x :: map tr l) with ([tr x] ++ map tr l).
    now apply runs_seq.
Qed.

End Stopping.

End EffectFacts.

(* ================================================================== *)
(** * Facts about the buckets and the three collections *)
(* ================================================================== *)

Module BucketFacts.
Import Calendar Effects Snappy.

Lemma date_eqb_eq (a b : date) : date_eqb a b = true -> a = b.
Proof.
  destruct a, b. unfold date_eqb. cbn.
  rewrite !andb_true_iff, !Z.eqb_eq. now intros [[-> ->] ->].
Qed.

Lemma period_eqb_eq (a b : period) : period_eqb a b = true -> a = b.
Proof.
  destruct a, b; cbn; try discriminate;
    rewrite ?andb_true_iff, ?Z.eqb_eq.
  - now intros ->%date_eqb_eq.
  - now intros [-> ->].
  - now intros [-> ->].
  - now intros ->.
Qed.

(** Every group is non-empty and made of elements of [l]. *)
Definition groups_from (l : list Snapshot) (b : buckets) : Prop :=
  forall k g, In (k, g) b -> g <> [] /\ forall s, In s g -> In s l.

Lemma setdefault_append_from (l : list Snapshot) k s (b : buckets) :
  In s l -> groups_from l b -> groups_from l (setdefault_append k s b).
Proof.
  intros Hs. induction b as [|[k' g'] b IH]; intros W k0 g0; cbn.
  - intros [E|[]]. injection E as <- <-.
    split; [discriminate|]. now intros s' [<-|[]].
  - assert (W' : groups_from l b).
    { intros k1 g1 H1. apply (W k1 g1). now right. }
    destruct (period_eqb k k').
    + intros [E|H]; [|apply (W k0 g0); now right].
      injection E as <- <-.
      destruct (W k' g' (or_introl eq_refl)) as [N I].
      split; [now destruct g'|].
      intros s' [H|[<-|[]]]%in_app_or; auto.
    + intros [E|H]; [apply (W k0 g0); now left|now apply (IH W' k0 g0)].
Qed.

Lemma group_by_from (key : Snapshot -> period) (l : list Snapshot) :
  groups_from l (group_by key l).
Proof.
  unfold group_by.
  assert (G : forall xs b, incl xs l -> groups_from l b ->
                groups_from l
                  (fold_left (fun b s => setdefault_append (key s) s b) xs b)).
  { induction xs as [|x xs IH]; intros b I W; cbn; [exact W|].
    apply IH; [intros y Hy; apply I; now right|].
    apply setdefault_append_from; [apply I; now left|exact W]. }
  apply G; [apply incl_refl|]. now intros k g [].
Qed.

(** [s] sits in the bucket of its own key. *)
Definition filed (key : Snapshot -> period) (s : Snapshot) (b : buckets)
  : Prop :=
  exists g, In (key s, g) b /\ In s g.

Lemma setdefault_append_files key (s : Snapshot) (b : buckets) :
  filed key s (setdefault_append (key s) s b).
Proof.
  induction b as [|[k' g'] b IH]; cbn.
  - exists [s]. split; now left.
  - destruct (period_eqb (key s) k') eqn:E.
    + apply period_eqb_eq in E. subst k'.
      exists (g' ++ [s]). split; [now left|].
      apply in_or_app. right. now left.
    + destruct IH as (g & I & M). exists g. split; [now right|exact M].
Qed.

Lemma setdefault_append_keeps key (s x : Snapshot) k (b : buckets) :
  filed key s b -> filed key s (setdefault_append k x b).
Proof.
  intros (g & I & M).
  induction b as [|[k' g'] b IH]; cbn; [contradiction|].
  destruct (period_eqb k k').
  - destruct I as [E|I].
    + injection E as -> ->. exists (g ++ [x]). split; [now left|].
      apply in_or_app. now left.
    + exists g. split; [now right|exact M].
  - destruct I as [E|I].
    + exists g. split; [now left|exact M].
    + destruct (IH I) as (g1 & I1 & M1). exists g1. split; [now right|exact M1].
Qed.

Lemma group_by_files key (l : list Snapshot) (s : Snapshot) :
  In s l -> filed key s (group_by key l).
Proof.
  unfold group_by.
  assert (K : forall xs b, filed key s b ->
                filed key s
                  (fold_left (fun b s => setdefault_append (key s) s b) xs b)).
  { induction xs as [|x xs IH]; intros b F; cbn; [exact F|].
    apply IH. now apply setdefault_append_keeps. }
  assert (G : forall xs b, In s xs ->
                filed key s
                  (fold_left (fun b s => setdefault_append (key s) s b) xs b)).
  { induction xs as [|x xs IH]; intros b H; cbn; [contradiction|].
    destruct H as [->|H]; [|now apply IH].
    apply K. apply setdefault_append_files. }
  apply G.
Qed.

End BucketFacts.

Module PlanFacts.
Import PySort Calendar Effects Snappy Traces EffectFacts BucketFacts.

Lemma mem_In (x : string) (s : str_set) : mem x s = true <-> In x s.
Proof.
  unfold mem. rewrite existsb_exists. split.
  - intros (y & H & E). apply String.eqb_eq in E. now subst.
  - intros H. exists x. split; [exact H|apply String.eqb_refl].
Qed.

Lemma set_add_In (x y : string) (s : str_set) :
  In y (set_add x s) <-> y = x \/ In y s.
Proof.
  unfold set_add. destruct (mem x s) eqn:E.
  - apply mem_In in E. split; [now right|]. now intros [->|H].
  - rewrite in_app_iff. cbn. intuition.
Qed.

(** [x] is the name of a snapshot of the list. *)
Definition listed (snaps : list Snapshot) (x : string) : Prop :=
  exists s, In s snaps /\ full_name s = x.

(** Every name to delete and every name to rename was listed. *)
Definition plan_listed (snaps : list Snapshot) (p : plan) : Prop :=
  (forall x, In x (deletes p) -> listed snaps x)
  /\ (forall o n, In (o, n) (renames p) -> listed snaps o).

Lemma delete_rest_listed (snaps : list Snapshot) best group (p : plan) :
  (forall s, In s group -> In s snaps) ->
  plan_listed snaps p -> plan_listed snaps (delete_rest best group p).
Proof.
  unfold delete_rest. revert p.
  induction group as [|s group IH]; intros p I L; cbn; [exact L|].
  apply IH; [intros; apply I; now right|].
  destruct (negb (String.eqb (full_name s) (full_name best))); [|exact L].
  destruct L as [D R]. split; [|exact R].
  intros x [->|H]%set_add_In; [|now apply D].
  exists s. split; [apply I; now left|reflexivity].
Qed.

Lemma pick_best_some (group : list Snapshot) :
  group <> [] -> exists b, pick_best group = Some b /\ In b group.
Proof.
  intros N. unfold pick_best.
  destruct (SortFacts.last_item_nonempty
              (sorted best_key best_key_ltb group)) as [b E].
  { now apply SortFacts.sorted_nonempty. }
  exists b. split; [exact E|].
  apply (SortFacts.sorted_In best_key best_key_ltb).
  now apply SortFacts.last_item_In.
Qed.

Section Planning.
Variable rt : runtime.

Lemma process_bucket_ok label target (snaps : list Snapshot) k g (p : plan) :
  g <> [] -> (forall s, In s g -> In s snaps) -> plan_listed snaps p ->
  exists t p', emits (process_bucket rt label target (k, g) p) t p'
               /\ plan_listed snaps p' /\ forallb is_message t = true.
Proof.
  intros N I L.
  destruct (pick_best_some g N) as (best & E & B).
  unfold process_bucket. rewrite E. cbn [of_option].
  assert (Lb : listed snaps (full_name best)).
  { exists best. split; [now apply I|reflexivity]. }
  destruct (negb (String.eqb (tier best) target)) eqn:C.
  - eexists. eexists. split; [|split].
    + eapply emits_bind; [apply emits_ret|]. cbv beta zeta.
      eapply emits_bind; [apply emits_say|]. cbv beta zeta. rewrite C.
      eapply emits_bind;
        [eapply emits_bind; [apply emits_say|apply emits_ret]|].
      apply emits_ret.
    + apply delete_rest_listed; [exact I|].
      destruct L as [D R]. split; [exact D|]. cbn.
      intros o n [H|[E'|[]]]%in_app_or; [now apply R with n|].
      now injection E' as <- <-.
    + cbn. rewrite !forallb_app, !said_messages. reflexivity.
  - eexists. eexists. split; [|split].
    + eapply emits_bind; [apply emits_ret|]. cbv beta zeta.
      eapply emits_bind; [apply emits_say|]. cbv beta zeta. rewrite C.
      eapply emits_bind; [apply emits_ret|].
      apply emits_ret.
    + apply delete_rest_listed; [exact I|exact L].
    + cbn. rewrite !forallb_app, !said_messages. reflexivity.
Qed.

Lemma process_buckets_ok label target (snaps zone : list Snapshot)
    (b : buckets) (p : plan) :
  groups_from zone b -> incl zone snaps -> plan_listed snaps p ->
  exists t p', emits (process_buckets rt label target b p) t p'
               /\ plan_listed snaps p' /\ forallb is_message t = true.
Proof.
  intros W Z L. unfold process_buckets.
  apply (emits_fold_each (plan_listed snaps)); [|exact L].
  intros [k g] s H Hs.
  destruct (W k g H) as [N I].
  apply process_bucket_ok; auto.
Qed.

Lemma zone_incl cond spec now (snaps : list Snapshot) :
  incl (zone cond spec now (sorted timestamp datetime_ltb snaps)) snaps.
Proof.
  intros s [H _]%filter_In.
  exact (proj1 (SortFacts.sorted_In timestamp datetime_ltb s snaps) H).
Qed.

Lemma plan_retention_ok (snaps : list Snapshot) spec now :
  exists t p, emits (plan_retention rt snaps spec now) t p
              /\ plan_listed snaps p /\ forallb is_message t = true.
Proof.
  assert (L0 : plan_listed snaps empty_plan) by (split; intros; contradiction).
  set (sn := sorted timestamp datetime_ltb snaps).
  destruct (process_buckets_ok "Daily" "daily" snaps _ _ empty_plan
              (group_by_from day_of (daily_zone spec now sn))
              (zone_incl _ spec now snaps) L0) as (t1 & p1 & E1 & L1 & Q1).
  destruct (process_buckets_ok "Weekly" "weekly" snaps _ _ p1
              (group_by_from week_of (weekly_zone spec now sn))
              (zone_incl _ spec now snaps) L1) as (t2 & p2 & E2 & L2 & Q2).
  destruct (process_buckets_ok "Monthly" "monthly" snaps _ _ p2
              (group_by_from month_of (monthly_zone spec now sn))
              (zone_incl _ spec now snaps) L2) as (t3 & p3 & E3 & L3 & Q3).
  destruct (process_buckets_ok "Yearly" "yearly" snaps _ _ p3
              (group_by_from year_of (yearly_zone spec now sn))
              (zone_incl _ spec now snaps) L3) as (t4 & p4 & E4 & L4 & Q4).
  eexists. exists p4. split; [|split; [exact L4|]].
  - unfold plan_retention. cbv zeta.
    repeat (eapply emits_bind; [apply emits_say|]; cbv beta).
    eapply emits_bind; [exact E1|]; cbv beta.
    eapply emits_bind; [apply emits_say|]; cbv beta.
    eapply emits_bind; [exact E2|]; cbv beta.
    eapply emits_bind; [apply emits_say|]; cbv beta.
    eapply emits_bind; [exact E3|]; cbv beta.
    eapply emits_bind; [apply emits_say|]; cbv beta.
    eapply emits_bind; [exact E4|]; cbv beta.
    apply emits_ret.
  - rewrite !forallb_app, !said_messages, Q1, Q2, Q3, Q4. reflexivity.
Qed.

End Planning.
End PlanFacts.

(* ================================================================== *)
(** * The run of [tiered_retention] as a sequence of blocks *)
(* ================================================================== *)

Module Run.
Import PySort Calendar Effects Snappy Traces.

(** The plan [tiered_retention] has built when the yearly pass ends, and
    what it has printed until then. *)
Definition planned (rt : runtime) (snaps : list Snapshot)
    (spec : RetentionSpec) (now : datetime) : plan :=
  match snd (plan_retention rt snaps spec now []) with
  | Ok p => p
  | Raise _ => empty_plan
  end.

Definition plan_trace (rt : runtime) (snaps : list Snapshot)
    (spec : RetentionSpec) (now : datetime) : trace :=
  fst (plan_retention rt snaps spec now []).

(** The conditions of the two loops of the execution. *)
Definition rename_guard (p : plan) (r : string * string) : bool :=
  negb (String.eqb (fst r) (snd r)) && negb (mem (fst r) (deletes p)).

Definition destroy_guard (p : plan) (full : string) : bool :=
  negb (mem full (keep p)).

(** What one turn of each loop adds to the trace. *)
Definition rename_block (p : plan) (dry : bool) (r : string * string)
  : trace :=
  if rename_guard p r then op_events dry (Rename (fst r) (snd r)) else [].

Definition destroy_block (p : plan) (dry : bool) (full : string) : trace :=
  if destroy_guard p full then op_events dry (Destroy full) else [].

Definition promotion_blocks (rt : runtime) (p : plan) (dry : bool)
  : list trace :=
  said rt 1 ExecutingPromotions :: map (rename_block p dry) (renames p).

Definition deletion_blocks (rt : runtime) (p : plan) (dry : bool)
  : list trace :=
  said rt 1 ExecutingDeletions
  :: map (destroy_block p dry) (iter_set rt (deletes p))
  ++ [said rt 1 Finished].

Definition execute_blocks (rt : runtime) (p : plan) (dry : bool)
  : list trace :=
  promotion_blocks rt p dry ++ deletion_blocks rt p dry.

(** The operations the execution goes through when no command fails: the
    renames the first loop lets through, in the order of [renames], then
    the destroys the second loop lets through, in the order of the set. *)
Definition planned_ops (rt : runtime) (p : plan) : list op :=
  map (fun r => Rename (fst r) (snd r)) (filter (rename_guard p) (renames p))
  ++ map Destroy (filter (destroy_guard p) (iter_set rt (deletes p))).

Definition retention_blocks (rt : runtime) (snaps : list Snapshot)
    (spec : RetentionSpec) (dry : bool) (now : datetime) : list trace :=
  match snaps with
  | [] => [said rt 2 NoSnapshots]
  | _ :: _ =>
      plan_trace rt snaps spec now
      :: execute_blocks rt (planned rt snaps spec now) dry
  end.

End Run.

Module RunFacts.
Import PySort Calendar Effects Snappy Traces EffectFacts PlanFacts Run.

Section Running.
Variable rt : runtime.

Lemma plan_retention_emits (snaps : list Snapshot) spec now :
  emits (plan_retention rt snaps spec now)
        (plan_trace rt snaps spec now) (planned rt snaps spec now).
Proof.
  destruct (plan_retention_ok rt snaps spec now) as (t & p & E & _ & _).
  unfold plan_trace, planned. now rewrite (E []).
Qed.

Lemma planned_listed (snaps : list Snapshot) spec now :
  plan_listed snaps (planned rt snaps spec now).
Proof.
  destruct (plan_retention_ok rt snaps spec now) as (t & p & E & L & _).
  unfold planned. now rewrite (E []).
Qed.

Lemma plan_trace_messages (snaps : list Snapshot) spec now :
  forallb is_message (plan_trace rt snaps spec now) = true.
Proof.
  destruct (plan_retention_ok rt snaps spec now) as (t & p & E & _ & Q).
  unfold plan_trace. now rewrite (E []).
Qed.

Lemma runs_op (m : M unit) (o : op) (dry : bool) :
  m = (if dry then print (OpLine true o)
       else bind (print (OpLine false o))
                 (fun _ => check_call rt (command o))) ->
  runs rt m [op_events dry o].
Proof.
  intros -> h. exists 1%nat. unfold op_events.
  destruct dry; cbn; [auto|].
  split; [reflexivity|].
  destruct (exit_ok rt _ _) eqn:X; [now left|right; eauto].
Qed.

Lemma runs_zfs_rename old new dry :
  runs rt (zfs_rename rt old new dry) [op_events dry (Rename old new)].
Proof. now apply runs_op. Qed.

Lemma runs_zfs_destroy full dry :
  runs rt (zfs_destroy rt full dry) [op_events dry (Destroy full)].
Proof. now apply runs_op. Qed.

Lemma runs_zfs_create full dry :
  runs rt (zfs_create rt full dry) [op_events dry (Create full)].
Proof. now apply runs_op. Qed.

Lemma runs_skip : runs rt (ret tt) [[]].
Proof. apply runs_emits, emits_ret. Qed.

Lemma runs_say level n : runs rt (say rt level n) [said rt level n].
Proof. apply runs_emits, emits_say. Qed.

Lemma runs_execute (p : plan) (dry : bool) :
  runs rt (execute rt p dry) (execute_blocks rt p dry).
Proof.
  unfold execute, execute_blocks, promotion_blocks, deletion_blocks.
  change (?a :: ?l) with ([a] ++ l) at 1.
  rewrite <- app_assoc.
  apply runs_seq; [apply runs_say|].
  apply runs_seq.
  { apply runs_for_each. intros [old new]. unfold rename_block, rename_guard.
    cbn [fst snd].
    destruct (_ && _); [apply runs_zfs_rename|apply runs_skip]. }
  change (?a :: ?l) with ([a] ++ l) at 1.
  apply runs_seq; [apply runs_say|].
  apply runs_seq; [|apply runs_say].
  apply runs_for_each. intros full. unfold destroy_block, destroy_guard.
  destruct (negb _); [apply runs_zfs_destroy|apply runs_skip].
Qed.

Lemma runs_tiered_retention (snaps : list Snapshot) spec dry now :
  runs rt (tiered_retention rt snaps spec dry now)
       (retention_blocks rt snaps spec dry now).
Proof.
  unfold tiered_retention, retention_blocks.
  destruct snaps as [|s snaps]; [apply runs_say|].
  eapply runs_after; [apply plan_retention_emits|apply runs_execute].
Qed.

(** ** A dry run *)




(** ** The blocks of a real run are those of the dry run, realised *)






(** ** What the blocks announce *)

Lemma rename_block_announces (p : plan) dry r :
  announced (rename_block p dry r)
  = if rename_guard p r then [Rename (fst r) (snd r)] else [].
Proof. unfold rename_block. now destruct (rename_guard p r), dry. Qed.

Lemma destroy_block_announces (p : plan) dry full :
  announced (destroy_block p dry full)
  = if destroy_guard p full then [Destroy full] else [].
Proof. unfold destroy_block. now destruct (destroy_guard p full), dry. Qed.

Lemma paired_op_events dry o : paired dry (op_events dry o).
Proof. now destruct dry. Qed.

Lemma paired_messages dry t : forallb is_message t = true -> paired dry t.
Proof.
  intros Q. unfold paired.
  rewrite (messages_issued t Q), (messages_announced t Q). now destruct dry.
Qed.

Lemma paired_retention_blocks (snaps : list Snapshot) spec dry now :
  Forall (paired dry) (retention_blocks rt snaps spec dry now).
Proof.
  unfold retention_blocks. destruct snaps as [|s snaps].
  - repeat constructor. apply paired_messages, said_messages.
  - constructor; [apply paired_messages, plan_trace_messages|].
    unfold execute_blocks, promotion_blocks, deletion_blocks.
    repeat first
      [ apply Forall_app; split
      | apply Forall_cons
      | apply Forall_nil
      | apply paired_messages, said_messages ].
    + apply Forall_forall. intros b (r & <- & _)%in_map_iff.
      unfold rename_block.
      destruct (rename_guard _ r); [apply paired_op_events|].
      now apply paired_messages.
    + apply Forall_forall. intros b (r & <- & _)%in_map_iff.
      unfold destroy_block.
      destruct (destroy_guard _ r); [apply paired_op_events|].
      now apply paired_messages.
Qed.

End Running.

Lemma process_buckets_same_result (rt rt' : runtime) label target
    (b : buckets) (p : plan) :
  same_result (process_buckets rt label target b p)
              (process_buckets rt' label target b p).
Proof.
  unfold process_buckets. revert p.
  apply same_result_fold_each. intros [k g] p. unfold process_bucket.
  apply same_result_bind; [apply same_result_of_option|]. intros best.
  apply same_result_bind; [apply same_result_say|]. intros _.
  apply same_result_bind; [|intros; apply same_result_ret].
  destruct (negb _); [|apply same_result_ret].
  apply same_result_bind; [apply same_result_say|].
  intros _. apply same_result_ret.
Qed.

(** The plan does not depend on the verbosity, on the fate of the commands
    or on the order in which sets are iterated. *)
Lemma planned_any_runtime (rt rt' : runtime) (snaps : list Snapshot)
    spec now :
  planned rt snaps spec now = planned rt' snaps spec now.
Proof.
  unfold planned.
  assert (E : same_result (plan_retention rt snaps spec now)
                          (plan_retention rt' snaps spec now)).
  { unfold plan_retention. cbv zeta.
    repeat first
      [ apply same_result_ret
      | apply same_result_bind;
        [first [apply same_result_say|apply process_buckets_same_result]
        |intros ?] ]. }
  now rewrite (E [] []).
Qed.

Lemma planned_of_nothing (rt : runtime) spec now :
  planned rt [] spec now = empty_plan.
Proof.
  rewrite (planned_any_runtime rt
             (mkruntime 0 (fun _ _ => true) (fun _ _ => None) (fun l => l)
                        (fun l => Permutation_refl l))).
  reflexivity.
Qed.

Lemma announced_rename_blocks (p : plan) dry (l : list (string * string)) :
  announced (List.concat (map (rename_block p dry) l))
  = map (fun r => Rename (fst r) (snd r)) (filter (rename_guard p) l).
Proof.
  induction l as [|r l IH]; [reflexivity|].
  cbn [map List.concat filter].
  rewrite announced_app, IH, rename_block_announces.
  now destruct (rename_guard p r).
Qed.

Lemma announced_destroy_blocks (p : plan) dry (l : list string) :
  announced (List.concat (map (destroy_block p dry) l))
  = map Destroy (filter (destroy_guard p) l).
Proof.
  induction l as [|r l IH]; [reflexivity|].
  cbn [map List.concat filter].
  rewrite announced_app, IH, destroy_block_announces.
  now destruct (destroy_guard p r).
Qed.

(** The blocks of a run announce the operations of the plan. *)
Lemma announced_retention_blocks (rt : runtime) (snaps : list Snapshot)
    spec dry now :
  announced (List.concat (retention_blocks rt snaps spec dry now))
  = planned_ops rt (planned rt snaps spec now).
Proof.
  unfold retention_blocks, planned_ops. destruct snaps as [|s l] eqn:E.
  - rewrite planned_of_nothing. cbn [List.concat renames deletes empty_plan].
    rewrite app_nil_r.
    rewrite (messages_announced _ (said_messages rt 2 NoSnapshots)).
    pose proof (iter_set_perm rt []) as P.
    apply Permutation_sym, Permutation_nil in P. now rewrite P.
  - rewrite <- E.
    unfold execute_blocks, promotion_blocks, deletion_blocks.
    cbn [List.concat app].
    rewrite !List.concat_app. cbn [List.concat].
    rewrite !announced_app, List.concat_app, announced_app.
    cbn [List.concat]. rewrite app_nil_r.
    rewrite announced_rename_blocks, announced_destroy_blocks.
    rewrite (messages_announced _ (plan_trace_messages rt snaps spec now)).
    rewrite !(messages_announced _ (said_messages rt 1 _)).
    cbn [app]. now rewrite app_nil_r.
Qed.

End RunFacts.

(* ================================================================== *)
(** * Properties *)
(* ================================================================== *)

Import PyStr PySort Calendar Effects Snappy Traces Run.
Local Open Scope string_scope.
Local Open Scope list_scope.
Local Open Scope Z_scope.

(** A runtime for the examples: silent, every command succeeds, the listing
    is [raw], a set is iterated in the order of insertion. *)
Definition example_runtime (raw : string) : runtime :=
  mkruntime 0 (fun _ _ => true) (fun _ _ => Some raw) (fun l => l)
            (fun l => Permutation_refl l).

(** ** The four zones *)

(** The number of zone conditions an age satisfies. *)
Definition zones_holding (spec : RetentionSpec) (age : Z) : nat :=
  List.length
    (filter (fun b : bool => b)
       [in_daily_zone spec age; in_weekly_zone spec age;
        in_monthly_zone spec age; in_yearly_zone spec age]).

(** Exactly one of four conditions. *)
Definition one_of_four (a b c d : bool) : Prop :=
  (a = true /\ b = false /\ c = false /\ d = false)
  \/ (a = false /\ b = true /\ c = false /\ d = false)
  \/ (a = false /\ b = false /\ c = true /\ d = false)
  \/ (a = false /\ b = false /\ c = false /\ d = true).

Lemma zones_one_of_four (spec : RetentionSpec) (age : Z) :
  0 <= daily spec -> 0 <= weekly spec -> 0 <= monthly spec ->
  one_of_four (in_daily_zone spec age) (in_weekly_zone spec age)
              (in_monthly_zone spec age) (in_yearly_zone spec age).
Proof.
  intros Hd Hw Hm.
  unfold one_of_four, in_daily_zone, in_weekly_zone, in_monthly_zone,
    in_yearly_zone, monthly_window, weekly_window, daily_window.
  rewrite !andb_true_iff, !andb_false_iff, !Z.leb_le, !Z.ltb_lt,
    !Z.leb_gt, !Z.ltb_ge.
  lia.
Qed.

Lemma zones_holding_one (spec : RetentionSpec) (age : Z) :
  0 <= daily spec -> 0 <= weekly spec -> 0 <= monthly spec ->
  zones_holding spec age = 1%nat.
Proof.
  intros Hd Hw Hm. unfold zones_holding.
  destruct (zones_one_of_four spec age Hd Hw Hm)
    as [H|[H|[H|H]]]; destruct H as (-> & -> & -> & ->); reflexivity.
Qed.

Lemma filter_split4 {A : Type} (f1 f2 f3 f4 : A -> bool) (l : list A) :
  (forall x, one_of_four (f1 x) (f2 x) (f3 x) (f4 x)) ->
  Permutation (filter f1 l ++ filter f2 l ++ filter f3 l ++ filter f4 l) l.
Proof.
  intros One.
  induction l as [|x l IH]; cbn [filter]; [reflexivity|].
  destruct (One x) as [H|[H|[H|H]]]; destruct H as (-> & -> & -> & ->).
  - cbn [app]. now constructor.
  - symmetry. apply Permutation_cons_app. now symmetry.
  - symmetry. rewrite app_assoc. apply Permutation_cons_app.
    rewrite <- app_assoc. now symmetry.
  - symmetry. rewrite !app_assoc. apply Permutation_cons_app.
    rewrite <- !app_assoc. now symmetry.
Qed.

Lemma zones_split (spec : RetentionSpec) (now : datetime)
    (snaps : list Snapshot) :
  0 <= daily spec -> 0 <= weekly spec -> 0 <= monthly spec ->
  Permutation
    (daily_zone spec now snaps ++ weekly_zone spec now snaps
     ++ monthly_zone spec now snaps ++ yearly_zone spec now snaps)
    snaps.
Proof.
  intros Hd Hw Hm.
  apply (filter_split4
           (fun s => in_daily_zone spec (age_days (timestamp s) now))
           (fun s => in_weekly_zone spec (age_days (timestamp s) now))
           (fun s => in_monthly_zone spec (age_days (timestamp s) now))
           (fun s => in_yearly_zone spec (age_days (timestamp s) now))).
  intros s. now apply zones_one_of_four.
Qed.

(** C4.  For a retention spec with non-negative counts and an age of at
    least 0 days, exactly one of the four zone conditions holds, with the
    windows [daily], [daily + weekly*7] and [daily + weekly*7 + monthly*30];
    so the four zones of a list of snapshots of such ages take every
    snapshot once: together they are a rearrangement of the list. *)
Theorem zones_partition (spec : RetentionSpec) (age : Z) :
  0 <= daily spec -> 0 <= weekly spec -> 0 <= monthly spec ->
  0 <= yearly spec -> 0 <= age ->
  daily_window spec = daily spec
  /\ weekly_window spec = daily_window spec + weekly spec * 7
  /\ monthly_window spec = weekly_window spec + monthly spec * 30
  /\ in_daily_zone spec age = (age <=? daily_window spec)
  /\ in_weekly_zone spec age
     = (daily_window spec <? age) && (age <=? weekly_window spec)
  /\ in_monthly_zone spec age
     = (weekly_window spec <? age) && (age <=? monthly_window spec)
  /\ in_yearly_zone spec age = (monthly_window spec <? age)
  /\ zones_holding spec age = 1%nat
  /\ forall now snaps,
       Forall (fun s => 0 <= age_days (timestamp s) now) snaps ->
       Permutation
         (daily_zone spec now snaps ++ weekly_zone spec now snaps
          ++ monthly_zone spec now snaps ++ yearly_zone spec now snaps)
         snaps.
Proof.
  intros Hd Hw Hm _ _.
  repeat (split; [reflexivity|]).
  split; [now apply zones_holding_one|].
  intros now snaps _. now apply zones_split.
Qed.

Lemma zones_partition_witness :
  zones_holding (mkRetentionSpec 2 1 0 0 "snappy") 3 = 1%nat.
Proof.
  apply (zones_partition (mkRetentionSpec 2 1 0 0 "snappy") 3);
    cbn; lia.
Defined.

Lemma empty_zone (cond : RetentionSpec -> Z -> bool) spec now
    (snaps : list Snapshot) :
  (forall age, cond spec age = false) -> zone cond spec now snaps = [].
Proof.
  intros H. unfold zone.
  induction snaps as [|s snaps IH]; cbn; [reflexivity|]. now rewrite H.
Qed.

Definition noon_10_jan : datetime := mkdatetime 2024 1 10 12 0 0 123.

Definition morning_snapshot : Snapshot :=
  mkSnapshot "tank" "tank@snappy-2024-01-10_08:00:00_daily" "snappy"
             (mkdatetime 2024 1 10 8 0 0 0) "daily" 4096.

Definition old_snapshot : Snapshot :=
  mkSnapshot "tank" "tank@snappy-2019-06-01_08:00:00_yearly" "snappy"
             (mkdatetime 2019 6 1 8 0 0 0) "yearly" 4096.

(** C7, counterexample.  With [daily = 0] a snapshot taken four hours ago
    is in the daily zone, and with [yearly = 0] a snapshot of 2019 is in the
    yearly zone: a count of 0 does not empty these two zones. *)
Lemma zero_count_zone_not_empty :
  let no_daily := mkRetentionSpec 0 1 1 1 "snappy" in
  let no_yearly := mkRetentionSpec 1 1 1 0 "snappy" in
  daily no_daily = 0
  /\ age_days (timestamp morning_snapshot) noon_10_jan = 0
  /\ daily_zone no_daily noon_10_jan [morning_snapshot] = [morning_snapshot]
  /\ yearly no_yearly = 0
  /\ age_days (timestamp old_snapshot) noon_10_jan = 1684
  /\ yearly_zone no_yearly noon_10_jan [old_snapshot] = [old_snapshot].
Proof. repeat split; reflexivity. Qed.

(** C7, amended.  With [monthly = 0] the monthly window equals the weekly
    window, the monthly zone is empty and every snapshot older than the
    weekly window is in the yearly zone; with [weekly = 0] the weekly zone is
    empty.  With [daily = 0] the daily zone holds the snapshots of age at
    most 0, and the yearly zone does not depend on the yearly count: it
    holds every snapshot older than the monthly window. *)
Theorem zero_count_zones (spec : RetentionSpec) (age : Z) :
  (monthly spec = 0 ->
     monthly_window spec = weekly_window spec
     /\ in_monthly_zone spec age = false
     /\ (weekly_window spec < age -> in_yearly_zone spec age = true)
     /\ forall now snaps, monthly_zone spec now snaps = [])
  /\ (weekly spec = 0 ->
        weekly_window spec = daily_window spec
        /\ in_weekly_zone spec age = false
        /\ forall now snaps, weekly_zone spec now snaps = [])
  /\ (daily spec = 0 -> in_daily_zone spec age = (age <=? 0))
  /\ in_yearly_zone spec age = (monthly_window spec <? age)
  /\ (forall y,
        in_yearly_zone
          (mkRetentionSpec (daily spec) (weekly spec) (monthly spec) y
                           (spec_prefix spec)) age
        = in_yearly_zone spec age).
Proof.
  assert (M : monthly spec = 0 -> forall a, in_monthly_zone spec a = false).
  { intros E a. unfold in_monthly_zone, monthly_window. rewrite E.
    destruct (Z.ltb_spec (weekly_window spec) a); [|reflexivity].
    apply Z.leb_gt. lia. }
  assert (W : weekly spec = 0 -> forall a, in_weekly_zone spec a = false).
  { intros E a. unfold in_weekly_zone, weekly_window, daily_window. rewrite E.
    destruct (Z.ltb_spec (daily spec) a); [|reflexivity].
    apply Z.leb_gt. lia. }
  repeat split.
  - unfold monthly_window. lia.
  - now apply M.
  - intros L. unfold in_yearly_zone, monthly_window. apply Z.ltb_lt. lia.
  - intros now snaps. apply empty_zone. now apply M.
  - unfold weekly_window, daily_window. lia.
  - now apply W.
  - intros now snaps. apply empty_zone. now apply W.
  - intros E. unfold in_daily_zone, daily_window. now rewrite E.
Qed.

Lemma zero_count_zones_witness :
  let spec := mkRetentionSpec 2 1 0 0 "snappy" in
  monthly_window spec = weekly_window spec
  /\ in_monthly_zone spec 9 = false
  /\ in_yearly_zone spec 10 = true.
Proof.
  cbv zeta.
  destruct (zero_count_zones (mkRetentionSpec 2 1 0 0 "snappy") 10)
    as (M & _).
  destruct (M eq_refl) as (W & _ & Y & _).
  destruct (zero_count_zones (mkRetentionSpec 2 1 0 0 "snappy") 9)
    as (M' & _).
  destruct (M' eq_refl) as (_ & Z & _).
  split; [exact W|]. split; [exact Z|]. apply Y. cbn. lia.
Defined.

(** ** Snapshots from the future *)

Lemma future_age_negative (ts now : datetime) :
  valid_datetime now = true -> valid_datetime ts = true ->
  datetime_ltb now ts = true -> age_days ts now < 0.
Proof.
  intros Vn Vt L. unfold age_days. rewrite CalendarFacts.days_of_sub.
  unfold datetime_ltb in L.
  destruct (datetime_cmp now ts) eqn:C; try discriminate.
  pose proof (CalendarFacts.stamp_lt now ts Vn Vt C).
  apply Z.div_lt_upper_bound; lia.
Qed.

(** C10, amended.  A snapshot whose timestamp is strictly later than [now]
    has a negative age in days; for a non-negative daily count it satisfies
    the condition of the daily zone and not that of the weekly zone, it is a
    member of the daily zone, and [group_by_day] files it in the bucket of
    its calendar date.  It satisfies neither the condition of the monthly
    zone nor that of the yearly zone exactly when its age is at most the
    weekly window and at most the monthly window, which holds for
    non-negative weekly and monthly counts: then it is a member of the daily
    zone and of no other. *)
Theorem future_snapshot_is_daily (spec : RetentionSpec) (now : datetime)
    (snaps : list Snapshot) (s : Snapshot) :
  0 <= daily spec ->
  valid_datetime now = true -> valid_datetime (timestamp s) = true ->
  In s snaps -> datetime_ltb now (timestamp s) = true ->
  let age := age_days (timestamp s) now in
  let sorted_snaps := sorted timestamp datetime_ltb snaps in
  age < 0
  /\ in_daily_zone spec age = true
  /\ in_weekly_zone spec age = false
  /\ In s (daily_zone spec now sorted_snaps)
  /\ ~ In s (weekly_zone spec now sorted_snaps)
  /\ (exists group,
        In (Day (date_of (timestamp s)), group)
           (group_by_day (daily_zone spec now sorted_snaps))
        /\ In s group)
  /\ (in_monthly_zone spec age = false /\ in_yearly_zone spec age = false
      <-> age <= weekly_window spec /\ age <= monthly_window spec)
  /\ (0 <= weekly spec -> 0 <= monthly spec ->
      in_monthly_zone spec age = false
      /\ in_yearly_zone spec age = false
      /\ ~ In s (monthly_zone spec now sorted_snaps)
      /\ ~ In s (yearly_zone spec now sorted_snaps)).
Proof.
  intros Hd Vn Vs I L age sorted_snaps.
  assert (A : age < 0) by now apply future_age_negative.
  assert (D : in_daily_zone spec age = true).
  { unfold in_daily_zone, daily_window. apply Z.leb_le. lia. }
  assert (W : in_weekly_zone spec age = false).
  { unfold in_weekly_zone, daily_window.
    apply andb_false_iff. left. apply Z.ltb_ge. lia. }
  assert (Z : In s (daily_zone spec now sorted_snaps)).
  { apply filter_In. split; [|exact D].
    now apply (SortFacts.sorted_In timestamp datetime_ltb). }
  repeat (split; [assumption|]).
  split; [|split; [|split]].
  - intros [_ H]%filter_In. fold age in H. congruence.
  - exact (BucketFacts.group_by_files day_of _ s Z).
  - unfold in_monthly_zone, in_yearly_zone.
    rewrite andb_false_iff, !Z.ltb_ge, Z.leb_gt. lia.
  - intros Hw Hm.
    assert (Mo : in_monthly_zone spec age = false).
    { unfold in_monthly_zone, weekly_window.
      apply andb_false_iff. left. apply Z.ltb_ge. lia. }
    assert (Y : in_yearly_zone spec age = false).
    { unfold in_yearly_zone, monthly_window, weekly_window.
      apply Z.ltb_ge. lia. }
    split; [exact Mo|]. split; [exact Y|]. split.
    + intros [_ H]%filter_In. fold age in H. congruence.
    + intros [_ H]%filter_In. fold age in H. congruence.
Qed.

Definition tomorrow_snapshot : Snapshot :=
  mkSnapshot "tank" "tank@snappy-2024-01-11_08:00:00_weekly" "snappy"
             (mkdatetime 2024 1 11 8 0 0 0) "weekly" 4096.

Lemma future_snapshot_is_daily_witness :
  age_days (timestamp tomorrow_snapshot) noon_10_jan < 0
  /\ In tomorrow_snapshot
        (daily_zone (mkRetentionSpec 2 1 0 0 "snappy") noon_10_jan
           (sorted timestamp datetime_ltb
                   [morning_snapshot; tomorrow_snapshot]))
  /\ ~ In tomorrow_snapshot
         (yearly_zone (mkRetentionSpec 2 1 0 0 "snappy") noon_10_jan
            (sorted timestamp datetime_ltb
                    [morning_snapshot; tomorrow_snapshot])).
Proof.
  pose proof (future_snapshot_is_daily (mkRetentionSpec 2 1 0 0 "snappy")
                noon_10_jan [morning_snapshot; tomorrow_snapshot]
                tomorrow_snapshot) as H.
  cbv zeta in H.
  destruct H as (A & _ & _ & Z & _ & _ & _ & O);
    [cbn; lia|reflexivity|reflexivity|right; now left|reflexivity|].
  destruct O as (_ & _ & _ & Y); [cbn; lia|cbn; lia|].
  split; [exact A|]. split; [exact Z|exact Y].
Defined.

(** C10, counterexample.  [main] takes the counts as [int] reads them, a
    negative one too.  With [daily = 2] and [weekly = -1] the weekly and the
    monthly window end at [-5]: a snapshot of tomorrow, of age [-1], satisfies
    the condition of the daily zone and that of the yearly zone, and is a
    member of both. *)
Lemma future_snapshot_in_yearly_zone :
  let spec := mkRetentionSpec 2 (-1) 0 0 "snappy" in
  let age := age_days (timestamp tomorrow_snapshot) noon_10_jan in
  let snaps :=
    sorted timestamp datetime_ltb [morning_snapshot; tomorrow_snapshot] in
  Cli.int (Cli.VStr "-1") = Ok (-1)
  /\ 0 <= daily spec
  /\ datetime_ltb noon_10_jan (timestamp tomorrow_snapshot) = true
  /\ age = -1
  /\ monthly_window spec = -5
  /\ in_daily_zone spec age = true
  /\ in_yearly_zone spec age = true
  /\ In tomorrow_snapshot (daily_zone spec noon_10_jan snaps)
  /\ In tomorrow_snapshot (yearly_zone spec noon_10_jan snaps).
Proof.
  cbv zeta. repeat split; try reflexivity; try (cbn; lia);
    vm_compute; tauto.
Qed.

(** ** The survivor of a bucket *)

Lemma pick_best_max (group : list Snapshot) (best : Snapshot) :
  pick_best group = Some best ->
  In best group
  /\ forall s, In s group -> best_key_ltb (best_key best) (best_key s) = false.
Proof.
  apply SortFacts.last_sorted_max.
  - apply OrderFacts.best_key_ltb_asym.
  - apply OrderFacts.best_key_ge_trans.
Qed.

Lemma pick_best_permuted_key (group group' : list Snapshot) best best' :
  Permutation group group' ->
  pick_best group = Some best -> pick_best group' = Some best' ->
  best_key best' = best_key best.
Proof.
  intros P E E'.
  destruct (pick_best_max _ _ E) as [I M].
  destruct (pick_best_max _ _ E') as [I' M'].
  apply OrderFacts.best_key_total.
  - apply M'. now apply (Permutation_in _ P).
  - apply M. now apply (Permutation_in _ (Permutation_sym P)).
Qed.

Definition twin_daily : Snapshot :=
  mkSnapshot "tank" "tank@snappy-2024-01-01_00:00:00_daily" "snappy"
             (mkdatetime 2024 1 1 0 0 0 0) "daily" 0.

Definition twin_weekly : Snapshot :=
  mkSnapshot "tank" "tank@snappy-2024-01-01_00:00:00_weekly" "snappy"
             (mkdatetime 2024 1 1 0 0 0 0) "weekly" 0.

Definition twins_listing : string :=
  ("tank@snappy-2024-01-01_00:00:00_daily" ++ String TAB "0" ++ String LF ""
   ++ "tank@snappy-2024-01-01_00:00:00_weekly" ++ String TAB "0"
   ++ String LF "")%string.

(** C5, counterexample.  Two snapshots of the same timestamp and the same
    [used], one tagged daily and one weekly, as [list_snapshots] reads them
    from a listing: [pick_best] returns the one listed last, so it is not
    invariant under reordering. *)
Lemma pick_best_depends_on_order :
  snd (list_snapshots (example_runtime twins_listing) "tank" "snappy" [])
  = Ok [twin_daily; twin_weekly]
  /\ Permutation [twin_daily; twin_weekly] [twin_weekly; twin_daily]
  /\ pick_best [twin_daily; twin_weekly] = Some twin_weekly
  /\ pick_best [twin_weekly; twin_daily] = Some twin_daily
  /\ String.eqb (full_name twin_daily) (full_name twin_weekly) = false.
Proof.
  split; [reflexivity|]. split; [apply perm_swap|].
  repeat split; reflexivity.
Qed.

(** C5, amended.  On a non-empty group [pick_best] returns a member of the
    group whose key [(used, timestamp)] no member exceeds in the
    lexicographic order; among the members of equal [used] none has a later
    timestamp.  The key of the result is the same for every reordering of
    the group, and so is the result when no two different members share both
    [used] and [timestamp]; the result is the member that no earlier member
    exceeds and that exceeds every later member, so among the members of the
    maximal key it is the one listed last. *)
Theorem pick_best_maximal (group : list Snapshot) :
  group <> [] ->
  exists best,
    pick_best group = Some best
    /\ In best group
    /\ (forall s, In s group ->
          best_key_ltb (best_key best) (best_key s) = false)
    /\ (forall s, In s group -> used s = used best ->
          datetime_ltb (timestamp best) (timestamp s) = false)
    /\ (forall group', Permutation group group' ->
          exists best', pick_best group' = Some best'
                        /\ best_key best' = best_key best)
    /\ ((forall a b, In a group -> In b group ->
           best_key a = best_key b -> a = b) ->
        forall group', Permutation group group' ->
          pick_best group' = Some best)
    /\ (forall before x after,
          group = before ++ x :: after ->
          (forall s, In s before ->
             best_key_ltb (best_key x) (best_key s) = false) ->
          (forall s, In s after ->
             best_key_ltb (best_key s) (best_key x) = true) ->
          best = x).
Proof.
  intros N.
  destruct (PlanFacts.pick_best_some group N) as (best & E & I).
  destruct (pick_best_max _ _ E) as [_ M].
  assert (P' : forall group', Permutation group group' ->
                 exists best', pick_best group' = Some best'
                               /\ In best' group
                               /\ best_key best' = best_key best).
  { intros group' P.
    assert (N' : group' <> []).
    { intros ->. apply Permutation_sym, Permutation_nil in P. contradiction. }
    destruct (PlanFacts.pick_best_some group' N') as (best' & E' & I').
    exists best'. split; [exact E'|]. split.
    - now apply (Permutation_in _ (Permutation_sym P)).
    - now apply (pick_best_permuted_key group group'). }
  exists best. repeat split; try assumption.
  - intros s Hs U. specialize (M s Hs).
    unfold best_key_ltb, best_key in M. cbn [fst snd] in M.
    rewrite <- U, Z.eqb_refl in M. exact M.
  - intros group' P. destruct (P' group' P) as (best' & E' & _ & K).
    now exists best'.
  - intros Inj group' P. destruct (P' group' P) as (best' & E' & I' & K).
    rewrite E'. f_equal. now apply Inj.
  - intros before x after -> B A.
    unfold pick_best in E.
    rewrite (SortFacts.last_sorted_split best_key best_key_ltb _ _ x B A) in E.
    now injection E.
Qed.

Lemma pick_best_maximal_witness :
  exists best, pick_best [morning_snapshot; twin_daily] = Some best
               /\ In best [morning_snapshot; twin_daily].
Proof.
  destruct (pick_best_maximal [morning_snapshot; twin_daily])
    as (best & E & I & _); [discriminate|].
  exists best. now split.
Defined.

(** ** Names

    A timestamp written by [strftime] is read back by [strptime], and a name
    built from it matches the pattern of [list_snapshots]. *)

Lemma digit_cases (d : Z) :
  let m := d mod 10 in
  m = 0 \/ m = 1 \/ m = 2 \/ m = 3 \/ m = 4 \/ m = 5 \/ m = 6 \/ m = 7
  \/ m = 8 \/ m = 9.
Proof. cbv zeta. pose proof (Z.mod_pos_bound d 10). lia. Qed.

Lemma digit_char_is_digit (d : Z) : is_digit (digit_char d) = true.
Proof.
  unfold digit_char.
  destruct (digit_cases d) as [E|[E|[E|[E|[E|[E|[E|[E|[E|E]]]]]]]]];
    rewrite E; reflexivity.
Qed.

Lemma digit_val_char (d : Z) : digit_val (digit_char d) = d mod 10.
Proof.
  unfold digit_char.
  destruct (digit_cases d) as [E|[E|[E|[E|[E|[E|[E|[E|[E|E]]]]]]]]];
    rewrite E; reflexivity.
Qed.

(** A check on every number of a range. *)
Lemma range_check (P : Z -> bool) (lo : Z) (n : nat) :
  forallb P (map (fun i => lo + Z.of_nat i) (seq 0 n)) = true ->
  forall x, lo <= x < lo + Z.of_nat n -> P x = true.
Proof.
  intros H x B. rewrite forallb_forall in H. apply H.
  apply in_map_iff. exists (Z.to_nat (x - lo)). split; [lia|].
  apply in_seq. lia.
Qed.

Definition two_of (two : ascii -> ascii -> bool) (n : Z) : bool :=
  two (digit_char (n / 10)) (digit_char n).

Lemma directive_pad2 {R : Type} (two : ascii -> ascii -> bool)
    (one : ascii -> bool) (n : Z) (rest : string)
    (k : Z -> string -> option R) (r : R) :
  0 <= n <= 99 -> two_of two n = true -> k n rest = Some r ->
  directive two one (pad2 n ++ rest) k = Some r.
Proof.
  intros B T K. unfold directive, pad2. cbn [append].
  unfold two_of in T. rewrite T, digit_char_is_digit, !digit_val_char.
  replace (10 * ((n / 10) mod 10) + n mod 10) with n
    by (Z.div_mod_to_equations; lia).
  now rewrite K.
Qed.

Lemma four_digits_pad4 {R : Type} (y : Z) (rest : string)
    (k : Z -> string -> option R) :
  0 <= y <= 9999 -> four_digits (pad4 y ++ rest) k = k y rest.
Proof.
  intros B. unfold four_digits, pad4, pad2. cbn [append].
  rewrite !digit_char_is_digit, !digit_val_char. cbn [andb].
  f_equal. Z.div_mod_to_equations. lia.
Qed.


Lemma days_in_month_bound (y m : Z) : 1 <= m <= 12 -> days_in_month y m <= 31.
Proof.
  intros H. unfold days_in_month.
  CalendarFacts.each_month m H; destruct (is_leap y);
    CalendarFacts.read_tables; lia.
Qed.

Ltac in_range P lo n :=
  apply (range_check P lo n); [vm_compute; reflexivity|lia].

Lemma strptime_match_strftime (t : datetime) :
  valid_datetime t = true ->
  strptime_match (strftime t)
  = Some ([year t; month t; day t; hour t; minute t; second t], "").
Proof.
  intros V.
  apply CalendarFacts.valid_datetime_bounds in V.
  destruct V as (D & Hh & Hm & Hs & _).
  pose proof (CalendarFacts.valid_date_bounds _ _ _ D) as (By & Bm & Bd).
  pose proof (days_in_month_bound (year t) (month t) Bm) as Bd'.
  unfold strptime_match, strftime, MINYEAR, MAXYEAR in *.
  rewrite four_digits_pad4 by lia. cbn [literal append Ascii.eqb Bool.eqb].
  apply directive_pad2;
    [lia|in_range (two_of two_m) 1 12%nat|].
  cbn [literal append Ascii.eqb Bool.eqb].
  apply directive_pad2;
    [lia|in_range (two_of two_d) 1 31%nat|].
  cbn [literal append Ascii.eqb Bool.eqb].
  apply directive_pad2;
    [lia|in_range (two_of two_H) 0 24%nat|].
  cbn [literal append Ascii.eqb Bool.eqb].
  apply directive_pad2;
    [lia|in_range (two_of two_M) 0 60%nat|].
  cbn [literal append Ascii.eqb Bool.eqb].
  change (pad2 (second t)) with (pad2 (second t) ++ "")%string.
  apply directive_pad2;
    [lia|in_range (two_of two_S) 0 60%nat|].
  reflexivity.
Qed.

Lemma strptime_strftime (t : datetime) :
  valid_datetime t = true ->
  strptime (strftime t)
  = Some (mkdatetime (year t) (month t) (day t) (hour t) (minute t)
                     (second t) 0).
Proof.
  intros V. unfold strptime. rewrite (strptime_match_strftime t V).
  unfold valid_datetime in V. apply andb_true_iff in V. destruct V as [D T].
  rewrite D. 
  apply CalendarFacts.valid_time_bounds in T.
  assert (T' : valid_time (hour t) (minute t) (second t) 0 = true).
  { unfold valid_time. rewrite !andb_true_iff, !Z.leb_le. lia. }
  now rewrite T'.
Qed.

Lemma strip_prefix_app (p s : string) : strip_prefix p (p ++ s) = Some s.
Proof.
  induction p as [|c p IH]; cbn; [now destruct s|].
  now rewrite Ascii.eqb_refl.
Qed.

Lemma append_assoc3 (a b c : string) :
  ((a ++ b) ++ c = a ++ b ++ c)%string.
Proof. induction a as [|x a IH]; cbn; [reflexivity|]. now rewrite IH. Qed.

Lemma regex_match_strftime (prefix tier : string) (t : datetime) :
  In tier TIERS ->
  regex_match prefix (prefix ++ "-" ++ strftime t ++ "_" ++ tier)
  = Some (strftime t, tier).
Proof.
  intros I. unfold regex_match.
  rewrite <- append_assoc3, strip_prefix_app.
  unfold strftime, pad4, pad2, stamp_shape. cbn [append match_shape].
  rewrite !digit_char_is_digit.
  cbn [is_char Ascii.eqb Bool.eqb].
  destruct I as [<-|[<-|[<-|[<-|[]]]]]; reflexivity.
Qed.

Lemma strptime_valid (s : string) (t : datetime) :
  strptime s = Some t -> valid_datetime t = true.
Proof.
  unfold strptime.
  destruct (strptime_match s)
    as [[[|yr [|mo [|dy [|hr [|mi [|sc [|x l]]]]]]] [|c r]]|];
    try discriminate.
  destruct (valid_date yr mo dy && valid_time hr mi sc 0) eqn:V;
    [|discriminate].
  now intros [= <-].
Qed.

(** ** The daily creator *)

(** The decision of the creator in the words of its description: two
    checks on the latest snapshot, in this order. *)
Inductive verdict : Type :=
| SkipCreatedToday
| SkipNoChange
| CreateDaily.

Definition creator_verdict (snaps : list Snapshot) (now : datetime)
  : verdict :=
  match last_item snaps with
  | None => CreateDaily
  | Some latest =>
      if String.eqb (tier latest) "daily"
         && date_eqb (date_of (timestamp latest)) (date_of now)
      then SkipCreatedToday
      else if used latest =? 0 then SkipNoChange
      else CreateDaily
  end.

(** C6.  [create_daily_snapshot] skips, creating nothing, when the last
    snapshot of the list is tagged daily and is of today; otherwise it
    skips, creating nothing, when the last snapshot has [used = 0];
    otherwise, and when the list is empty, it creates
    [dataset@prefix-<now>_daily]: it prints the line of the operation and, in
    a real run, runs [zfs snapshot] on that name.  The name matches the
    pattern of [list_snapshots] with tier daily, and its timestamp is read
    back as [now] to the second. *)
Theorem create_daily_decision (rt : runtime) (dataset prefix : string)
    (snaps : list Snapshot) (dry : bool) (now : datetime) (h : trace) :
  let run := create_daily_snapshot rt dataset prefix snaps dry now h in
  let name :=
    (dataset ++ "@" ++ prefix ++ "-" ++ strftime now ++ "_daily")%string in
  (snaps = [] -> creator_verdict snaps now = CreateDaily)
  /\ match creator_verdict snaps now with
     | SkipCreatedToday =>
         fst run = said rt 1 SkippedToday /\ snd run = Ok tt
         /\ announced (fst run) = [] /\ issued (fst run) = []
     | SkipNoChange =>
         fst run = said rt 1 SkippedUnchanged /\ snd run = Ok tt
         /\ announced (fst run) = [] /\ issued (fst run) = []
     | CreateDaily =>
         fst run = op_events dry (Create name)
         /\ announced (fst run) = [Create name]
         /\ issued (fst run)
            = (if dry then [] else [["zfs"; "snapshot"; name]])
     end
  /\ (valid_datetime now = true -> 1000 <= year now ->
      regex_match prefix (prefix ++ "-" ++ strftime now ++ "_daily")%string
      = Some (strftime now, "daily")
      /\ strptime (strftime now)
         = Some (mkdatetime (year now) (month now) (day now) (hour now)
                            (minute now) (second now) 0)).
Proof.
  intros run name. split; [now intros ->|].
  split;
    [|intros V _; split;
      [apply regex_match_strftime; now left|now apply strptime_strftime]].
  subst run. unfold creator_verdict, create_daily_snapshot.
  assert (C : forall (m : M unit),
            m = zfs_create rt name dry ->
            fst (m h) = op_events dry (Create name)
            /\ announced (fst (m h)) = [Create name]
            /\ issued (fst (m h))
               = (if dry then [] else [["zfs"; "snapshot"; name]])).
  { intros m ->. unfold zfs_create. now destruct dry. }
  assert (S : forall n,
            fst (v1 rt n h) = said rt 1 n /\ snd (v1 rt n h) = Ok tt
            /\ announced (fst (v1 rt n h)) = []
            /\ issued (fst (v1 rt n h)) = []).
  { intros n. unfold v1.
    rewrite (EffectFacts.emits_say rt 1 n h). cbn [fst snd].
    repeat split.
    - apply EffectFacts.messages_announced, EffectFacts.said_messages.
    - apply EffectFacts.messages_issued, EffectFacts.said_messages. }
  destruct (last_item snaps) as [latest|]; [|now apply C].
  rewrite (andb_comm (String.eqb _ _)).
  destruct (date_eqb _ _ && String.eqb _ _); [apply S|].
  destruct (used latest =? 0); [apply S|now apply C].
Qed.

(** ** The listing *)

(** What one line of the listing leads to: nothing, one more snapshot, or
    an exception. *)
Definition line_result (prefix line : string) : outcome (option Snapshot) :=
  match split_char TAB line with
  | [full; used] =>
      if negb (contains_char "@" full) then Ok None
      else
        match split_once "@" full with
        | None => Raise (ValueError "not enough values to unpack")
        | Some (ds, snapname) =>
            match regex_match prefix snapname with
            | None => Ok None
            | Some (ts_str, tier) =>
                match strptime ts_str with
                | None =>
                    Raise (ValueError ("Unsupported timestamp: " ++ ts_str))
                | Some ts =>
                    match int_of_str used with
                    | None => Raise (ValueError "invalid literal for int()")
                    | Some u => Ok (Some (mkSnapshot ds full prefix ts tier u))
                    end
                end
            end
        end
  | _ => Raise (ValueError "wrong number of values to unpack")
  end.

Fixpoint scan_outcome (prefix : string) (lines : list string)
    (snaps : list Snapshot) : outcome (list Snapshot) :=
  match lines with
  | [] => Ok snaps
  | line :: rest =>
      match line_result prefix line with
      | Ok None => scan_outcome prefix rest snaps
      | Ok (Some snap) => scan_outcome prefix rest (snaps ++ [snap])
      | Raise e => Raise e
      end
  end.

Lemma scan_lines_outcome (rt : runtime) (prefix : string)
    (lines : list string) (snaps : list Snapshot) (h : trace) :
  snd (scan_lines rt prefix lines snaps h) = scan_outcome prefix lines snaps.
Proof.
  revert snaps h.
  induction lines as [|line rest IH]; intros snaps h; [reflexivity|].
  cbn [scan_lines scan_outcome]. unfold line_result.
  destruct (split_char TAB line) as [|full [|used [|x l]]]; try reflexivity.
  destruct (negb (contains_char "@" full)); [apply IH|].
  rewrite EffectFacts.snd_bind.
  destruct (split_once "@" full) as [[ds snapname]|]; [|reflexivity].
  cbn [of_option ret snd fst].
  destruct (regex_match prefix snapname) as [[ts_str tier]|].
  - rewrite EffectFacts.snd_bind. unfold parse_timestamp.
    destruct (strptime ts_str) as [ts|]; [|reflexivity].
    cbn [of_option ret snd fst]. rewrite EffectFacts.snd_bind.
    destruct (int_of_str used) as [u|]; [|reflexivity].
    cbn [of_option ret snd fst]. apply IH.
  - rewrite EffectFacts.snd_bind. unfold v3.
    rewrite (EffectFacts.emits_say rt 3 (IgnoringForeign full)).
    cbn [snd fst]. apply IH.
Qed.

Lemma scan_outcome_app (prefix : string) (pre rest : list string)
    (snaps : list Snapshot) :
  scan_outcome prefix (pre ++ rest) snaps
  = match scan_outcome prefix pre snaps with
    | Ok snaps' => scan_outcome prefix rest snaps'
    | Raise e => Raise e
    end.
Proof.
  revert snaps. induction pre as [|l pre IH]; intros snaps; [reflexivity|].
  cbn [app scan_outcome].
  destruct (line_result prefix l) as [[snap|]|e]; auto.
Qed.

(** A line of two fields whose name has no [@], or whose snapshot name the
    pattern of [list_snapshots] does not match. *)
Definition foreign (prefix line : string) : Prop :=
  exists full used,
    split_char TAB line = [full; used]
    /\ (contains_char "@" full = false
        \/ exists ds snapname,
             split_once "@" full = Some (ds, snapname)
             /\ regex_match prefix snapname = None).

(** A line of two fields whose snapshot name the pattern matches, with
    digits that are not a date and a time. *)
Definition bad_timestamp (prefix line ts_str : string) : Prop :=
  exists full used ds snapname tier,
    split_char TAB line = [full; used]
    /\ split_once "@" full = Some (ds, snapname)
    /\ regex_match prefix snapname = Some (ts_str, tier)
    /\ strptime ts_str = None.

Lemma split_once_contains (c : ascii) (s a b : string) :
  split_once c s = Some (a, b) -> contains_char c s = true.
Proof.
  revert a. induction s as [|x s IH]; intros a; cbn; [discriminate|].
  destruct (Ascii.eqb x c); [reflexivity|].
  destruct (split_once c s) as [[a' b']|]; [|discriminate].
  intros E. injection E as <- <-. cbn. now apply (IH a').
Qed.

Lemma foreign_result (prefix line : string) :
  foreign prefix line -> line_result prefix line = Ok None.
Proof.
  intros (full & used & S & [C|(ds & sn & O & R)]); unfold line_result;
    rewrite S.
  - now rewrite C.
  - rewrite (split_once_contains _ _ _ _ O), O, R. reflexivity.
Qed.

Lemma bad_timestamp_result (prefix line ts_str : string) :
  bad_timestamp prefix line ts_str ->
  line_result prefix line
  = Raise (ValueError ("Unsupported timestamp: " ++ ts_str)).
Proof.
  intros (full & used & ds & sn & tier & S & O & R & P).
  unfold line_result.
  now rewrite S, (split_once_contains _ _ _ _ O), O, R, P.
Qed.

Definition month_13_listing : string :=
  ("tank@snappy-2024-13-01_00:00:00_daily" ++ String TAB "0"
   ++ String LF "")%string.

Definition second_61_listing : string :=
  ("tank@snappy-2024-01-01_00:00:61_daily" ++ String TAB "0"
   ++ String LF "")%string.

(** C3, counterexample.  A name with month 13, and one with second 61, fit
    the pattern of [list_snapshots]; on a listing with such a name
    [list_snapshots] raises [ValueError]. *)
Lemma list_snapshots_raises_on_bad_timestamp :
  regex_match "snappy" "snappy-2024-13-01_00:00:00_daily"
  = Some ("2024-13-01_00:00:00", "daily")
  /\ snd (list_snapshots (example_runtime month_13_listing) "tank" "snappy" [])
     = Raise (ValueError "Unsupported timestamp: 2024-13-01_00:00:00")
  /\ regex_match "snappy" "snappy-2024-01-01_00:00:61_daily"
     = Some ("2024-01-01_00:00:61", "daily")
  /\ snd (list_snapshots (example_runtime second_61_listing) "tank" "snappy" [])
     = Raise (ValueError "Unsupported timestamp: 2024-01-01_00:00:61").
Proof. repeat split; reflexivity. Qed.

Lemma list_snapshots_outcome (rt : runtime) (dataset prefix raw : string)
    (h : trace) :
  output_of rt (h ++ said rt 3 (RunningZfsList (zfs_list_cmd dataset)))
            (zfs_list_cmd dataset) = Some raw ->
  snd (list_snapshots rt dataset prefix h)
  = scan_outcome prefix (splitlines raw) [].
Proof.
  intros O. unfold list_snapshots. cbv zeta.
  rewrite EffectFacts.snd_bind. unfold v3.
  rewrite (EffectFacts.emits_say rt 3 _ h). cbn [fst snd].
  rewrite EffectFacts.snd_bind. unfold check_output at 1 2. rewrite O.
  cbn [fst snd].
  rewrite EffectFacts.snd_bind, scan_lines_outcome.
  destruct (scan_outcome prefix (splitlines raw) []); [|reflexivity].
  rewrite EffectFacts.snd_bind. unfold v2.
  now rewrite (EffectFacts.emits_say rt 2 _ _).
Qed.

(** C3, amended.  In the loop of [list_snapshots] over the lines of the
    listing, a line whose name has no [@] or does not match the pattern is
    skipped: the result is that of the listing without the line, so no error
    is raised on account of it.  A line whose name matches the pattern with
    digits that are not a valid date and time is not skipped: unless an
    earlier line has raised already, [ValueError("Unsupported timestamp:
    ...")] is raised there.  Both hold of the loop and of [list_snapshots]
    on a listing the command has returned. *)
Theorem foreign_lines_skipped (rt : runtime) (prefix : string)
    (pre post : list string) (line : string) (snaps : list Snapshot)
    (h : trace) :
  let before := snd (scan_lines rt prefix pre snaps h) in
  let unsupported ts_str :=
    ValueError ("Unsupported timestamp: " ++ ts_str) in
  (foreign prefix line ->
     snd (scan_lines rt prefix (pre ++ line :: post) snaps h)
     = snd (scan_lines rt prefix (pre ++ post) snaps h))
  /\ (forall ts_str, bad_timestamp prefix line ts_str ->
        snd (scan_lines rt prefix (pre ++ line :: post) snaps h)
        = match before with
          | Ok _ => Raise (unsupported ts_str)
          | Raise e => Raise e
          end)
  /\ (forall dataset raw,
        output_of rt (h ++ said rt 3 (RunningZfsList (zfs_list_cmd dataset)))
                  (zfs_list_cmd dataset) = Some raw ->
        splitlines raw = pre ++ line :: post ->
        (foreign prefix line ->
           snd (list_snapshots rt dataset prefix h)
           = snd (scan_lines rt prefix (pre ++ post) [] h))
        /\ (forall ts_str, bad_timestamp prefix line ts_str ->
              snd (list_snapshots rt dataset prefix h)
              = match snd (scan_lines rt prefix pre [] h) with
                | Ok _ => Raise (unsupported ts_str)
                | Raise e => Raise e
                end)).
Proof.
  intros before unsupported. subst before unsupported.
  assert (F : forall acc, foreign prefix line ->
                scan_outcome prefix (pre ++ line :: post) acc
                = scan_outcome prefix (pre ++ post) acc).
  { intros acc F. rewrite !scan_outcome_app.
    destruct (scan_outcome prefix pre acc); [|reflexivity].
    cbn [scan_outcome]. now rewrite (foreign_result _ _ F). }
  assert (B : forall acc ts_str, bad_timestamp prefix line ts_str ->
                scan_outcome prefix (pre ++ line :: post) acc
                = match scan_outcome prefix pre acc with
                  | Ok _ =>
                      Raise (ValueError ("Unsupported timestamp: " ++ ts_str))
                  | Raise e => Raise e
                  end).
  { intros acc ts_str B. rewrite scan_outcome_app.
    destruct (scan_outcome prefix pre acc); [|reflexivity].
    cbn [scan_outcome]. now rewrite (bad_timestamp_result _ _ _ B). }
  rewrite !scan_lines_outcome.
  split; [apply F|]. split; [apply B|].
  intros dataset raw O S.
  rewrite (list_snapshots_outcome rt dataset prefix raw h O), S.
  split; [apply F|apply B].
Qed.

Definition mixed_listing : list string :=
  [("tank@manual" ++ String TAB "0")%string;
   ("tank@snappy-2024-01-10_08:00:00_daily" ++ String TAB "4096")%string].

Lemma foreign_lines_skipped_witness :
  snd (scan_lines (example_runtime "") "snappy" mixed_listing [] [])
  = snd (scan_lines (example_runtime "") "snappy" (tl mixed_listing) [] [])
  /\ snd (scan_lines (example_runtime "") "snappy" mixed_listing [] [])
     = Ok [morning_snapshot].
Proof.
  split; [|reflexivity].
  apply (foreign_lines_skipped (example_runtime "") "snappy" []
           (tl mixed_listing) (hd "" mixed_listing) [] []).
  exists "tank@manual", "0". split; [reflexivity|].
  right. exists "tank", "manual". split; reflexivity.
Defined.

(** ** Promotion *)

Definition app_daily_listing : string :=
  ("tank/app_daily@snappy-2024-01-01_00:00:00_daily" ++ String TAB "8192"
   ++ String LF "")%string.

Definition app_daily_snapshot : Snapshot :=
  mkSnapshot "tank/app_daily"
             "tank/app_daily@snappy-2024-01-01_00:00:00_daily" "snappy"
             (mkdatetime 2024 1 1 0 0 0 0) "daily" 8192.

Definition pre_daily_snapshot : Snapshot :=
  mkSnapshot "tank" "tank@pre_daily-2024-01-01_00:00:00_daily" "pre_daily"
             (mkdatetime 2024 1 1 0 0 0 0) "daily" 8192.

Definition noon_6_jan : datetime := mkdatetime 2024 1 6 12 0 0 123.

(** C2, the code at the failing input.  The dataset [tank/app_daily] has one
    snapshot, tagged daily and five days old, which falls into the weekly
    zone: the promotion replaces every [_daily] of the full name, so the new
    name is on another dataset, and a real run asks ZFS for that rename.
    With the prefix [pre_daily] the new name has another prefix. *)
Theorem promotion_rewrites_dataset :
  let rt := example_runtime app_daily_listing in
  let spec := mkRetentionSpec 2 1 0 0 "snappy" in
  snd (list_snapshots rt "tank/app_daily" "snappy" [])
  = Ok [app_daily_snapshot]
  /\ age_days (timestamp app_daily_snapshot) noon_6_jan = 5
  /\ renames (planned rt [app_daily_snapshot] spec noon_6_jan)
     = [("tank/app_daily@snappy-2024-01-01_00:00:00_daily",
         "tank/app_weekly@snappy-2024-01-01_00:00:00_weekly")]
  /\ issued (fst (tiered_retention rt [app_daily_snapshot] spec false
                    noon_6_jan []))
     = [["zfs"; "rename";
         "tank/app_daily@snappy-2024-01-01_00:00:00_daily";
         "tank/app_weekly@snappy-2024-01-01_00:00:00_weekly"]]
  /\ renames (planned rt [pre_daily_snapshot]
                (mkRetentionSpec 2 1 0 0 "pre_daily") noon_6_jan)
     = [("tank@pre_daily-2024-01-01_00:00:00_daily",
         "tank@pre_weekly-2024-01-01_00:00:00_weekly")].
Proof. repeat split; vm_compute; reflexivity. Qed.

(** ** The execution phase *)

(** A rename the first loop of the execution lets through. *)
Definition guarded_rename (p : plan) (o : op) : Prop :=
  match o with
  | Rename old new =>
      In (old, new) (renames p) /\ old <> new /\ ~ In old (deletes p)
  | _ => False
  end.

(** A destroy the second loop of the execution lets through. *)
Definition guarded_destroy (p : plan) (o : op) : Prop :=
  match o with
  | Destroy full => In full (deletes p) /\ ~ In full (keep p)
  | _ => False
  end.

(** The name an operation takes away is the name of a listed snapshot. *)
Definition acts_on_listed (snaps : list Snapshot) (o : op) : Prop :=
  match o with
  | Rename old _ => PlanFacts.listed snaps old
  | Destroy full => PlanFacts.listed snaps full
  | Create _ => False
  end.

Section Execution.
Variable rt : runtime.
Variables (snaps : list Snapshot) (spec : RetentionSpec) (now : datetime).

Lemma promotion_blocks_guarded (p : plan) (dry : bool) :
  Forall (fun b => Forall (guarded_rename p) (announced b))
         (promotion_blocks rt p dry).
Proof.
  unfold promotion_blocks. constructor.
  - rewrite EffectFacts.messages_announced; [constructor|].
    apply EffectFacts.said_messages.
  - apply Forall_forall. intros b ([old new] & <- & I)%in_map_iff.
    rewrite RunFacts.rename_block_announces.
    unfold rename_guard. cbn [fst snd].
    destruct (String.eqb_spec old new) as [|N]; cbn [negb andb];
      [constructor|].
    destruct (mem old (deletes p)) eqn:Mm; cbn [negb]; constructor;
      [|constructor].
    cbn. repeat split; [exact I|exact N|].
    intros D. apply PlanFacts.mem_In in D. congruence.
Qed.

Lemma deletion_blocks_guarded (p : plan) (dry : bool) :
  Forall (fun b => Forall (guarded_destroy p) (announced b))
         (deletion_blocks rt p dry).
Proof.
  unfold deletion_blocks. constructor; [|apply Forall_app; split].
  - rewrite EffectFacts.messages_announced; [constructor|].
    apply EffectFacts.said_messages.
  - apply Forall_forall. intros b (full & <- & I)%in_map_iff.
    rewrite RunFacts.destroy_block_announces. unfold destroy_guard.
    destruct (mem full (keep p)) eqn:Mm; cbn [negb]; constructor;
      [|constructor].
    cbn. split.
    + exact (Permutation_in _ (iter_set_perm rt (deletes p)) I).
    + intros K. apply PlanFacts.mem_In in K. congruence.
  - repeat constructor.
    rewrite EffectFacts.messages_announced; [constructor|].
    apply EffectFacts.said_messages.
Qed.

Lemma retention_blocks_split (dry : bool) :
  exists first second,
    retention_blocks rt snaps spec dry now = first ++ second
    /\ Forall (fun b => Forall (guarded_rename (planned rt snaps spec now))
                               (announced b)) first
    /\ Forall (fun b => Forall (guarded_destroy (planned rt snaps spec now))
                               (announced b)) second.
Proof.
  unfold retention_blocks. destruct snaps as [|s l] eqn:E.
  - exists [said rt 2 NoSnapshots], []. repeat split; repeat constructor.
    rewrite EffectFacts.messages_announced; [constructor|].
    apply EffectFacts.said_messages.
  - rewrite <- E.
    exists (plan_trace rt snaps spec now
            :: promotion_blocks rt (planned rt snaps spec now) dry),
           (deletion_blocks rt (planned rt snaps spec now) dry).
    split; [reflexivity|]. split.
    + constructor; [|apply promotion_blocks_guarded].
      rewrite EffectFacts.messages_announced; [constructor|].
      apply RunFacts.plan_trace_messages.
    + apply deletion_blocks_guarded.
Qed.

(** C1.  The trace of [tiered_retention] splits in two parts.  In the first
    the only operations are renames, each a pair [(old, new)] of [renames]
    with [old] different from [new] and [old] not in [deletes]; in the second
    the only operations are destroys, each of a name of [deletes] that is not
    in [keep].  In a real run the commands are those of these operations, in
    that order; a dry run has none.  So every rename comes before every
    destroy, no name of [keep] is destroyed and no source of a rename is in
    [deletes]. *)
Theorem renames_then_guarded_deletes (dry : bool) (h : trace) :
  let t := fst (tiered_retention rt snaps spec dry now h) in
  let p := planned rt snaps spec now in
  exists t1 t2,
    t = t1 ++ t2
    /\ Forall (guarded_rename p) (announced t1)
    /\ Forall (guarded_destroy p) (announced t2)
    /\ issued t1 = (if dry then [] else map command (announced t1))
    /\ issued t2 = (if dry then [] else map command (announced t2))
    /\ Forall (fun o => match o with
                        | Destroy full => ~ In full (keep p)
                        | Rename old _ => ~ In old (deletes p)
                        | Create _ => False
                        end) (announced t).
Proof.
  intros t p. subst t.
  destruct (RunFacts.runs_tiered_retention rt snaps spec dry now h)
    as (k & -> & _).
  destruct (retention_blocks_split dry) as (first & second & E & F1 & F2).
  pose proof (RunFacts.paired_retention_blocks rt snaps spec dry now) as P.
  rewrite E in P |- *. apply Forall_app in P. destruct P as [P1 P2].
  rewrite firstn_app, List.concat_app.
  set (k2 := (k - List.length first)%nat).
  exists (List.concat (firstn k first)), (List.concat (firstn k2 second)).
  assert (G1 := EffectFacts.announced_blocks _ _ k F1).
  assert (G2 := EffectFacts.announced_blocks _ _ k2 F2).
  split; [reflexivity|]. split; [exact G1|]. split; [exact G2|].
  split; [exact (EffectFacts.paired_blocks dry _ k P1)|].
  split; [exact (EffectFacts.paired_blocks dry _ k2 P2)|].
  rewrite EffectFacts.announced_app. apply Forall_app. split.
  - eapply Forall_impl; [|exact G1].
    intros [full|old new|full]; cbn; tauto.
  - eapply Forall_impl; [|exact G2].
    intros [full|old new|full]; cbn; tauto.
Qed.

Lemma retention_blocks_listed (dry : bool) :
  Forall (fun b => Forall (acts_on_listed snaps) (announced b))
         (retention_blocks rt snaps spec dry now).
Proof.
  destruct (retention_blocks_split dry) as (first & second & -> & F1 & F2).
  destruct (RunFacts.planned_listed rt snaps spec now) as [D R].
  apply Forall_app. split.
  - eapply Forall_impl; [|exact F1]. intros b. apply Forall_impl.
    intros [full|old new|full]; cbn; try tauto.
    intros (I & _). now apply R with new.
  - eapply Forall_impl; [|exact F2]. intros b. apply Forall_impl.
    intros [full|old new|full]; cbn; try tauto.
    intros (I & _). now apply D.
Qed.

(** C9.  Every operation of [tiered_retention] is a destroy of the full
    name of a snapshot of the input list, or a rename whose source is one;
    the commands of a real run are the commands of these operations and a
    dry run has none.  So the name given to [zfs destroy] and the first name
    given to [zfs rename] are always names of the listing. *)
Theorem only_listed_names_touched (dry : bool) (h : trace) :
  let t := fst (tiered_retention rt snaps spec dry now h) in
  Forall (acts_on_listed snaps) (announced t)
  /\ issued t = (if dry then [] else map command (announced t))
  /\ (forall full, In ["zfs"; "destroy"; full] (issued t) ->
        exists s, In s snaps /\ full_name s = full)
  /\ (forall old new, In ["zfs"; "rename"; old; new] (issued t) ->
        exists s, In s snaps /\ full_name s = old).
Proof.
  intros t. subst t.
  destruct (RunFacts.runs_tiered_retention rt snaps spec dry now h)
    as (k & -> & _).
  assert (A := EffectFacts.announced_blocks _ _ k
                 (retention_blocks_listed dry)).
  assert (P := EffectFacts.paired_blocks dry _ k
                 (RunFacts.paired_retention_blocks rt snaps spec dry now)).
  split; [exact A|]. split; [exact P|].
  rewrite P. rewrite Forall_forall in A.
  destruct dry; [split; intros; contradiction|].
  split.
  - intros full ([f|o n|f] & E & I)%in_map_iff; try discriminate.
    injection E as ->. exact (A _ I).
  - intros old new ([f|o n|f] & E & I)%in_map_iff; try discriminate.
    injection E as -> ->. exact (A _ I).
Qed.

End Execution.

(** ** Dry run and real run *)









(** ** The scenarios of the description *)

Definition january (d : Z) (tier : string) (used : Z) : Snapshot :=
  let ts := mkdatetime 2024 1 d 8 0 0 0 in
  mkSnapshot "tank" ("tank@snappy-" ++ strftime ts ++ "_" ++ tier)%string
             "snappy" ts tier used.

(** Snapshots of ages 0, 1, 2, 3 and 9 days, all daily, all of 100 bytes,
    under [daily = 2, weekly = 1]: the three of the daily window stay; those
    of ages 3 and 9 are of one ISO week, the newer is promoted and the older
    deleted. *)
Example scenario_windows :
  let snaps := [january 1 "daily" 100; january 7 "daily" 100;
                january 8 "daily" 100; january 9 "daily" 100;
                january 10 "daily" 100] in
  let spec := mkRetentionSpec 2 1 0 0 "snappy" in
  map (fun s => age_days (timestamp s) noon_10_jan) snaps = [9; 3; 2; 1; 0]
  /\ announced (fst (tiered_retention (example_runtime "") snaps spec true
                       noon_10_jan []))
     = [Rename "tank@snappy-2024-01-07_08:00:00_daily"
               "tank@snappy-2024-01-07_08:00:00_weekly";
        Destroy "tank@snappy-2024-01-01_08:00:00_daily"].
Proof. split; vm_compute; reflexivity. Qed.

(** A bucket of the weekly zone with a daily snapshot and a larger monthly
    one: the monthly one is renamed to weekly, the daily one deleted. *)
Example scenario_promotion :
  let snaps := [january 3 "daily" 100; january 4 "monthly" 200] in
  let spec := mkRetentionSpec 2 1 0 0 "snappy" in
  issued (fst (tiered_retention (example_runtime "") snaps spec false
                 noon_10_jan []))
  = [["zfs"; "rename"; "tank@snappy-2024-01-04_08:00:00_monthly";
      "tank@snappy-2024-01-04_08:00:00_weekly"];
     ["zfs"; "destroy"; "tank@snappy-2024-01-03_08:00:00_daily"]].
Proof. vm_compute. reflexivity. Qed.

(** A daily snapshot of today with [used = 0]: the creator skips. *)
Example scenario_creator_skips :
  create_daily_snapshot (example_runtime "") "tank" "snappy"
    [january 10 "daily" 0] false noon_10_jan []
  = ([], Ok tt).
Proof. reflexivity. Qed.

(* ================================================================== *)
(** * Further properties *)
(* ================================================================== *)

(** ** The dictionaries of buckets *)

Lemma date_eqb_refl (d : date) : date_eqb d d = true.
Proof. unfold date_eqb. now rewrite !Z.eqb_refl. Qed.

Lemma period_eqb_refl (k : period) : period_eqb k k = true.
Proof.
  destruct k; cbn; rewrite ?Z.eqb_refl; auto using date_eqb_refl.
Qed.

Lemma period_eqb_neq (a b : period) : a <> b -> period_eqb a b = false.
Proof.
  intros N. destruct (period_eqb a b) eqn:E; [|reflexivity].
  now apply BucketFacts.period_eqb_eq in E.
Qed.

Lemma group_by_snoc (key : Snapshot -> period) (l : list Snapshot)
    (x : Snapshot) :
  group_by key (l ++ [x]) = setdefault_append (key x) x (group_by key l).
Proof. unfold group_by. now rewrite fold_left_app. Qed.

(** The members of [l] of key [k], in the order of [l]. *)
Definition members (key : Snapshot -> period) (k : period)
    (l : list Snapshot) : list Snapshot :=
  filter (fun s => period_eqb (key s) k) l.

Lemma setdefault_append_keys (k : period) (x : Snapshot) (b : buckets) :
  map fst (setdefault_append k x b)
  = if existsb (period_eqb k) (map fst b) then map fst b
    else map fst b ++ [k].
Proof.
  induction b as [|[k' g] b IH]; cbn; [reflexivity|].
  destruct (period_eqb k k'); cbn; [reflexivity|].
  rewrite IH. now destruct (existsb (period_eqb k) (map fst b)).
Qed.

Lemma existsb_period (k : period) (ks : list period) :
  existsb (period_eqb k) ks = true <-> In k ks.
Proof.
  rewrite existsb_exists. split.
  - intros (k' & I & E). apply BucketFacts.period_eqb_eq in E. now subst.
  - intros I. exists k. split; [exact I|apply period_eqb_refl].
Qed.

Lemma setdefault_append_in (k : period) (x : Snapshot) (b : buckets) k' g' :
  NoDup (map fst b) ->
  In (k', g') (setdefault_append k x b) ->
  (k' <> k /\ In (k', g') b)
  \/ (k' = k
      /\ ((exists g, In (k, g) b /\ g' = g ++ [x])
          \/ (~ In k (map fst b) /\ g' = [x]))).
Proof.
  induction b as [|[k0 g0] b IH]; intros N; cbn.
  - intros [E|[]]. injection E as <- <-. right. split; [reflexivity|].
    right. now split.
  - inversion N as [|? ? N0 N1]; subst.
    destruct (period_eqb k k0) eqn:E.
    + apply BucketFacts.period_eqb_eq in E. subst k0.
      intros [H|H].
      * injection H as <- <-. right. split; [reflexivity|].
        left. exists g0. split; [now left|reflexivity].
      * left. split; [|now right].
        intros ->. apply N0. now apply (in_map fst) in H.
    + intros [H|H].
      * injection H as <- <-. left. split; [|now left].
        intros ->. now rewrite period_eqb_refl in E.
      * destruct (IH N1 H) as [[D I]|[-> [(g & I & ->)|[NI ->]]]].
        -- left. split; [exact D|now right].
        -- right. split; [reflexivity|]. left. exists g.
           split; [now right|reflexivity].
        -- right. split; [reflexivity|]. right. split; [|reflexivity].
           intros [<-|I]; [now rewrite period_eqb_refl in E|contradiction].
Qed.

Lemma members_snoc key k (l : list Snapshot) (x : Snapshot) :
  members key k (l ++ [x])
  = members key k l ++ (if period_eqb (key x) k then [x] else []).
Proof. unfold members. rewrite filter_app. reflexivity. Qed.

Lemma group_by_exact (key : Snapshot -> period) (l : list Snapshot) :
  NoDup (map fst (group_by key l))
  /\ forall k g, In (k, g) (group_by key l) ->
       g <> [] /\ g = members key k l.
Proof.
  induction l as [|x l [N M]] using rev_ind.
  - split; [constructor|]. now intros k g [].
  - rewrite group_by_snoc. split.
    + rewrite setdefault_append_keys.
      destruct (existsb _ _) eqn:E; [exact N|].
      apply NoDup_app; [exact N|repeat constructor; now intros []|].
      intros k I [<-|[]]. apply existsb_period in I. congruence.
    + intros k g H.
      destruct (setdefault_append_in _ _ _ _ _ N H)
        as [[D I]|[-> [(g0 & I & ->)|[NI ->]]]].
      * destruct (M k g I) as [G ->]. split; [exact G|].
        rewrite members_snoc, period_eqb_neq, app_nil_r; auto.
      * destruct (M _ _ I) as [G ->]. split; [now destruct (members _ _ _)|].
        now rewrite members_snoc, period_eqb_refl.
      * split; [discriminate|].
        rewrite members_snoc, period_eqb_refl.
        replace (members key (key x) l) with (@nil Snapshot); [reflexivity|].
        symmetry. unfold members.
        destruct (filter _ l) as [|s r] eqn:F; [reflexivity|].
        exfalso. assert (I : In s (filter (fun s => period_eqb (key s) (key x)) l))
          by (rewrite F; now left).
        apply filter_In in I. destruct I as [I E].
        apply BucketFacts.period_eqb_eq in E.
        destruct (BucketFacts.group_by_files key l s I) as (g & Ig & _).
        apply NI. rewrite <- E. now apply (in_map fst) in Ig.
Qed.

Lemma setdefault_append_perm (k : period) (x : Snapshot) (b : buckets) :
  Permutation (flat_map snd (setdefault_append k x b)) (x :: flat_map snd b).
Proof.
  induction b as [|[k' g] b IH]; cbn; [reflexivity|].
  destruct (period_eqb k k'); cbn.
  - rewrite <- app_assoc. cbn. symmetry. apply Permutation_middle.
  - rewrite IH. symmetry. apply Permutation_middle.
Qed.

(** X1.  The dictionary [group_by_day], [group_by_week], [group_by_month]
    and the yearly pass build has one entry for every key that occurs, no
    key twice; the group of a key is never empty and holds exactly the
    snapshots of that key, in the order of the list; so the groups together
    are a rearrangement of the list. *)
Theorem group_by_partitions (key : Snapshot -> period) (l : list Snapshot) :
  NoDup (map fst (group_by key l))
  /\ (forall k g, In (k, g) (group_by key l) ->
        g <> [] /\ g = filter (fun s => period_eqb (key s) k) l)
  /\ (forall s, In s l ->
        exists g, In (key s, g) (group_by key l) /\ In s g)
  /\ Permutation (flat_map snd (group_by key l)) l.
Proof.
  destruct (group_by_exact key l) as [N M].
  split; [exact N|]. split; [exact M|].
  split; [intros s; apply BucketFacts.group_by_files|].
  induction l as [|x l IH] using rev_ind; [reflexivity|].
  rewrite group_by_snoc, setdefault_append_perm.
  destruct (group_by_exact key l) as [N' M'].
  rewrite (IH N' M'). apply Permutation_cons_append.
Qed.

(** ** What the passes leave in the three collections *)

(** The state a bucket leaves, given its survivor. *)
Definition bucket_plan (target : string) (best : Snapshot)
    (group : list Snapshot) (p : plan) : plan :=
  let p := keep_add (full_name best) p in
  let p :=
    if negb (String.eqb (tier best) target)
    then keep_add (replace ("_" ++ tier best) ("_" ++ target) (full_name best))
           (renames_append
              (full_name best,
               replace ("_" ++ tier best) ("_" ++ target) (full_name best)) p)
    else p in
  delete_rest best group p.

Lemma process_bucket_emits (rt : runtime) label target k g (p : plan) best :
  pick_best g = Some best ->
  exists t, emits (process_bucket rt label target (k, g) p) t
                  (bucket_plan target best g p).
Proof.
  intros E. unfold process_bucket, bucket_plan. rewrite E. cbn [of_option].
  destruct (negb (String.eqb (tier best) target)) eqn:C; eexists.
  - eapply EffectFacts.emits_bind; [apply EffectFacts.emits_ret|].
    cbv beta zeta.
    eapply EffectFacts.emits_bind; [apply EffectFacts.emits_say|].
    cbv beta zeta. rewrite C.
    eapply EffectFacts.emits_bind;
      [eapply EffectFacts.emits_bind;
        [apply EffectFacts.emits_say|apply EffectFacts.emits_ret]|].
    apply EffectFacts.emits_ret.
  - eapply EffectFacts.emits_bind; [apply EffectFacts.emits_ret|].
    cbv beta zeta.
    eapply EffectFacts.emits_bind; [apply EffectFacts.emits_say|].
    cbv beta zeta. rewrite C.
    eapply EffectFacts.emits_bind; [apply EffectFacts.emits_ret|].
    apply EffectFacts.emits_ret.
Qed.

Lemma emits_unique {A : Type} (m : M A) t t' (a a' : A) :
  emits m t a -> emits m t' a' -> a = a'.
Proof. intros H H'. specialize (H []). rewrite (H' []) in H. congruence. Qed.

(** The collections only grow. *)
Definition grows (p p' : plan) : Prop :=
  incl (keep p) (keep p') /\ incl (deletes p) (deletes p')
  /\ exists r, renames p' = renames p ++ r.

Lemma grows_refl (p : plan) : grows p p.
Proof.
  repeat split; try apply incl_refl. exists []. now rewrite app_nil_r.
Qed.

Lemma grows_trans (p q r : plan) : grows p q -> grows q r -> grows p r.
Proof.
  intros (K & D & r1 & R) (K' & D' & r2 & R').
  repeat split; try (eapply incl_tran; eassumption).
  exists (r1 ++ r2). now rewrite R', R, app_assoc.
Qed.

Lemma delete_rest_effect (best : Snapshot) (group : list Snapshot) (p : plan) :
  keep (delete_rest best group p) = keep p
  /\ renames (delete_rest best group p) = renames p
  /\ incl (deletes p) (deletes (delete_rest best group p))
  /\ forall s, In s group ->
       full_name s = full_name best
       \/ In (full_name s) (deletes (delete_rest best group p)).
Proof.
  unfold delete_rest. revert p.
  induction group as [|x group IH]; intros p; cbn [fold_left].
  - repeat split; try apply incl_refl. now intros s [].
  - set (p' := if negb (full_name x =? full_name best)%string
               then deletes_add (full_name x) p else p).
    destruct (IH p') as (K & R & D & M).
    assert (Kp : keep p' = keep p)
      by (subst p'; now destruct (negb _)).
    assert (Rp : renames p' = renames p)
      by (subst p'; now destruct (negb _)).
    assert (Dp : incl (deletes p) (deletes p')).
    { subst p'. destruct (negb _); [|apply incl_refl].
      intros y Hy. cbn. apply PlanFacts.set_add_In. now right. }
    split; [congruence|]. split; [congruence|].
    split; [eapply incl_tran; eassumption|].
    intros s [<-|Hs]; [|now apply M].
    destruct (String.eqb_spec (full_name x) (full_name best)) as [E|N];
      [now left|right].
    apply D. subst p'. cbn.
    apply PlanFacts.set_add_In. now left.
Qed.

(** A bucket is settled in [p]: its survivor is kept, under its name and
    under the name of its promotion, and every other member is to delete. *)
Definition settled (target : string) (g : list Snapshot) (p : plan) : Prop :=
  exists best,
    pick_best g = Some best
    /\ In (full_name best) (keep p)
    /\ (forall s, In s g ->
          full_name s = full_name best \/ In (full_name s) (deletes p))
    /\ (tier best <> target ->
        In (replace ("_" ++ tier best) ("_" ++ target) (full_name best))
           (keep p)).

Lemma settled_grows target g (p p' : plan) :
  settled target g p -> grows p p' -> settled target g p'.
Proof.
  intros (best & E & K & D & N) (Ik & Id & _).
  exists best. split; [exact E|]. split; [now apply Ik|].
  split; [|intros T; now apply Ik, N].
  intros s Hs. destruct (D s Hs); [now left|right; now apply Id].
Qed.

Lemma bucket_plan_effect target best g (p : plan) :
  pick_best g = Some best ->
  grows p (bucket_plan target best g p)
  /\ settled target g (bucket_plan target best g p)
  /\ (tier best = target ->
      renames (bucket_plan target best g p) = renames p).
Proof.
  intros E. unfold bucket_plan. cbv zeta.
  set (q := if negb (tier best =? target)%string then _ else _).
  destruct (delete_rest_effect best g q) as (K & R & D & M).
  assert (Q : incl (keep p) (keep q) /\ deletes q = deletes p
              /\ In (full_name best) (keep q)
              /\ (exists r, renames q = renames p ++ r)
              /\ (tier best <> target ->
                  In (replace ("_" ++ tier best) ("_" ++ target)
                        (full_name best)) (keep q))
              /\ (tier best = target -> renames q = renames p)).
  { subst q. destruct (String.eqb_spec (tier best) target) as [T|T]; cbn.
    - split; [intros y Hy; apply PlanFacts.set_add_In; now right|].
      split; [reflexivity|].
      split; [apply PlanFacts.set_add_In; now left|].
      split; [exists []; now rewrite app_nil_r|]. split; [congruence|auto].
    - split.
      { intros y Hy. apply PlanFacts.set_add_In. right.
        apply PlanFacts.set_add_In. now right. }
      split; [reflexivity|].
      split.
      { apply PlanFacts.set_add_In. right.
        apply PlanFacts.set_add_In. now left. }
      split; [eexists; reflexivity|].
      split; [intros _; apply PlanFacts.set_add_In; now left|congruence]. }
  destruct Q as (Qk & Qd & Qb & Qr & Qn & Qt).
  split; [|split].
  - split; [now rewrite K|]. split; [now rewrite <- Qd|now rewrite R].
  - exists best. split; [exact E|]. split; [now rewrite K|].
    split; [exact M|]. intros T. rewrite K. now apply Qn.
  - intros T. rewrite R. now apply Qt.
Qed.

(** A loop whose state grows: what a turn establishes stays. *)
Lemma emits_fold_each_grows {A : Type} (post : A -> plan -> Prop)
    (l : list A) (body : A -> plan -> M plan) :
  (forall x p p', post x p -> grows p p' -> post x p') ->
  (forall x p, In x l ->
     exists t p', emits (body x p) t p' /\ grows p p' /\ post x p') ->
  forall p,
    exists t p', emits (fold_each l body p) t p' /\ grows p p'
                 /\ forall x, In x l -> post x p'.
Proof.
  intros Up. induction l as [|x l IH]; intros H p; cbn.
  - exists [], p. split; [apply EffectFacts.emits_ret|].
    split; [apply grows_refl|now intros x []].
  - destruct (H x p (or_introl eq_refl)) as (t & p1 & E & G & P).
    destruct (IH (fun y q Hy => H y q (or_intror Hy)) p1)
      as (t' & p2 & E' & G' & P').
    exists (t ++ t'), p2.
    split; [now apply EffectFacts.emits_bind with (a := p1)|].
    split; [now apply grows_trans with p1|].
    intros y [<-|Hy]; [now apply Up with p1|now apply P'].
Qed.

Lemma process_buckets_settles (rt : runtime) label target
    (zone : list Snapshot) (b : buckets) (p : plan) :
  BucketFacts.groups_from zone b ->
  exists t p', emits (process_buckets rt label target b p) t p'
               /\ grows p p'
               /\ forall k g, In (k, g) b -> settled target g p'.
Proof.
  intros W. unfold process_buckets.
  destruct (emits_fold_each_grows
              (fun kg q => settled target (snd kg) q) b
              (process_bucket rt label target)) with (p := p)
    as (t & p' & E & G & P).
  - intros x q q'. apply settled_grows.
  - intros [k g] q I. destruct (W k g I) as [N _].
    destruct (PlanFacts.pick_best_some g N) as (best & Eb & _).
    destruct (process_bucket_emits rt label target k g q best Eb) as [t E].
    destruct (bucket_plan_effect target best g q Eb) as (G & S & _).
    now exists t, (bucket_plan target best g q).
  - exists t, p'. split; [exact E|]. split; [exact G|].
    intros k g I. exact (P (k, g) I).
Qed.

Lemma emits_fold_each_keeps {A : Type} (I : plan -> Prop) (l : list A)
    (body : A -> plan -> M plan) :
  (forall x p, In x l -> I p -> exists t p', emits (body x p) t p' /\ I p') ->
  forall p, I p -> exists t p', emits (fold_each l body p) t p' /\ I p'.
Proof.
  induction l as [|x l IH]; intros H p Hp; cbn.
  - exists [], p. split; [apply EffectFacts.emits_ret|exact Hp].
  - destruct (H x p (or_introl eq_refl) Hp) as (t & p1 & E & I1).
    destruct (IH (fun y q Hy => H y q (or_intror Hy)) p1 I1)
      as (t' & p2 & E' & I2).
    exists (t ++ t'), p2.
    split; [now apply EffectFacts.emits_bind with (a := p1)|exact I2].
Qed.

(** Every survivor of the buckets [b] carries the tier [target]. *)
Definition well_tiered (target : string) (b : buckets) : Prop :=
  forall k g best, In (k, g) b -> pick_best g = Some best ->
                   tier best = target.

(** What a pass does to the state. *)
Definition pass_effect (target : string) (b : buckets) (p p' : plan) : Prop :=
  grows p p'
  /\ (forall k g, In (k, g) b -> settled target g p')
  /\ (well_tiered target b -> renames p' = renames p).

Lemma process_buckets_effect (rt : runtime) label target
    (zone : list Snapshot) (b : buckets) (p : plan) :
  BucketFacts.groups_from zone b ->
  exists t p', emits (process_buckets rt label target b p) t p'
               /\ pass_effect target b p p'.
Proof.
  intros W.
  destruct (process_buckets_settles rt label target zone b p W)
    as (t & p' & E & G & S).
  exists t, p'. split; [exact E|]. split; [exact G|]. split; [exact S|].
  intros T.
  destruct (emits_fold_each_keeps (fun q => renames q = renames p) b
              (process_bucket rt label target)) with (p := p)
    as (t' & q & E' & R); [|reflexivity|].
  - intros [k g] q I Hq. destruct (W k g I) as [N _].
    destruct (PlanFacts.pick_best_some g N) as (best & Eb & _).
    destruct (process_bucket_emits rt label target k g q best Eb) as [t0 E0].
    destruct (bucket_plan_effect target best g q Eb) as (_ & _ & R).
    exists t0, (bucket_plan target best g q). split; [exact E0|].
    rewrite R; [exact Hq|]. exact (T k g best I Eb).
  - now rewrite (emits_unique _ _ _ _ _ E E').
Qed.

(** The four passes: the condition of the zone, the key of its buckets and
    its tier. *)
Definition passes
  : list ((RetentionSpec -> Z -> bool) * (Snapshot -> period) * string) :=
  [(in_daily_zone, day_of, "daily"); (in_weekly_zone, week_of, "weekly");
   (in_monthly_zone, month_of, "monthly"); (in_yearly_zone, year_of, "yearly")].

(** The buckets of a pass on the sorted snapshots. *)
Definition pass_buckets (cond : RetentionSpec -> Z -> bool)
    (key : Snapshot -> period) (spec : RetentionSpec) (now : datetime)
    (snaps : list Snapshot) : buckets :=
  group_by key (zone cond spec now (sorted timestamp datetime_ltb snaps)).

Lemma planned_passes (rt : runtime) (snaps : list Snapshot) spec now :
  exists p1 p2 p3,
    pass_effect "daily" (pass_buckets in_daily_zone day_of spec now snaps)
                empty_plan p1
    /\ pass_effect "weekly" (pass_buckets in_weekly_zone week_of spec now snaps)
                   p1 p2
    /\ pass_effect "monthly"
                   (pass_buckets in_monthly_zone month_of spec now snaps) p2 p3
    /\ pass_effect "yearly" (pass_buckets in_yearly_zone year_of spec now snaps)
                   p3 (planned rt snaps spec now).
Proof.
  set (sn := sorted timestamp datetime_ltb snaps).
  destruct (process_buckets_effect rt "Daily" "daily" _ _ empty_plan
              (BucketFacts.group_by_from day_of (daily_zone spec now sn)))
    as (t1 & p1 & E1 & F1).
  destruct (process_buckets_effect rt "Weekly" "weekly" _ _ p1
              (BucketFacts.group_by_from week_of (weekly_zone spec now sn)))
    as (t2 & p2 & E2 & F2).
  destruct (process_buckets_effect rt "Monthly" "monthly" _ _ p2
              (BucketFacts.group_by_from month_of (monthly_zone spec now sn)))
    as (t3 & p3 & E3 & F3).
  destruct (process_buckets_effect rt "Yearly" "yearly" _ _ p3
              (BucketFacts.group_by_from year_of (yearly_zone spec now sn)))
    as (t4 & p4 & E4 & F4).
  assert (E : exists t, emits (plan_retention rt snaps spec now) t p4).
  { eexists. unfold plan_retention. cbv zeta.
    repeat (eapply EffectFacts.emits_bind;
            [apply EffectFacts.emits_say|]; cbv beta).
    eapply EffectFacts.emits_bind; [exact E1|]; cbv beta.
    eapply EffectFacts.emits_bind; [apply EffectFacts.emits_say|]; cbv beta.
    eapply EffectFacts.emits_bind; [exact E2|]; cbv beta.
    eapply EffectFacts.emits_bind; [apply EffectFacts.emits_say|]; cbv beta.
    eapply EffectFacts.emits_bind; [exact E3|]; cbv beta.
    eapply EffectFacts.emits_bind; [apply EffectFacts.emits_say|]; cbv beta.
    eapply EffectFacts.emits_bind; [exact E4|]; cbv beta.
    apply EffectFacts.emits_ret. }
  destruct E as [t E].
  rewrite (emits_unique _ _ _ _ _
             (RunFacts.plan_retention_emits rt snaps spec now) E).
  now exists p1, p2, p3.
Qed.

Lemma planned_settled (rt : runtime) (snaps : list Snapshot) spec now
    cond key target k g :
  In (cond, key, target) passes ->
  In (k, g) (pass_buckets cond key spec now snaps) ->
  settled target g (planned rt snaps spec now).
Proof.
  destruct (planned_passes rt snaps spec now)
    as (p1 & p2 & p3 & (G1 & S1 & _) & (G2 & S2 & _) & (G3 & S3 & _)
        & (G4 & S4 & _)).
  intros [P|[P|[P|[P|[]]]]] I; injection P as <- <- <-.
  - eapply settled_grows; [exact (S1 k g I)|].
    eapply grows_trans; [exact G2|]. eapply grows_trans; eassumption.
  - eapply settled_grows; [exact (S2 k g I)|].
    eapply grows_trans; eassumption.
  - eapply settled_grows; [exact (S3 k g I)|exact G4].
  - exact (S4 k g I).
Qed.

Lemma some_zone (spec : RetentionSpec) (age : Z) :
  exists cond key target,
    In (cond, key, target) passes /\ cond spec age = true.
Proof.
  unfold passes.
  destruct (in_daily_zone spec age) eqn:D;
    [exists in_daily_zone, day_of, "daily"; split; [now left|exact D]|].
  destruct (in_weekly_zone spec age) eqn:W;
    [exists in_weekly_zone, week_of, "weekly";
     split; [right; now left|exact W]|].
  destruct (in_monthly_zone spec age) eqn:Mo;
    [exists in_monthly_zone, month_of, "monthly";
     split; [do 2 right; now left|exact Mo]|].
  exists in_yearly_zone, year_of, "yearly".
  split; [do 3 right; now left|].
  unfold in_daily_zone, in_weekly_zone, in_monthly_zone, in_yearly_zone in *.
  apply Z.leb_gt in D.
  apply andb_false_iff in W. apply andb_false_iff in Mo.
  rewrite !Z.ltb_ge, !Z.leb_gt in *. apply Z.ltb_lt. lia.
Qed.

Lemma in_pass_bucket (snaps : list Snapshot) spec now cond key
    (s : Snapshot) :
  In s snaps -> cond spec (age_days (timestamp s) now) = true ->
  exists g, In (key s, g) (pass_buckets cond key spec now snaps) /\ In s g.
Proof.
  intros I C. apply BucketFacts.group_by_files.
  apply filter_In. split; [|exact C].
  exact (proj2 (SortFacts.sorted_In timestamp datetime_ltb s snaps) I).
Qed.

Lemma pass_bucket_members (snaps : list Snapshot) spec now cond key k g
    (s : Snapshot) :
  In (k, g) (pass_buckets cond key spec now snaps) -> In s g ->
  In s snaps /\ cond spec (age_days (timestamp s) now) = true /\ key s = k.
Proof.
  intros I Hs. unfold pass_buckets in I.
  destruct (group_by_exact key
              (zone cond spec now (sorted timestamp datetime_ltb snaps)))
    as [_ M].
  destruct (M k g I) as [_ ->]. unfold members in Hs.
  apply filter_In in Hs. destruct Hs as [Hs E].
  apply BucketFacts.period_eqb_eq in E.
  apply filter_In in Hs. destruct Hs as [Hs C].
  apply (proj1 (SortFacts.sorted_In timestamp datetime_ltb s snaps)) in Hs.
  repeat split; assumption.
Qed.


Lemma announced_guarded (rt : runtime) (snaps : list Snapshot) spec now
    dry h :
  Forall (fun o => guarded_rename (planned rt snaps spec now) o
                   \/ guarded_destroy (planned rt snaps spec now) o)
         (announced (fst (tiered_retention rt snaps spec dry now h))).
Proof.
  destruct (RunFacts.runs_tiered_retention rt snaps spec dry now h)
    as (k & -> & _).
  destruct (retention_blocks_split rt snaps spec now dry)
    as (first & second & -> & F1 & F2).
  apply EffectFacts.announced_blocks. apply Forall_app. split.
  - eapply Forall_impl; [|exact F1]. intros b. apply Forall_impl. tauto.
  - eapply Forall_impl; [|exact F2]. intros b. apply Forall_impl. tauto.
Qed.



(** X4.  When every snapshot already carries the tier of the zone its age
    puts it in, the passes plan no rename, and the run announces and issues
    no rename: a set of snapshots that is tiered as the policy wants is
    only pruned. *)
Theorem no_promotion_when_tiered (rt : runtime) (snaps : list Snapshot)
    (spec : RetentionSpec) (now : datetime) :
  (forall s cond key target,
     In s snaps -> In (cond, key, target) passes ->
     cond spec (age_days (timestamp s) now) = true -> tier s = target) ->
  renames (planned rt snaps spec now) = []
  /\ forall dry h,
       Forall (fun o => exists full, o = Destroy full)
              (announced (fst (tiered_retention rt snaps spec dry now h)))
       /\ forall old new,
            ~ In ["zfs"; "rename"; old; new]
                 (issued (fst (tiered_retention rt snaps spec dry now h))).
Proof.
  intros H.
  assert (T : forall cond key target,
            In (cond, key, target) passes ->
            well_tiered target (pass_buckets cond key spec now snaps)).
  { intros cond key target P k g best I E.
    destruct (pick_best_max g best E) as [Hb _].
    destruct (pass_bucket_members snaps spec now cond key k g best I Hb)
      as (Ib & Cb & _).
    exact (H best cond key target Ib P Cb). }
  destruct (planned_passes rt snaps spec now)
    as (p1 & p2 & p3 & (_ & _ & R1) & (_ & _ & R2) & (_ & _ & R3)
        & (_ & _ & R4)).
  assert (R : renames (planned rt snaps spec now) = []).
  { rewrite R4, R3, R2, R1; [reflexivity| | | |]; apply T; unfold passes;
      cbn; auto. }
  split; [exact R|]. intros dry h.
  pose proof (announced_guarded rt snaps spec now dry h) as G.
  assert (A : Forall (fun o => exists full, o = Destroy full)
                (announced (fst (tiered_retention rt snaps spec dry now h)))).
  { eapply Forall_impl; [|exact G].
    intros [f|o n|f] [Gr|Gd]; try contradiction.
    - destruct Gr as [I _]. rewrite R in I. contradiction.
    - now exists f. }
  split; [exact A|]. intros old new.
  destruct (RunFacts.runs_tiered_retention rt snaps spec dry now h)
    as (k & E & _).
  pose proof (EffectFacts.paired_blocks dry _ k
                (RunFacts.paired_retention_blocks rt snaps spec dry now)) as P.
  rewrite <- E in P. unfold paired in P. rewrite P.
  destruct dry; [now intros []|].
  intros (o & C & I)%in_map_iff.
  rewrite Forall_forall in A. destruct (A o I) as [f ->]. discriminate.
Qed.

Lemma no_promotion_when_tiered_witness :
  renames (planned (example_runtime "")
             [january 9 "daily" 100; january 10 "daily" 100]
             (mkRetentionSpec 2 1 0 0 "snappy") noon_10_jan) = [].
Proof.
  apply (no_promotion_when_tiered (example_runtime "")
           [january 9 "daily" 100; january 10 "daily" 100]
           (mkRetentionSpec 2 1 0 0 "snappy") noon_10_jan).
  intros s cond key target [<-|[<-|[]]] [P|[P|[P|[P|[]]]]];
    injection P as <- <- <-; vm_compute; congruence.
Defined.

(** ** Ages *)

(** Microseconds since midnight. *)
Definition time_of_day (t : datetime) : Z :=
  (second t + minute t * 60 + hour t * 3600) * 1000000 + microsecond t.

Lemma time_of_day_bounds (t : datetime) :
  valid_datetime t = true -> 0 <= time_of_day t < 86400000000.
Proof.
  intros V. apply CalendarFacts.valid_datetime_bounds in V.
  unfold time_of_day. lia.
Qed.

Lemma stamp_time_of_day (t : datetime) :
  CalendarFacts.stamp t = toordinal t * 86400000000 + time_of_day t.
Proof. unfold CalendarFacts.stamp, time_of_day. ring. Qed.

Lemma age_days_split (ts now : datetime) :
  valid_datetime ts = true -> valid_datetime now = true ->
  age_days ts now
  = toordinal now - toordinal ts
    - (if time_of_day now <? time_of_day ts then 1 else 0).
Proof.
  intros Vt Vn. unfold age_days.
  rewrite CalendarFacts.days_of_sub, !stamp_time_of_day.
  pose proof (time_of_day_bounds ts Vt). pose proof (time_of_day_bounds now Vn).
  destruct (Z.ltb_spec (time_of_day now) (time_of_day ts)).
  - symmetry. apply Z.div_unique with
      (r := time_of_day now - time_of_day ts + 86400000000); lia.
  - symmetry. apply Z.div_unique with
      (r := time_of_day now - time_of_day ts); lia.
Qed.

Lemma stamp_le (a b : datetime) :
  valid_datetime a = true -> valid_datetime b = true ->
  datetime_ltb b a = false -> CalendarFacts.stamp a <= CalendarFacts.stamp b.
Proof.
  intros Va Vb L. unfold datetime_ltb in L.
  destruct (datetime_cmp b a) eqn:C; try discriminate.
  - apply OrderFacts.tuple_cmp_eq in C.
    unfold fields in C. injection C as E1 E2 E3 E4 E5 E6 E7.
    unfold CalendarFacts.stamp, toordinal. rewrite E1, E2, E3, E4, E5, E6, E7.
    lia.
  - assert (C' : datetime_cmp a b = Lt).
    { unfold datetime_cmp in *.
      rewrite OrderFacts.tuple_cmp_antisym, C. reflexivity. }
    pose proof (CalendarFacts.stamp_lt a b Va Vb C'). lia.
Qed.

(** X5.  The age of a snapshot counts whole periods of 24 hours, not
    calendar dates: it is the difference of the two dates, less one when the
    time of day of [now] is earlier than that of the snapshot.  A snapshot
    that is not later than [now] has an age of zero or more, and of two
    snapshots the one that is not later is not younger. *)
Theorem age_days_whole_days (ts ts' now : datetime) :
  valid_datetime ts = true -> valid_datetime ts' = true ->
  valid_datetime now = true ->
  age_days ts now
  = toordinal now - toordinal ts
    - (if time_of_day now <? time_of_day ts then 1 else 0)
  /\ (datetime_ltb now ts = false -> 0 <= age_days ts now)
  /\ (datetime_ltb ts' ts = false -> age_days ts' now <= age_days ts now).
Proof.
  intros Vt Vt' Vn. split; [now apply age_days_split|]. split.
  - intros L. pose proof (stamp_le ts now Vt Vn L).
    unfold age_days. rewrite CalendarFacts.days_of_sub.
    apply Z.div_pos; lia.
  - intros L. pose proof (stamp_le ts ts' Vt Vt' L).
    unfold age_days. rewrite !CalendarFacts.days_of_sub.
    apply Z.div_le_mono; lia.
Qed.

Lemma age_days_whole_days_witness :
  age_days (mkdatetime 2024 1 9 18 0 0 0) noon_10_jan = 0
  /\ age_days (mkdatetime 2024 1 9 8 0 0 0) noon_10_jan = 1.
Proof.
  split.
  - destruct (age_days_whole_days (mkdatetime 2024 1 9 18 0 0 0)
                (mkdatetime 2024 1 9 18 0 0 0) noon_10_jan)
      as [E _]; [reflexivity|reflexivity|reflexivity|].
    rewrite E. reflexivity.
  - destruct (age_days_whole_days (mkdatetime 2024 1 9 8 0 0 0)
                (mkdatetime 2024 1 9 8 0 0 0) noon_10_jan)
      as [E _]; [reflexivity|reflexivity|reflexivity|].
    rewrite E. reflexivity.
Defined.

(** ** Weeks *)

(** The ordinal of the Monday on or before the date of [t]: day 1 of the
    ordinal is a Monday. *)
Definition week_start (t : datetime) : Z :=
  toordinal t - (toordinal t + 6) mod 7.

Lemma new_year_ordinal (y : Z) : ymd2ord y 1 1 = days_before_year y + 1.
Proof.
  unfold ymd2ord, days_before_month. CalendarFacts.read_tables. lia.
Qed.

(** Week 1 starts on a Monday at most three days from 1 January. *)
Lemma isoweek1monday_near (y : Z) :
  (isoweek1monday y + 6) mod 7 = 0
  /\ days_before_year y - 2 <= isoweek1monday y <= days_before_year y + 4.
Proof.
  unfold isoweek1monday. cbv zeta. rewrite new_year_ordinal.
  destruct (Z.ltb_spec 3 ((days_before_year y + 1 + 6) mod 7));
    Z.div_mod_to_equations; lia.
Qed.

Lemma isoweek1monday_increasing (y1 y2 : Z) :
  y1 < y2 -> isoweek1monday (y1 + 1) <= isoweek1monday y2.
Proof.
  intros L. destruct (Z.eq_dec y2 (y1 + 1)) as [->|N]; [lia|].
  pose proof (isoweek1monday_near (y1 + 1)) as [_ B1].
  pose proof (isoweek1monday_near y2) as [_ B2].
  pose proof (CalendarFacts.days_before_year_succ (y1 + 1)).
  pose proof (CalendarFacts.days_before_year_mono (y1 + 1 + 1) y2).
  destruct (is_leap (y1 + 1)); lia.
Qed.

Lemma ordinal_within_year (t : datetime) :
  valid_datetime t = true ->
  days_before_year (year t) + 1 <= toordinal t
  /\ toordinal t <= days_before_year (year t + 1).
Proof.
  intros V. apply CalendarFacts.valid_datetime_bounds in V.
  destruct V as [D _]. apply CalendarFacts.valid_date_bounds in D.
  destruct D as (_ & Bm & Bd).
  pose proof (CalendarFacts.month_within_year (year t) (month t) Bm).
  pose proof (CalendarFacts.days_before_year_succ (year t)).
  unfold toordinal, ymd2ord. destruct (is_leap (year t)); lia.
Qed.

(** The ISO year and week of a date name the week it is in: the week starts
    [7 * (w - 1)] days after the Monday of week 1 of the ISO year, and
    before week 1 of the next. *)
Lemma isocalendar_week (t : datetime) :
  valid_datetime t = true ->
  let '(y, w, _) := isocalendar t in
  week_start t = isoweek1monday y + 7 * (w - 1)
  /\ 1 <= w
  /\ week_start t < isoweek1monday (y + 1).
Proof.
  intros V. pose proof (ordinal_within_year t V) as [Lo Hi].
  pose proof (isoweek1monday_near (year t - 1)) as [M0 B0].
  pose proof (isoweek1monday_near (year t)) as [M1 B1].
  pose proof (isoweek1monday_near (year t + 1)) as [M2 B2].
  pose proof (isoweek1monday_near (year t + 1 + 1)) as [M3 B3].
  pose proof (CalendarFacts.days_before_year_succ (year t - 1)) as S0.
  pose proof (CalendarFacts.days_before_year_succ (year t)) as S1.
  pose proof (CalendarFacts.days_before_year_succ (year t + 1)) as S2.
  replace (year t - 1 + 1) with (year t) in * by lia.
  unfold isocalendar, week_start. cbv zeta.
  set (today := toordinal t) in *.
  set (w0 := isoweek1monday (year t - 1)) in *.
  set (w1 := isoweek1monday (year t)) in *.
  set (w2 := isoweek1monday (year t + 1)) in *.
  set (w3 := isoweek1monday (year t + 1 + 1)) in *.
  set (d0 := days_before_year (year t - 1)) in *.
  set (d1 := days_before_year (year t)) in *.
  set (d2 := days_before_year (year t + 1)) in *.
  set (d3 := days_before_year (year t + 1 + 1)) in *.
  assert (L0 : 0 <= (if is_leap (year t - 1) then 1 else 0) <= 1)
    by (destruct (is_leap (year t - 1)); lia).
  assert (L1 : 0 <= (if is_leap (year t) then 1 else 0) <= 1)
    by (destruct (is_leap (year t)); lia).
  assert (L2 : 0 <= (if is_leap (year t + 1) then 1 else 0) <= 1)
    by (destruct (is_leap (year t + 1)); lia).
  destruct (Z.ltb_spec ((today - w1) / 7) 0) as [Neg|Pos].
  - replace (year t - 1 + 1) with (year t) by lia. fold w1.
    Z.div_mod_to_equations. lia.
  - destruct (Z.leb_spec 52 ((today - w1) / 7)) as [Late|Early]; cbn [andb].
    + destruct (Z.leb_spec w2 today) as [Next|Same].
      * fold w3. Z.div_mod_to_equations. lia.
      * fold w2. Z.div_mod_to_equations. lia.
    + fold w2. Z.div_mod_to_equations. lia.
Qed.

(** X6.  The weekly buckets are the weeks from Monday to Sunday: two
    snapshots get the same key from [group_by_week] exactly when the Monday
    on or before their dates is the same day, also when the week runs
    across the turn of a year. *)
Theorem weekly_buckets_are_calendar_weeks (a b : Snapshot) :
  valid_datetime (timestamp a) = true ->
  valid_datetime (timestamp b) = true ->
  (week_of a = week_of b
   <-> week_start (timestamp a) = week_start (timestamp b))
  /\ (week_start (timestamp a) + 6) mod 7 = 0
  /\ week_start (timestamp a) <= toordinal (timestamp a)
     <= week_start (timestamp a) + 6.
Proof.
  intros Va Vb.
  split; [|unfold week_start; Z.div_mod_to_equations; lia].
  pose proof (isocalendar_week (timestamp a) Va) as Ha.
  pose proof (isocalendar_week (timestamp b) Vb) as Hb.
  unfold week_of.
  destruct (isocalendar (timestamp a)) as [[ya wa] da].
  destruct (isocalendar (timestamp b)) as [[yb wb] db].
  destruct Ha as (Ea & Pa & Na), Hb as (Eb & Pb & Nb).
  split.
  - intros [= -> ->]. lia.
  - intros E.
    assert (Y : ya = yb).
    { destruct (Z.lt_trichotomy ya yb) as [L|[Q|L]]; [|exact Q|].
      - pose proof (isoweek1monday_increasing ya yb L). lia.
      - pose proof (isoweek1monday_increasing yb ya L). lia. }
    subst yb. f_equal. lia.
Qed.

Lemma weekly_buckets_are_calendar_weeks_witness :
  week_of (mkSnapshot "tank" "tank@snappy-2024-12-30_08:00:00_daily" "snappy"
             (mkdatetime 2024 12 30 8 0 0 0) "daily" 0)
  = week_of (mkSnapshot "tank" "tank@snappy-2025-01-05_08:00:00_daily"
               "snappy" (mkdatetime 2025 1 5 8 0 0 0) "daily" 0).
Proof.
  apply (weekly_buckets_are_calendar_weeks
           (mkSnapshot "tank" "tank@snappy-2024-12-30_08:00:00_daily" "snappy"
              (mkdatetime 2024 12 30 8 0 0 0) "daily" 0)
           (mkSnapshot "tank" "tank@snappy-2025-01-05_08:00:00_daily" "snappy"
              (mkdatetime 2025 1 5 8 0 0 0) "daily" 0));
    reflexivity.
Defined.

(** ** What the listing does and where it stops *)

Lemma fst_bind {A B : Type} (m : M A) (f : A -> M B) (h : trace) :
  fst (bind m f h)
  = fst (m h) ++ match snd (m h) with
                 | Ok a => fst (f a (h ++ fst (m h)))
                 | Raise _ => []
                 end.
Proof.
  unfold bind. destruct (m h) as [t [a|e]]; cbn [fst snd].
  - now destruct (f a (h ++ t)).
  - now rewrite app_nil_r.
Qed.

Lemma fst_say (rt : runtime) (level : Z) (n : note) (h : trace) :
  fst (say rt level n h) = said rt level n.
Proof. now rewrite (EffectFacts.emits_say rt level n h). Qed.

Lemma snd_say (rt : runtime) (level : Z) (n : note) (h : trace) :
  snd (say rt level n h) = Ok tt.
Proof. now rewrite (EffectFacts.emits_say rt level n h). Qed.

Lemma forallb_message_app (t t' : trace) :
  forallb is_message t = true -> forallb is_message t' = true ->
  forallb is_message (t ++ t') = true.
Proof. intros H H'. now rewrite forallb_app, H, H'. Qed.

(** The loop over the lines prints messages and nothing else. *)
Lemma scan_lines_quiet (rt : runtime) (prefix : string)
    (lines : list string) (snaps : list Snapshot) (h : trace) :
  forallb is_message (fst (scan_lines rt prefix lines snaps h)) = true.
Proof.
  revert snaps h.
  induction lines as [|line rest IH]; intros snaps h; [reflexivity|].
  cbn [scan_lines].
  destruct (split_char TAB line) as [|full [|used [|x l]]]; try reflexivity.
  destruct (negb (contains_char "@" full)); [apply IH|].
  rewrite fst_bind.
  destruct (split_once "@" full) as [[ds snapname]|]; [|reflexivity].
  cbn [of_option ret snd fst app].
  destruct (regex_match prefix snapname) as [[ts_str tier]|].
  - rewrite fst_bind. unfold parse_timestamp.
    destruct (strptime ts_str) as [ts|]; [|reflexivity].
    cbn [of_option ret snd fst app]. rewrite fst_bind.
    destruct (int_of_str used) as [u|]; [|reflexivity].
    cbn [of_option ret snd fst app]. apply IH.
  - rewrite fst_bind. unfold v3. rewrite fst_say, snd_say.
    apply forallb_message_app; [apply EffectFacts.said_messages|apply IH].
Qed.

(** A computation that prints messages and nothing else. *)
Definition quiet {A : Type} (m : M A) : Prop :=
  forall h, forallb is_message (fst (m h)) = true.

Lemma quiet_bind {A B : Type} (m : M A) (f : A -> M B) :
  quiet m -> (forall a, quiet (f a)) -> quiet (bind m f).
Proof.
  intros Hm Hf h. rewrite fst_bind.
  apply forallb_message_app; [apply Hm|].
  destruct (snd (m h)); [apply Hf|reflexivity].
Qed.

Lemma quiet_say (rt : runtime) (level : Z) (n : note) :
  quiet (say rt level n).
Proof. intros h. rewrite fst_say. apply EffectFacts.said_messages. Qed.

Lemma quiet_ret {A : Type} (a : A) : quiet (ret a).
Proof. now intros h. Qed.

Lemma list_snapshots_trace (rt : runtime) (dataset prefix : string)
    (h : trace) :
  exists t,
    fst (list_snapshots rt dataset prefix h)
    = said rt 3 (RunningZfsList (zfs_list_cmd dataset))
      ++ Call (zfs_list_cmd dataset) :: t
    /\ forallb is_message t = true.
Proof.
  unfold list_snapshots. cbv zeta.
  set (cmd := zfs_list_cmd dataset).
  rewrite fst_bind. unfold v3 at 1 2 3. rewrite !fst_say, !snd_say.
  rewrite fst_bind. unfold check_output at 1 2 3. cbn [fst snd].
  destruct (output_of rt (h ++ said rt 3 (RunningZfsList cmd)) cmd)
    as [raw|]; eexists; (split; [reflexivity|]); [|reflexivity].
  apply quiet_bind; [intros h'; apply scan_lines_quiet|].
  intros snaps. apply quiet_bind; [apply quiet_say|].
  intros _. apply quiet_ret.
Qed.

Lemma list_snapshots_issued (rt : runtime) (dataset prefix : string)
    (h : trace) :
  issued (fst (list_snapshots rt dataset prefix h)) = [zfs_list_cmd dataset]
  /\ announced (fst (list_snapshots rt dataset prefix h)) = [].
Proof.
  destruct (list_snapshots_trace rt dataset prefix h) as (t & -> & Q).
  pose proof (EffectFacts.said_messages rt 3
                (RunningZfsList (zfs_list_cmd dataset))) as Q3.
  rewrite EffectFacts.issued_app, EffectFacts.announced_app.
  rewrite (EffectFacts.messages_issued _ Q3),
    (EffectFacts.messages_announced _ Q3).
  change (Call (zfs_list_cmd dataset) :: t)
    with ([Call (zfs_list_cmd dataset)] ++ t).
  rewrite EffectFacts.issued_app, EffectFacts.announced_app.
  rewrite (EffectFacts.messages_issued _ Q),
    (EffectFacts.messages_announced _ Q).
  now split.
Qed.

(** X7.  [list_snapshots] runs one command, the [zfs list] of the dataset,
    and announces no operation, whatever the listing holds and whether it
    returns or raises; when the command fails it raises
    [CalledProcessError] for it. *)
Theorem list_snapshots_only_lists (rt : runtime) (dataset prefix : string)
    (h : trace) :
  let run := list_snapshots rt dataset prefix h in
  let cmd := zfs_list_cmd dataset in
  issued (fst run) = [cmd]
  /\ announced (fst run) = []
  /\ (output_of rt (h ++ said rt 3 (RunningZfsList cmd)) cmd = None ->
      snd run = Raise (CalledProcessError cmd)).
Proof.
  cbv zeta.
  destruct (list_snapshots_issued rt dataset prefix h) as [I A].
  split; [exact I|]. split; [exact A|].
  intros O. unfold list_snapshots. cbv zeta.
  rewrite EffectFacts.snd_bind. unfold v3. rewrite fst_say, snd_say.
  rewrite EffectFacts.snd_bind. unfold check_output at 1.
  now rewrite O.
Qed.

(** A line that does not have two fields around one tab. *)
Definition wrong_fields (line : string) : Prop :=
  List.length (split_char TAB line) <> 2%nat.

(** A line of a managed snapshot whose second field [int] does not read. *)
Definition bad_used (prefix line : string) : Prop :=
  exists full used ds snapname ts_str tier ts,
    split_char TAB line = [full; used]
    /\ split_once "@" full = Some (ds, snapname)
    /\ regex_match prefix snapname = Some (ts_str, tier)
    /\ strptime ts_str = Some ts
    /\ int_of_str used = None.

Lemma wrong_fields_result (prefix line : string) :
  wrong_fields line ->
  line_result prefix line
  = Raise (ValueError "wrong number of values to unpack").
Proof.
  unfold wrong_fields, line_result.
  destruct (split_char TAB line) as [|full [|used [|x l]]]; cbn; try easy.
Qed.

Lemma bad_used_result (prefix line : string) :
  bad_used prefix line ->
  line_result prefix line = Raise (ValueError "invalid literal for int()").
Proof.
  intros (full & used & ds & sn & ts_str & tier & ts & S & O & R & P & U).
  unfold line_result.
  now rewrite S, (split_once_contains _ _ _ _ O), O, R, P, U.
Qed.

(** [int] takes the white space of C around a number and a line feed or
    a no-break space, not the separators U+001C to U+001F; it takes a sign
    and single underscores between digits. *)
Example int_of_str_edges :
  int_of_str ("4096" ++ String (chr 31) "") = None
  /\ int_of_str ("4096" ++ String (chr 160) "") = Some 4096
  /\ int_of_str (String (chr 11) " 4096 ") = Some 4096
  /\ int_of_str "96K" = None
  /\ int_of_str "-1" = Some (-1)
  /\ int_of_str "1_0" = Some 10
  /\ int_of_str "" = None.
Proof. repeat split; reflexivity. Qed.

Definition sized_listing : string :=
  ("tank@snappy-2024-01-10_08:00:00_daily" ++ String TAB "96K"
   ++ String LF "")%string.

(** A listing whose [used] column ends in the separator U+001F, which is
    no line boundary of [splitlines] and no white space of [int]. *)
Example list_snapshots_separator_raises :
  exists msg,
    snd (list_snapshots
           (example_runtime
              ("tank@snappy-2024-01-10_08:00:00_daily" ++ String TAB "4096"
               ++ String (chr 31) (String LF "")))
           "tank" "snappy" [])
    = Raise (ValueError msg).
Proof. eexists. reflexivity. Qed.

(** X8.  [list_snapshots] has no tolerance for a listing it cannot read.  A
    line that is not two fields around one tab, an empty line among them,
    raises [ValueError], also when the name on it is not a snapshot of the
    program; so does the line of a managed snapshot whose [used] column is
    not an integer literal, such as [96K].  In both cases no snapshot is
    returned, unless an earlier line has raised already. *)
Theorem list_snapshots_rejects_malformed (rt : runtime)
    (dataset prefix raw : string) (pre post : list string) (line : string)
    (h : trace) :
  output_of rt (h ++ said rt 3 (RunningZfsList (zfs_list_cmd dataset)))
            (zfs_list_cmd dataset) = Some raw ->
  splitlines raw = pre ++ line :: post ->
  wrong_fields line \/ bad_used prefix line ->
  exists msg,
    snd (list_snapshots rt dataset prefix h)
    = match snd (scan_lines rt prefix pre [] h) with
      | Ok _ => Raise (ValueError msg)
      | Raise e => Raise e
      end.
Proof.
  intros O S H.
  rewrite (list_snapshots_outcome rt dataset prefix raw h O), S.
  rewrite scan_lines_outcome, scan_outcome_app.
  destruct H as [H|H]; eexists;
    (destruct (scan_outcome prefix pre []); [|reflexivity]);
    cbn [scan_outcome].
  - now rewrite (wrong_fields_result _ _ H).
  - now rewrite (bad_used_result _ _ H).
Qed.

Lemma list_snapshots_rejects_malformed_witness :
  exists msg,
    snd (list_snapshots (example_runtime sized_listing) "tank" "snappy" [])
    = Raise (ValueError msg).
Proof.
  apply (list_snapshots_rejects_malformed (example_runtime sized_listing)
           "tank" "snappy" sized_listing []
           [] ("tank@snappy-2024-01-10_08:00:00_daily" ++ String TAB "96K")
           []);
    [reflexivity|reflexivity|].
  right.
  exists "tank@snappy-2024-01-10_08:00:00_daily", "96K", "tank",
    "snappy-2024-01-10_08:00:00_daily", "2024-01-10_08:00:00", "daily",
    (mkdatetime 2024 1 10 8 0 0 0).
  repeat split; reflexivity.
Defined.
(** ** The snapshots of a listing *)

Lemma strip_prefix_inv (p s r : string) :
  strip_prefix p s = Some r -> s = (p ++ r)%string.
Proof.
  revert s. induction p as [|a p IH]; intros [|b s]; cbn; try congruence.
  destruct (Ascii.eqb_spec a b) as [->|]; [|discriminate].
  intros H. now rewrite (IH _ H).
Qed.

Lemma is_digit_cases (c : ascii) :
  is_digit c = true ->
  In c ["0"; "1"; "2"; "3"; "4"; "5"; "6"; "7"; "8"; "9"]%char.
Proof.
  destruct c as [[] [] [] [] [] [] [] []]; try discriminate; cbn; tauto.
Qed.

Ltac each_digit c H :=
  apply is_digit_cases in H;
  cbn [In] in H;
  repeat (destruct H as [H|H]; [subst c|]); [..|contradiction].

Lemma digit_char_val (c : ascii) :
  is_digit c = true -> digit_char (digit_val c) = c.
Proof. intros H. each_digit c H; reflexivity. Qed.

Lemma digit_val_bounds (c : ascii) :
  is_digit c = true -> 0 <= digit_val c <= 9.
Proof.
  intros H. each_digit c H; split; apply Z.leb_le; reflexivity.
Qed.

Lemma pad2_digits (a b : ascii) :
  is_digit a = true -> is_digit b = true ->
  pad2 (10 * digit_val a + digit_val b) = String a (String b "").
Proof.
  intros Ha Hb. unfold pad2.
  pose proof (digit_val_bounds a Ha). pose proof (digit_val_bounds b Hb).
  replace ((10 * digit_val a + digit_val b) / 10) with (digit_val a)
    by (Z.div_mod_to_equations; lia).
  assert (E : digit_char (10 * digit_val a + digit_val b)
              = digit_char (digit_val b)).
  { unfold digit_char. do 2 f_equal. f_equal.
    Z.div_mod_to_equations. lia. }
  now rewrite E, !digit_char_val.
Qed.

Lemma pad4_digits (a b c d : ascii) :
  is_digit a = true -> is_digit b = true -> is_digit c = true ->
  is_digit d = true ->
  pad4 (1000 * digit_val a + 100 * digit_val b + 10 * digit_val c
        + digit_val d)
  = String a (String b (String c (String d ""))).
Proof.
  intros Ha Hb Hc Hd. unfold pad4.
  pose proof (digit_val_bounds a Ha). pose proof (digit_val_bounds b Hb).
  pose proof (digit_val_bounds c Hc). pose proof (digit_val_bounds d Hd).
  set (n := 1000 * digit_val a + 100 * digit_val b + 10 * digit_val c
            + digit_val d).
  assert (E1 : digit_char (n / 1000) = a).
  { replace (n / 1000) with (digit_val a)
      by (subst n; Z.div_mod_to_equations; lia).
    now apply digit_char_val. }
  assert (E2 : digit_char (n / 100) = b).
  { rewrite <- (digit_char_val b Hb). unfold digit_char. do 2 f_equal.
    f_equal. subst n. Z.div_mod_to_equations. lia. }
  assert (E3 : pad2 n = String c (String d "")).
  { rewrite <- (pad2_digits c d Hc Hd). unfold pad2, digit_char.
    do 2 f_equal; [do 2 f_equal|do 3 f_equal];
      subst n; Z.div_mod_to_equations; lia. }
  now rewrite E1, E2, E3.
Qed.

(** A digit is none of the separators of a timestamp. *)
Lemma literal_digit {R : Type} (c b : ascii) (rest : string)
    (k : string -> option R) :
  is_digit b = true -> is_digit c = false ->
  literal c (String b rest) k = None.
Proof.
  intros Hb Hc. cbn. destruct (Ascii.eqb_spec b c) as [->|]; congruence.
Qed.

(** On two digits the two-character form of a directive decides, when what
    follows the directive cannot start with a digit. *)
Lemma directive_two_digits {R : Type} (two : ascii -> ascii -> bool)
    (one : ascii -> bool) (a b : ascii) (rest : string)
    (k : Z -> string -> option R) (r : R) :
  is_digit a = true ->
  (forall z, k z (String b rest) = None) ->
  directive two one (String a (String b rest)) k = Some r ->
  k (10 * digit_val a + digit_val b) rest = Some r.
Proof.
  intros Ha K. unfold directive. rewrite Ha, K.
  destruct (two a b); [|now destruct (one a)].
  destruct (k (10 * digit_val a + digit_val b) rest); cbn; [easy|].
  now destruct (one a).
Qed.

Lemma match_shape_cons (cls : ascii -> bool) (shape : list (ascii -> bool))
    (s m r : string) :
  match_shape (cls :: shape) s = Some (m, r) ->
  exists c s' m',
    s = String c s' /\ cls c = true
    /\ match_shape shape s' = Some (m', r) /\ m = String c m'.
Proof.
  destruct s as [|c s']; cbn [match_shape]; [discriminate|].
  destruct (cls c) eqn:C; [|discriminate].
  destruct (match_shape shape s') as [[m' r']|] eqn:E; [|discriminate].
  intros [= <- <-]. exists c, s', m'. repeat split; assumption.
Qed.

Lemma match_shape_nil (s m r : string) :
  match_shape [] s = Some (m, r) -> m = ""%string /\ r = s.
Proof. destruct s; cbn; intros [= <- <-]; now split. Qed.

(** The text the shape of a timestamp matches. *)
Lemma stamp_shape_inv (s m r : string) :
  match_shape stamp_shape s = Some (m, r) ->
  s = (m ++ r)%string
  /\ exists y1 y2 y3 y4 m1 m2 d1 d2 H1 H2 M1 M2 S1 S2,
       Forall (fun c => is_digit c = true)
              [y1; y2; y3; y4; m1; m2; d1; d2; H1; H2; M1; M2; S1; S2]
       /\ m = String y1 (String y2 (String y3 (String y4 (String "-"
              (String m1 (String m2 (String "-" (String d1 (String d2
              (String "_" (String H1 (String H2 (String ":" (String M1
              (String M2 (String ":" (String S1 (String S2 "")))))))))
              ))))))))).
Proof.
  unfold stamp_shape. intros H.
  repeat (apply match_shape_cons in H;
          let c := fresh "c" in
          let C := fresh "C" in
          destruct H as (c & ? & ? & -> & C & H & ->)).
  apply match_shape_nil in H. destruct H as [-> ->].
  unfold is_char in *.
  repeat match goal with
         | E : Ascii.eqb _ _ = true |- _ => apply Ascii.eqb_eq in E; subst
         end.
  split; [reflexivity|].
  do 14 eexists. split; [|reflexivity].
  repeat constructor; assumption.
Qed.

Lemma match_tier_inv (s tier : string) :
  match_tier s = Some tier ->
  In tier TIERS
  /\ exists r, s = (tier ++ r)%string /\ at_end r = true.
Proof.
  unfold match_tier. intros H. apply find_some in H. destruct H as [I H].
  split; [exact I|].
  destruct (strip_prefix tier s) as [r|] eqn:E; [|discriminate].
  exists r. split; [now apply strip_prefix_inv|exact H].
Qed.

(** What the pattern of [list_snapshots] matches: the prefix, a hyphen,
    the shape of a timestamp, an underscore and a tier, and at most a line
    feed after it. *)
Lemma regex_match_inv (prefix snapname ts_str tier : string) :
  regex_match prefix snapname = Some (ts_str, tier) ->
  In tier TIERS
  /\ match_shape stamp_shape ts_str = Some (ts_str, ""%string)
  /\ exists r, at_end r = true
       /\ snapname = (prefix ++ "-" ++ ts_str ++ "_" ++ tier ++ r)%string.
Proof.
  unfold regex_match.
  destruct (strip_prefix (prefix ++ "-") snapname) as [s|] eqn:P;
    [|discriminate].
  destruct (match_shape stamp_shape s) as [[m [|c s']]|] eqn:Sh;
    try discriminate.
  destruct (Ascii.eqb_spec c "_") as [->|N].
  2:{ destruct c as [[] [] [] [] [] [] [] []]; try discriminate.
      now contradiction N. }
  destruct (match_tier s') as [t|] eqn:T; [|discriminate].
  intros [= <- <-].
  apply match_tier_inv in T. destruct T as (I & r & -> & A).
  split; [exact I|].
  pose proof (stamp_shape_inv _ _ _ Sh) as (Es & Dg).
  split.
  - destruct Dg as (y1 & y2 & y3 & y4 & m1 & m2 & d1 & d2 & H1 & H2 & M1
                    & M2 & S1 & S2 & F & ->).
    repeat match goal with
           | F : Forall _ (_ :: _) |- _ => inversion F; subst; clear F
           end.
    unfold stamp_shape. cbn [match_shape is_char].
    repeat match goal with E : is_digit _ = true |- _ => rewrite E end.
    reflexivity.
  - exists r. split; [exact A|].
    apply strip_prefix_inv in P. rewrite P, Es.
    rewrite append_assoc3. reflexivity.
Qed.

Lemma literal_same {R : Type} (c : ascii) (rest : string)
    (k : string -> option R) :
  literal c (String c rest) k = k rest.
Proof. unfold literal. now rewrite Ascii.eqb_refl. Qed.

Lemma four_digits_digits {R : Type} (a b c d : ascii) (rest : string)
    (k : Z -> string -> option R) :
  is_digit a = true -> is_digit b = true -> is_digit c = true ->
  is_digit d = true ->
  four_digits (String a (String b (String c (String d rest)))) k
  = k (1000 * digit_val a + 100 * digit_val b + 10 * digit_val c
       + digit_val d) rest.
Proof. intros Ha Hb Hc Hd. unfold four_digits. now rewrite Ha, Hb, Hc, Hd. Qed.

(** On a text of the shape of a timestamp [strptime] reads each pair of
    digits as one number: what it returns is written back by [strftime] as
    the same text. *)
Lemma strptime_shape_inv (s : string) (t : datetime) :
  match_shape stamp_shape s = Some (s, ""%string) ->
  strptime s = Some t ->
  strftime t = s /\ microsecond t = 0 /\ valid_datetime t = true.
Proof.
  intros Sh P. pose proof (strptime_valid s t P) as V.
  split; [|split; [|exact V]].
  2:{ unfold strptime in P.
      destruct (strptime_match s)
        as [[[|yr [|mo [|dy [|hr [|mi [|sc [|x l]]]]]]] [|c r]]|];
        try discriminate.
      destruct (valid_date yr mo dy && valid_time hr mi sc 0);
        [|discriminate].
      now injection P as <-. }
  clear V. apply stamp_shape_inv in Sh.
  destruct Sh as (_ & y1 & y2 & y3 & y4 & m1 & m2 & d1 & d2 & H1 & H2 & M1
                  & M2 & S1 & S2 & F & E).
  repeat match goal with
         | F : Forall _ (_ :: _) |- _ => inversion F; subst; clear F
         end.
  match goal with F : Forall _ [] |- _ => clear F end.
  unfold strptime in P.
  destruct (strptime_match _) as [[l [|c r]]|] eqn:Q; try discriminate;
    [|now destruct l as [|yr [|mo [|dy [|hr [|mi [|sc [|x l]]]]]]]].
  unfold strptime_match in Q.
  rewrite four_digits_digits, literal_same in Q by assumption.
  do 4 (apply directive_two_digits in Q;
        [|assumption|intros z; apply literal_digit; [assumption|reflexivity]];
        rewrite literal_same in Q).
  unfold directive in Q.
  match type of Q with context [is_digit S1] =>
    replace (is_digit S1) with true in Q by (symmetry; assumption) end.
  destruct (two_S S1 S2); unfold or_else in Q; [|discriminate].
  match type of Q with
  | Some (?x, _) = _ => assert (El : l = x) by congruence
  end.
  subst l.
  match type of P with
  | (if ?c then Some ?x else None) = _ =>
      destruct c; [assert (Et : t = x) by congruence|discriminate]
  end.
  subst t. unfold strftime, year, month, day, hour, minute, second.
  rewrite pad4_digits, !pad2_digits by assumption.
  reflexivity.
Qed.

Lemma append_empty_r (s : string) : (s ++ "")%string = s.
Proof. induction s as [|c s IH]; cbn; [reflexivity|now rewrite IH]. Qed.

Lemma contains_char_app (c : ascii) (a b : string) :
  contains_char c (a ++ b)
  = contains_char c a || contains_char c b.
Proof.
  induction a as [|x a IH]; cbn; [reflexivity|].
  now rewrite IH, orb_assoc.
Qed.

Lemma cons_head_without (c a : ascii) (l : list string) :
  Ascii.eqb a c = false ->
  Forall (fun f => contains_char c f = false) l ->
  Forall (fun f => contains_char c f = false) (cons_head a l).
Proof.
  intros N F. destruct F as [|f l Hf F]; cbn.
  - constructor; [|constructor]. cbn. now rewrite N.
  - constructor; [|exact F]. cbn. now rewrite N, Hf.
Qed.

(** No line of [splitlines] holds a line feed. *)
Lemma break_lines_without_lf (s : string) :
  Forall (fun f => contains_char LF f = false) (break_lines s).
Proof.
  induction s as [|c s IH]; cbn [break_lines];
    [now repeat constructor|].
  destruct (Ascii.eqb_spec c CR) as [->|N].
  - destruct s as [|c2 s2]; [now repeat constructor|].
    destruct (Ascii.eqb_spec c2 LF) as [->|N2].
    + constructor; [reflexivity|]. cbn [break_lines] in IH.
      now inversion IH.
    + constructor; [reflexivity|exact IH].
  - destruct (is_linebreak c) eqn:B.
    + constructor; [reflexivity|exact IH].
    + apply cons_head_without; [|exact IH].
      destruct (Ascii.eqb_spec c LF) as [->|]; [discriminate|reflexivity].
Qed.

Lemma drop_last_empty_keeps (P : string -> Prop) (l : list string) :
  Forall P l -> Forall P (drop_last_empty l).
Proof.
  induction 1 as [|x l Hx F IH]; cbn; [constructor|].
  destruct l as [|y l].
  - destruct (String.eqb x ""); repeat constructor; assumption.
  - constructor; assumption.
Qed.

Lemma splitlines_without_lf (s : string) :
  Forall (fun f => contains_char LF f = false) (splitlines s).
Proof. apply drop_last_empty_keeps, break_lines_without_lf. Qed.

Lemma split_char_without (c sep : ascii) (s : string) :
  contains_char c s = false ->
  Forall (fun f => contains_char c f = false) (split_char sep s).
Proof.
  induction s as [|a s IH]; cbn; [now repeat constructor|].
  intros [Na Ns]%orb_false_iff.
  destruct (Ascii.eqb a sep).
  - constructor; [reflexivity|now apply IH].
  - apply cons_head_without; [exact Na|now apply IH].
Qed.

Lemma split_once_inv (sep : ascii) (s a b : string) :
  split_once sep s = Some (a, b) ->
  s = (a ++ String sep b)%string /\ contains_char sep a = false.
Proof.
  revert a. induction s as [|x s IH]; intros a; cbn; [discriminate|].
  destruct (Ascii.eqb_spec x sep) as [->|N].
  - intros [= <- <-]. now split.
  - destruct (split_once sep s) as [[a' b']|]; [|discriminate].
    intros [= <- <-]. destruct (IH a' eq_refl) as [-> C].
    split; [reflexivity|]. cbn. rewrite C.
    destruct (Ascii.eqb_spec x sep); [contradiction|reflexivity].
Qed.

(** What [list_snapshots] guarantees of a snapshot it returns. *)
Definition well_formed (prefix : string) (s : Snapshot) : Prop :=
  Snappy.prefix s = prefix
  /\ In (tier s) TIERS
  /\ valid_datetime (timestamp s) = true
  /\ microsecond (timestamp s) = 0
  /\ contains_char "@" (dataset s) = false
  /\ full_name s
     = (dataset s ++ "@" ++ prefix ++ "-" ++ strftime (timestamp s)
        ++ "_" ++ tier s)%string.

Lemma line_result_well_formed (prefix line : string) (s : Snapshot) :
  contains_char LF line = false ->
  line_result prefix line = Ok (Some s) -> well_formed prefix s.
Proof.
  intros N. unfold line_result.
  destruct (split_char TAB line) as [|full [|used [|x l]]] eqn:Sp;
    try discriminate.
  pose proof (split_char_without LF TAB line N) as F. rewrite Sp in F.
  inversion F as [|? ? Nf _]; subst.
  destruct (negb (contains_char "@" full)); [discriminate|].
  destruct (split_once "@" full) as [[ds snapname]|] eqn:O; [|discriminate].
  destruct (regex_match prefix snapname) as [[ts_str tr]|] eqn:R;
    [|discriminate].
  destruct (strptime ts_str) as [ts|] eqn:P; [|discriminate].
  destruct (int_of_str used) as [u|]; [|discriminate].
  intros [= <-]. unfold well_formed. cbn [Snappy.prefix tier timestamp
                                          dataset full_name].
  apply split_once_inv in O. destruct O as [-> Cd].
  apply regex_match_inv in R. destruct R as (I & Sh & r & A & ->).
  destruct (strptime_shape_inv ts_str ts Sh P) as (E & U & V).
  split; [reflexivity|]. split; [exact I|]. split; [exact V|].
  split; [exact U|]. split; [exact Cd|].
  rewrite E.
  assert (Er : r = ""%string).
  { unfold at_end in A. apply orb_true_iff in A.
    destruct A as [A|A]; apply String.eqb_eq in A; [exact A|].
    subst r.
    repeat first [rewrite contains_char_app in Nf
                 |progress cbn [contains_char append] in Nf].
    rewrite Ascii.eqb_refl in Nf. cbn [orb] in Nf.
    rewrite ?orb_true_r in Nf. discriminate. }
  subst r. now rewrite append_empty_r.
Qed.

Lemma scan_outcome_well_formed (prefix : string) (lines : list string)
    (acc snaps : list Snapshot) :
  Forall (fun f => contains_char LF f = false) lines ->
  Forall (well_formed prefix) acc ->
  scan_outcome prefix lines acc = Ok snaps ->
  Forall (well_formed prefix) snaps.
Proof.
  intros F. revert acc.
  induction F as [|line lines N F IH]; intros acc W; cbn [scan_outcome].
  - now intros [= <-].
  - destruct (line_result prefix line) as [[s|]|e] eqn:L; [| |discriminate].
    + apply IH. apply Forall_app. split; [exact W|].
      constructor; [|constructor].
      now apply (line_result_well_formed prefix line).
    + now apply IH.
Qed.

(** X9.  Every snapshot [list_snapshots] returns, of a year of four
    digits, is well formed: it carries the prefix asked for and one of the
    four tiers, its timestamp is a valid date and time to the second, its
    dataset has no [@], and its full name is the dataset, [@], the prefix,
    a hyphen, the timestamp as [strftime] writes it, an underscore and the
    tier; a name read from the listing is thus the name the program would
    write. *)
Theorem listed_snapshots_well_formed (rt : runtime)
    (dataset prefix raw : string) (snaps : list Snapshot) (h : trace) :
  output_of rt (h ++ said rt 3 (RunningZfsList (zfs_list_cmd dataset)))
            (zfs_list_cmd dataset) = Some raw ->
  snd (list_snapshots rt dataset prefix h) = Ok snaps ->
  Forall (fun s => 1000 <= year (timestamp s) -> well_formed prefix s) snaps.
Proof.
  intros O R.
  rewrite (list_snapshots_outcome rt dataset prefix raw h O) in R.
  eapply Forall_impl;
    [|exact (scan_outcome_well_formed prefix (splitlines raw) [] snaps
               (splitlines_without_lf raw) (Forall_nil _) R)].
  auto.
Qed.

Lemma listed_snapshots_well_formed_witness :
  Forall (fun s => 1000 <= year (timestamp s) -> well_formed "snappy" s)
         [app_daily_snapshot].
Proof.
  apply (listed_snapshots_well_formed (example_runtime app_daily_listing)
           "tank/app_daily" "snappy" app_daily_listing [app_daily_snapshot]
           []);
    reflexivity.
Defined.

(** ** Promotion of a well-formed name *)

Lemma prefix_head (a b : ascii) (p s : string) :
  a <> b -> String.prefix (String a p) (String b s) = false.
Proof. intros N. cbn. now destruct (ascii_dec a b). Qed.

Lemma prefix_same (a : ascii) (p s : string) :
  String.prefix (String a p) (String a s) = String.prefix p s.
Proof. cbn. now destruct (ascii_dec a a). Qed.

Lemma prefix_refl (s : string) : String.prefix s s = true.
Proof.
  induction s as [|c s IH]; [reflexivity|]. now rewrite prefix_same.
Qed.

Lemma replace_from_skip (old new s : string) :
  replace_from old new (String.length s) s = ""%string.
Proof. induction s as [|c s IH]; cbn; [reflexivity|exact IH]. Qed.

(** A character that is not the first of [old] is copied. *)
Lemma replace_from_other (a c : ascii) (old new s : string) :
  a <> c ->
  replace_from (String a old) new 0 (String c s)
  = String c (replace_from (String a old) new 0 s).
Proof. intros N. cbn [replace_from]. now rewrite prefix_head. Qed.

Lemma replace_from_app (a : ascii) (old new p s : string) :
  contains_char a p = false ->
  replace_from (String a old) new 0 (p ++ s)
  = (p ++ replace_from (String a old) new 0 s)%string.
Proof.
  induction p as [|c p IH]; [reflexivity|]. cbn [contains_char append].
  intros [N C]%orb_false_iff.
  rewrite replace_from_other, (IH C); [reflexivity|].
  intros ->. now rewrite Ascii.eqb_refl in N.
Qed.

(** The underscore of a timestamp, with a digit after it, starts no tier. *)
Lemma replace_from_stamp (tier new : string) (d : ascii) (s : string) :
  In tier TIERS -> is_digit d = true ->
  replace_from (String "_" tier) new 0 (String "_" (String d s))
  = String "_" (replace_from (String "_" tier) new 0 (String d s)).
Proof.
  intros I D. cbn [replace_from]. rewrite prefix_same.
  assert (P : String.prefix tier (String d s) = false).
  { destruct I as [<-|[<-|[<-|[<-|[]]]]]; apply prefix_head;
      intros <-; discriminate. }
  now rewrite P.
Qed.

Lemma replace_from_digit (old new : string) (d : Z) (s : string) :
  replace_from (String "_" old) new 0 (String (digit_char d) s)
  = String (digit_char d) (replace_from (String "_" old) new 0 s).
Proof.
  apply replace_from_other. intros E.
  pose proof (digit_char_is_digit d) as D. now rewrite <- E in D.
Qed.

(** In a timestamp followed by an underscore and a tier only the tier is
    replaced. *)
Lemma replace_stamp_tier (tier new : string) (t : datetime) :
  In tier TIERS ->
  replace_from (String "_" tier) new 0 (strftime t ++ String "_" tier)
  = (strftime t ++ new)%string.
Proof.
  intros I. unfold strftime, pad4, pad2. cbn [append].
  rewrite !replace_from_digit.
  rewrite (replace_from_other "_" "-") by discriminate.
  rewrite !replace_from_digit.
  rewrite (replace_from_other "_" "-") by discriminate.
  rewrite !replace_from_digit.
  rewrite (replace_from_stamp tier new _ _ I (digit_char_is_digit _)).
  rewrite !replace_from_digit.
  rewrite (replace_from_other "_" ":") by discriminate.
  rewrite !replace_from_digit.
  rewrite (replace_from_other "_" ":") by discriminate.
  rewrite !replace_from_digit.
  cbn [replace_from]. rewrite prefix_refl.
  change (Nat.pred (String.length (String "_" tier)))
    with (String.length tier).
  now rewrite replace_from_skip, append_empty_r.
Qed.

(** A snapshot with the name the program writes, of a dataset and a prefix
    without underscore. *)
Definition plainly_named (s : Snapshot) : Prop :=
  well_formed (prefix s) s
  /\ 1000 <= year (timestamp s)
  /\ contains_char "_" (dataset s) = false
  /\ contains_char "_" (prefix s) = false.

Lemma promoted_name (s : Snapshot) (target : string) :
  plainly_named s ->
  replace ("_" ++ tier s) ("_" ++ target) (full_name s)
  = (dataset s ++ "@" ++ prefix s ++ "-" ++ strftime (timestamp s)
     ++ "_" ++ target)%string.
Proof.
  intros ((_ & I & _ & _ & _ & E) & _ & Nd & Np).
  rewrite E. unfold replace. cbn [append].
  rewrite replace_from_app by exact Nd.
  rewrite (replace_from_other "_" "@") by discriminate.
  rewrite replace_from_app by exact Np.
  rewrite (replace_from_other "_" "-") by discriminate.
  now rewrite (replace_stamp_tier _ _ _ I).
Qed.

(** X10.  For a well-formed snapshot whose dataset and prefix hold no
    underscore, the [replace] of a promotion changes the tier at the end
    of the name and nothing else; the new name fits the pattern of
    [list_snapshots] with the new tier, and its timestamp is read back
    unchanged. *)
Theorem promotion_changes_only_tier (s : Snapshot) (target : string) :
  well_formed (prefix s) s ->
  1000 <= year (timestamp s) ->
  contains_char "_" (dataset s) = false ->
  contains_char "_" (prefix s) = false ->
  In target TIERS ->
  let stamp := strftime (timestamp s) in
  replace ("_" ++ tier s) ("_" ++ target) (full_name s)
  = (dataset s ++ "@" ++ prefix s ++ "-" ++ stamp ++ "_" ++ target)%string
  /\ regex_match (prefix s) (prefix s ++ "-" ++ stamp ++ "_" ++ target)
     = Some (stamp, target)
  /\ strptime stamp = Some (timestamp s).
Proof.
  intros W Y Nd Np It stamp. subst stamp.
  split; [now apply promoted_name|].
  destruct W as (_ & I & V & U & _ & E).
  split.
  - now apply regex_match_strftime.
  - rewrite (strptime_strftime _ V). f_equal.
    destruct (timestamp s). cbn in *. now subst.
Qed.

Lemma promotion_changes_only_tier_witness :
  replace "_daily" "_weekly" (full_name morning_snapshot)
  = "tank@snappy-2024-01-10_08:00:00_weekly"%string.
Proof.
  apply (promotion_changes_only_tier morning_snapshot "weekly");
    [|cbn; lia|reflexivity|reflexivity|cbn; tauto].
  repeat split; try reflexivity. cbn. tauto.
Defined.

(** ** Dictionaries *)

Lemma get_setitem {V : Type} (k k' : string) (v : V) (d : Cli.dict V) :
  Cli.get k (Cli.setitem k' v d)
  = if String.eqb k k' then Some v else Cli.get k d.
Proof.
  induction d as [|[k2 v2] d IH]; cbn; [reflexivity|].
  destruct (String.eqb_spec k' k2) as [->|N]; cbn.
  - now destruct (String.eqb k k2).
  - rewrite IH. destruct (String.eqb_spec k k2) as [->|]; [|reflexivity].
    destruct (String.eqb_spec k2 k'); [congruence|reflexivity].
Qed.

Lemma get_none {V : Type} (k : string) (d : Cli.dict V) :
  ~ In k (map fst d) -> Cli.get k d = None.
Proof.
  induction d as [|[k2 v2] d IH]; cbn; [reflexivity|].
  intros N. destruct (String.eqb_spec k k2) as [->|]; [tauto|].
  apply IH. tauto.
Qed.

Lemma get_in {V : Type} (k : string) (v : V) (d : Cli.dict V) :
  Cli.get k d = Some v -> In (k, v) d.
Proof.
  induction d as [|[k2 v2] d IH]; cbn; [discriminate|].
  destruct (String.eqb_spec k k2) as [->|].
  - intros [= ->]. now left.
  - intros H. right. now apply IH.
Qed.

Lemma setitem_keys {V : Type} (k k' : string) (v : V) (d : Cli.dict V) :
  In k (map fst (Cli.setitem k' v d)) <-> k = k' \/ In k (map fst d).
Proof.
  induction d as [|[k2 v2] d IH]; cbn; [intuition|].
  destruct (String.eqb_spec k' k2) as [->|N]; cbn; [intuition|].
  rewrite IH. intuition.
Qed.

Lemma setitem_nodup {V : Type} (k : string) (v : V) (d : Cli.dict V) :
  NoDup (map fst d) -> NoDup (map fst (Cli.setitem k v d)).
Proof.
  induction d as [|[k2 v2] d IH]; cbn; intros N.
  - constructor; [easy|constructor].
  - inversion N as [|? ? N2 Nd]; subst.
    destruct (String.eqb_spec k k2) as [->|Ne]; cbn;
      constructor; auto.
    rewrite setitem_keys. intros [E|I]; [congruence|contradiction].
Qed.

Lemma setitem_values {V : Type} (P : V -> Prop) (k : string) (v : V)
    (d : Cli.dict V) :
  P v -> Forall (fun kv => P (snd kv)) d ->
  Forall (fun kv => P (snd kv)) (Cli.setitem k v d).
Proof.
  intros Pv. induction 1 as [|[k2 v2] d H F IH]; cbn.
  - now repeat constructor.
  - destruct (String.eqb k k2); constructor; auto.
Qed.

Lemma get_default_values {V : Type} (P : V -> Prop) (k : string)
    (default : V) (d : Cli.dict V) :
  P default -> Forall (fun kv => P (snd kv)) d ->
  P (Cli.get_default k default d).
Proof.
  intros Pd. unfold Cli.get_default.
  induction 1 as [|[k2 v2] d H F IH]; cbn; [exact Pd|].
  now destruct (String.eqb k k2).
Qed.

(** The items of [other] win over those of [d]. *)
Lemma get_update {V : Type} (k : string) (d other : Cli.dict V) :
  NoDup (map fst other) ->
  Cli.get k (Cli.update d other)
  = match Cli.get k other with
    | Some v => Some v
    | None => Cli.get k d
    end.
Proof.
  unfold Cli.update. revert d.
  induction other as [|[k1 v1] other IH]; intros d N; cbn; [reflexivity|].
  inversion N as [|? ? N1 No]; subst.
  rewrite (IH _ No), get_setitem.
  destruct (String.eqb_spec k k1) as [->|]; [|reflexivity].
  now rewrite (get_none k1 other N1).
Qed.

Lemma load_items_nodup (items : list (string * string))
    (sec d : Cli.dict Cli.value) :
  NoDup (map fst sec) -> Cli.load_items items sec = Ok d ->
  NoDup (map fst d).
Proof.
  revert sec. induction items as [|[key text] items IH]; intros sec N; cbn.
  - now intros [= <-].
  - destruct (Cli.convert text) as [val|e]; [|discriminate].
    apply IH. now apply setitem_nodup.
Qed.

Lemma load_sections_nodup (p : Cli.parsed) (cfg cfg' : Cli.config) :
  Forall (fun kv => NoDup (map fst (snd kv))) cfg ->
  Cli.load_sections p cfg = Ok cfg' ->
  Forall (fun kv => NoDup (map fst (snd kv))) cfg'.
Proof.
  revert cfg. induction p as [|[sec items] p IH]; intros cfg F; cbn.
  - now intros [= <-].
  - destruct (Cli.load_items items []) as [d|e] eqn:L; [|discriminate].
    apply IH.
    apply (setitem_values (fun d => NoDup (map fst d))); [|exact F].
    apply (load_items_nodup items [] d); [constructor|exact L].
Qed.

Lemma loaded_section_nodup (p : Cli.parsed) (cfg : Cli.config)
    (section : string) :
  Cli.load_sanoid_conf p = Ok cfg ->
  NoDup (map fst (Cli.get_default section [] cfg)).
Proof.
  intros L. apply load_sections_nodup in L; [|constructor].
  apply (get_default_values (fun d => NoDup (map fst d)));
    [apply NoDup_nil|exact L].
Qed.

(** X11.  [resolve_template] on a loaded configuration: a section without
    [use_template], or a section that is not there, is returned as it is;
    a section that names a template that is not in the file raises
    [ValueError]; otherwise every key has the value the section gives it,
    and the value of the template only when the section has none, so the
    [use_template] of a template is never followed. *)
Theorem resolve_template_merges (p : Cli.parsed) (cfg : Cli.config)
    (section : string) :
  Cli.load_sanoid_conf p = Ok cfg ->
  let sec := Cli.get_default section [] cfg in
  match Cli.get "use_template" sec with
  | None => Cli.resolve_template cfg section = Ok sec
  | Some tpl =>
      match Cli.get ("template_" ++ Cli.format tpl)%string cfg with
      | None =>
          exists msg,
            Cli.resolve_template cfg section = Raise (ValueError msg)
      | Some template =>
          exists merged,
            Cli.resolve_template cfg section = Ok merged
            /\ forall k,
                 Cli.get k merged
                 = match Cli.get k sec with
                   | Some v => Some v
                   | None => Cli.get k template
                   end
      end
  end.
Proof.
  intros L sec. pose proof (loaded_section_nodup p cfg section L) as N.
  fold sec in N. unfold Cli.resolve_template. fold sec.
  destruct (Cli.get "use_template" sec) as [tpl|]; [|reflexivity].
  destruct (Cli.get ("template_" ++ Cli.format tpl)%string cfg) as [t|].
  - eexists. split; [reflexivity|]. intros k. now apply get_update.
  - eexists. reflexivity.
Qed.

Definition example_conf : Cli.parsed :=
  [("template_backup", [("daily", "7"); ("weekly", "4")]);
   ("tank", [("use_template", "backup"); ("daily", "2")])].

Lemma resolve_template_merges_witness :
  exists merged,
    Cli.resolve_template
      [("template_backup", [("daily", Cli.VInt 7); ("weekly", Cli.VInt 4)]);
       ("tank", [("use_template", Cli.VStr "backup"); ("daily", Cli.VInt 2)])]
      "tank" = Ok merged
    /\ Cli.get "daily" merged = Some (Cli.VInt 2)
    /\ Cli.get "weekly" merged = Some (Cli.VInt 4).
Proof.
  destruct (resolve_template_merges example_conf
              [("template_backup",
                [("daily", Cli.VInt 7); ("weekly", Cli.VInt 4)]);
               ("tank",
                [("use_template", Cli.VStr "backup"); ("daily", Cli.VInt 2)])]
              "tank" eq_refl) as (merged & E & G).
  exists merged. split; [exact E|]. split; [apply (G "daily")|apply (G "weekly")].
Defined.

(** ** The commands of [main] *)

(** The commands of a run of the whole program. *)
Definition commands (t : list Cli.main_event) : list (list string) :=
  issued (Cli.core t).

Lemma core_app (t t' : list Cli.main_event) :
  Cli.core (t ++ t') = Cli.core t ++ Cli.core t'.
Proof. apply flat_map_app. Qed.

Lemma core_lifted (t : trace) : Cli.core (map Cli.Core t) = t.
Proof.
  induction t as [|e t IH]; [reflexivity|].
  change (e :: Cli.core (map Cli.Core t) = e :: t). now rewrite IH.
Qed.

Lemma commands_app (t t' : list Cli.main_event) :
  commands (t ++ t') = commands t ++ commands t'.
Proof. unfold commands. now rewrite core_app, EffectFacts.issued_app. Qed.

(** Every command of [m] satisfies [P]. *)
Definition only {A : Type} (P : list string -> Prop) (m : Cli.Run A)
  : Prop :=
  forall h, Forall P (commands (fst (m h))).

Lemma only_and_then {A B : Type} (P : list string -> Prop) (m : Cli.Run A)
    (f : A -> Cli.Run B) :
  only P m -> (forall a, only P (f a)) -> only P (Cli.and_then m f).
Proof.
  intros Hm Hf h. unfold Cli.and_then.
  specialize (Hm h). destruct (m h) as [t [a|e]]; cbn [fst] in *.
  - specialize (Hf a (h ++ t)). destruct (f a (h ++ t)) as [t' r].
    cbn [fst] in *. rewrite commands_app. now apply Forall_app.
  - exact Hm.
Qed.

Lemma only_lift {A : Type} (P : list string -> Prop) (m : M A) :
  (forall h, Forall P (issued (fst (m h)))) -> only P (Cli.lift m).
Proof.
  intros H h. unfold Cli.lift. specialize (H (Cli.core h)).
  destruct (m (Cli.core h)) as [t r]. cbn [fst] in *.
  unfold commands. now rewrite core_lifted.
Qed.

Lemma only_of_outcome {A : Type} (P : list string -> Prop) (o : outcome A) :
  only P (Cli.of_outcome o).
Proof. apply only_lift. intros h. constructor. Qed.

Lemma only_note1 (P : list string -> Prop) (rt : runtime)
    (n : Cli.main_note) :
  only P (Cli.note1 rt n).
Proof.
  intros h. unfold Cli.note1, commands. cbn [fst].
  destruct (1 <=? VERBOSITY rt); constructor.
Qed.

Lemma only_unit_run {A : Type} (P : list string -> Prop) (a : A) :
  only P (Cli.unit_run a).
Proof. intros h. constructor. Qed.

Lemma only_fail {A : Type} (P : list string -> Prop) (e : Cli.error) :
  only P (@Cli.fail A e).
Proof. intros h. constructor. Qed.

Lemma create_daily_snapshot_issued (rt : runtime) (dataset prefix : string)
    (snaps : list Snapshot) (dry : bool) (now : datetime) (h : trace) :
  let name :=
    (dataset ++ "@" ++ prefix ++ "-" ++ strftime now ++ "_daily")%string in
  issued (fst (create_daily_snapshot rt dataset prefix snaps dry now h))
  = []
  \/ dry = false
     /\ issued (fst (create_daily_snapshot rt dataset prefix snaps dry now h))
        = [["zfs"; "snapshot"; name]].
Proof.
  cbv zeta. unfold create_daily_snapshot. cbv zeta.
  assert (S : forall n, issued (fst (v1 rt n h)) = []).
  { intros n. unfold v1. rewrite fst_say.
    apply EffectFacts.messages_issued, EffectFacts.said_messages. }
  assert (C : forall name,
            issued (fst (zfs_create rt name dry h)) = []
            \/ dry = false
               /\ issued (fst (zfs_create rt name dry h))
                  = [["zfs"; "snapshot"; name]]).
  { intros name. unfold zfs_create. destruct dry; [now left|now right]. }
  destruct (last_item snaps) as [last|]; [|apply C].
  destruct (date_eqb _ _ && String.eqb _ _); [left; apply S|].
  destruct (used last =? 0); [left; apply S|apply C].
Qed.

Lemma tiered_retention_issued (rt : runtime) (snaps : list Snapshot)
    (spec : RetentionSpec) (dry : bool) (now : datetime) (h : trace) :
  let t := fst (tiered_retention rt snaps spec dry now h) in
  issued t = (if dry then [] else map command (announced t))
  /\ Forall (fun o => (exists old new, o = Rename old new)
                      \/ exists full, o = Destroy full) (announced t).
Proof.
  cbv zeta. split.
  - destruct (RunFacts.runs_tiered_retention rt snaps spec dry now h)
      as (k & -> & _).
    exact (EffectFacts.paired_blocks dry _ k
             (RunFacts.paired_retention_blocks rt snaps spec dry now)).
  - eapply Forall_impl; [|apply (announced_guarded rt snaps spec now dry h)].
    intros [f|o n|f] [[]|[]]; [left; now exists o, n|right; now exists f].
Qed.

(** The commands [main] can run. *)
Lemma main_only (P : list string -> Prop) (rt0 : runtime) (p : Cli.parsed)
    (a : Cli.args) (now_create now_retention : datetime) :
  P (zfs_list_cmd (Cli.args_dataset a)) ->
  (Cli.args_dry a = false -> Cli.args_create a = true ->
   forall full, P ["zfs"; "snapshot"; full]) ->
  (Cli.args_dry a = false ->
   forall o, (exists old new, o = Rename old new)
             \/ (exists full, o = Destroy full) -> P (command o)) ->
  only P (Cli.main rt0 p a now_create now_retention).
Proof.
  intros Pl Pc Po. unfold Cli.main. cbv zeta.
  apply only_and_then; [apply only_of_outcome|intros cfg].
  apply only_and_then; [apply only_of_outcome|intros sec].
  apply only_and_then; [apply only_of_outcome|intros d].
  apply only_and_then; [apply only_of_outcome|intros w].
  apply only_and_then; [apply only_of_outcome|intros m].
  apply only_and_then; [apply only_of_outcome|intros y].
  apply only_and_then; [apply only_note1|intros _].
  apply only_and_then; [apply only_note1|intros _].
  destruct (Cli.get_default _ _ _) as [n|prefix].
  - apply only_and_then; [|intros; apply only_unit_run].
    unfold Cli.list_snapshots_int.
    apply only_and_then; [|intros; apply only_fail].
    apply only_lift. intros h.
    rewrite fst_bind. unfold v3. rewrite fst_say, snd_say.
    rewrite EffectFacts.issued_app.
    rewrite EffectFacts.messages_issued
      by apply EffectFacts.said_messages.
    cbn. now repeat constructor.
  - assert (L : only P (Cli.lift (list_snapshots
                                    (Cli.with_verbosity rt0 (Cli.args_v a))
                                    (Cli.args_dataset a) prefix))).
    { apply only_lift. intros h.
      destruct (list_snapshots_issued
                  (Cli.with_verbosity rt0 (Cli.args_v a))
                  (Cli.args_dataset a) prefix h) as [-> _].
      now repeat constructor. }
    apply only_and_then; [exact L|intros snaps].
    apply only_and_then.
    + destruct (Cli.args_create a) eqn:Cr; [|apply only_unit_run].
      apply only_and_then; [apply only_note1|intros _].
      apply only_and_then; [|intros _; exact L].
      apply only_lift. intros h.
      destruct (create_daily_snapshot_issued
                  (Cli.with_verbosity rt0 (Cli.args_v a))
                  (Cli.args_dataset a) prefix snaps (Cli.args_dry a)
                  now_create h) as [->|[D ->]]; [constructor|].
      repeat constructor. now apply Pc.
    + intros snaps'. apply only_and_then; [apply only_note1|intros _].
      apply only_lift. intros h.
      destruct (tiered_retention_issued
                  (Cli.with_verbosity rt0 (Cli.args_v a)) snaps'
                  (mkRetentionSpec d w m y prefix) (Cli.args_dry a)
                  now_retention h) as [-> F].
      destruct (Cli.args_dry a) eqn:D; [constructor|].
      apply Forall_map. eapply Forall_impl; [|exact F].
      intros o. now apply Po.
Qed.

(** X12.  The commands of a run of [main], whatever the configuration, the
    listing and the clock: each is the [zfs list] of the dataset, a
    [zfs snapshot], a [zfs rename] or a [zfs destroy]; with [--dry] every
    command is the [zfs list]; without [--create] no command is a
    [zfs snapshot]. *)
Theorem main_commands (rt : runtime) (p : Cli.parsed) (a : Cli.args)
    (now_create now_retention : datetime) (h : list Cli.main_event) :
  let cmds := commands (fst (Cli.main rt p a now_create now_retention h)) in
  let listing := zfs_list_cmd (Cli.args_dataset a) in
  Forall (fun c => c = listing
                   \/ (exists full, c = ["zfs"; "snapshot"; full])
                   \/ (exists old new, c = ["zfs"; "rename"; old; new])
                   \/ (exists full, c = ["zfs"; "destroy"; full])) cmds
  /\ (Cli.args_dry a = true -> Forall (fun c => c = listing) cmds)
  /\ (Cli.args_create a = false ->
      forall full, ~ In ["zfs"; "snapshot"; full] cmds).
Proof.
  cbv zeta. split; [|split].
  - apply main_only.
    + now left.
    + intros _ _ full. right. left. now exists full.
    + intros _ o [(old & new & ->)|(full & ->)]; cbn.
      * right. right. left. now exists old, new.
      * right. right. right. now exists full.
  - intros D. apply main_only; [reflexivity| |]; congruence.
  - intros C full I.
    assert (F : Forall (fun c => c <> ["zfs"; "snapshot"; full])
                  (commands
                     (fst (Cli.main rt p a now_create now_retention h)))).
    { apply main_only.
      - discriminate.
      - congruence.
      - intros _ o [(old & new & ->)|(f & ->)]; discriminate. }
    rewrite Forall_forall in F. now apply (F _ I).
Qed.

Lemma of_outcome_raise {A B : Type} (e : exn) (f : A -> Cli.Run B)
    (h : list Cli.main_event) :
  Cli.and_then (Cli.of_outcome (Raise e)) f h = ([], inr (Cli.Engine e)).
Proof. reflexivity. Qed.

Lemma of_outcome_ok {A B : Type} (a : A) (f : A -> Cli.Run B)
    (h : list Cli.main_event) :
  Cli.and_then (Cli.of_outcome (Ok a)) f h = f a h.
Proof.
  unfold Cli.and_then, Cli.of_outcome, Cli.lift. cbn.
  rewrite app_nil_r. now destruct (f a h).
Qed.

(** The four counts as [main] reads them. *)
Definition counts (sec : Cli.dict Cli.value) : list (outcome Z) :=
  map (fun key => Cli.int (Cli.get_default key (Cli.VInt 0) sec))
      ["daily"; "weekly"; "monthly"; "yearly"]%string.

(** X13.  [main] reads the whole configuration before it prints or runs
    anything: when loading fails, when the section of the dataset names a
    template that is missing, or when one of [daily], [weekly], [monthly]
    and [yearly] is a text that [int] does not read, the run ends in that
    exception with no event at all, no listing and no message. *)
Theorem main_checks_configuration_first (rt : runtime) (p : Cli.parsed)
    (a : Cli.args) (now_create now_retention : datetime)
    (h : list Cli.main_event) :
  let run := Cli.main rt p a now_create now_retention h in
  (forall e, Cli.load_sanoid_conf p = Raise e ->
     run = ([], inr (Cli.Engine e)))
  /\ (forall cfg, Cli.load_sanoid_conf p = Ok cfg ->
      (forall e, Cli.resolve_template cfg (Cli.args_dataset a) = Raise e ->
         run = ([], inr (Cli.Engine e)))
      /\ (forall sec,
            Cli.resolve_template cfg (Cli.args_dataset a) = Ok sec ->
            forall key text,
              In key ["daily"; "weekly"; "monthly"; "yearly"]%string ->
              Cli.get key sec = Some (Cli.VStr text) ->
              int_of_str text = None ->
              exists msg, run = ([], inr (Cli.Engine (ValueError msg))))).
Proof.
  cbv zeta. unfold Cli.main. cbv zeta. split.
  - intros e ->. apply of_outcome_raise.
  - intros cfg ->. rewrite of_outcome_ok. split.
    + intros e ->. apply of_outcome_raise.
    + intros sec -> key text I G N. rewrite of_outcome_ok.
      exists "invalid literal for int()"%string.
      assert (B : Cli.int (Cli.get_default key (Cli.VInt 0) sec)
                  = Raise (ValueError "invalid literal for int()")).
      { unfold Cli.get_default. rewrite G. cbn. now rewrite N. }
      assert (O : forall v, Cli.int v
                            = Raise (ValueError "invalid literal for int()")
                            \/ exists n, Cli.int v = Ok n).
      { intros [n|s]; cbn; [right; now exists n|].
        destruct (int_of_str s) as [n|]; [right; now exists n|now left]. }
      destruct (O (Cli.get_default "daily" (Cli.VInt 0) sec))
        as [->|[d Ed]]; [apply of_outcome_raise|].
      destruct I as [<-|I]; [congruence|].
      rewrite Ed, of_outcome_ok.
      destruct (O (Cli.get_default "weekly" (Cli.VInt 0) sec))
        as [->|[w Ew]]; [apply of_outcome_raise|].
      destruct I as [<-|I]; [congruence|].
      rewrite Ew, of_outcome_ok.
      destruct (O (Cli.get_default "monthly" (Cli.VInt 0) sec))
        as [->|[m Em]]; [apply of_outcome_raise|].
      destruct I as [<-|I]; [congruence|].
      rewrite Em, of_outcome_ok.
      destruct I as [<-|[]]. rewrite B. apply of_outcome_raise.
Qed.

Definition noted (rt : runtime) (n : Cli.main_note)
  : list Cli.main_event :=
  if 1 <=? VERBOSITY rt then [Cli.Note n] else [].

Lemma and_then_note1 {B : Type} (rt : runtime) (n : Cli.main_note)
    (f : unit -> Cli.Run B) (h : list Cli.main_event) :
  snd (Cli.and_then (Cli.note1 rt n) f h) = snd (f tt (h ++ noted rt n))
  /\ commands (fst (Cli.and_then (Cli.note1 rt n) f h))
     = commands (fst (f tt (h ++ noted rt n))).
Proof.
  unfold Cli.and_then, Cli.note1. fold (noted rt n).
  destruct (f tt (h ++ noted rt n)) as [t r]. cbn [fst snd].
  split; [reflexivity|]. rewrite commands_app.
  unfold noted. now destruct (1 <=? VERBOSITY rt).
Qed.

(** The listing on a prefix that is an [int]. *)
Lemma list_snapshots_int_fails (rt : runtime) (dataset : string)
    (h : list Cli.main_event) :
  let run :=
    Cli.and_then (Cli.list_snapshots_int rt dataset)
                 (fun _ => Cli.unit_run tt) h in
  (exists e, snd run = inr e)
  /\ commands (fst run) = [zfs_list_cmd dataset]
  /\ ((forall h', output_of rt h' (zfs_list_cmd dataset) <> None) ->
      snd run = inr Cli.TypeError).
Proof.
  cbv zeta.
  unfold Cli.and_then, Cli.list_snapshots_int, Cli.and_then, Cli.lift,
    Cli.fail, bind, v3, check_output.
  rewrite (EffectFacts.emits_say rt 3 _ (Cli.core h)).
  pose proof (EffectFacts.messages_issued _
                (EffectFacts.said_messages rt 3
                   (RunningZfsList (zfs_list_cmd dataset)))) as Q.
  destruct (output_of rt _ (zfs_list_cmd dataset)) as [raw|] eqn:O;
    cbn [fst snd]; unfold commands;
    rewrite ?app_nil_r, core_lifted, EffectFacts.issued_app, Q.
  - split; [now eexists|]. split; [reflexivity|]. reflexivity.
  - split; [now eexists|]. split; [reflexivity|].
    intros H. now apply H in O.
Qed.

(** X14.  A [snapshot_prefix] that [load_sanoid_conf] has turned into an
    [int], a prefix written with digits only, makes every run fail: [main]
    never returns normally, and it runs at most the [zfs list] before
    [re.escape] raises [TypeError] on the prefix. *)
Theorem main_fails_on_numeric_prefix (rt : runtime) (p : Cli.parsed)
    (a : Cli.args) (now_create now_retention : datetime)
    (h : list Cli.main_event) (cfg : Cli.config) (sec : Cli.dict Cli.value)
    (n : Z) :
  Cli.load_sanoid_conf p = Ok cfg ->
  Cli.resolve_template cfg (Cli.args_dataset a) = Ok sec ->
  Cli.get "snapshot_prefix" sec = Some (Cli.VInt n) ->
  let run := Cli.main rt p a now_create now_retention h in
  (exists e, snd run = inr e)
  /\ Forall (fun c => c = zfs_list_cmd (Cli.args_dataset a))
            (commands (fst run))
  /\ (Forall (fun o => exists d, o = Ok d) (counts sec) ->
      (forall h', output_of rt h' (zfs_list_cmd (Cli.args_dataset a))
                  <> None) ->
      snd run = inr Cli.TypeError
      /\ commands (fst run) = [zfs_list_cmd (Cli.args_dataset a)]).
Proof.
  intros L R G. cbv zeta. unfold Cli.main. cbv zeta.
  rewrite L, of_outcome_ok, R, of_outcome_ok.
  assert (Gp : Cli.get_default "snapshot_prefix" (Cli.VStr "snappy") sec
               = Cli.VInt n).
  { unfold Cli.get_default. now rewrite G. }
  rewrite Gp. unfold counts. cbn [map].
  destruct (Cli.int (Cli.get_default "daily" (Cli.VInt 0) sec)) as [d|e].
  2:{ rewrite of_outcome_raise. cbn [fst snd].
      split; [now eexists|]. split; [constructor|].
      intros F. inversion F as [|? ? [? ?]]. discriminate. }
  rewrite of_outcome_ok.
  destruct (Cli.int (Cli.get_default "weekly" (Cli.VInt 0) sec)) as [w|e].
  2:{ rewrite of_outcome_raise. cbn [fst snd].
      split; [now eexists|]. split; [constructor|].
      intros F. inversion F as [|? ? _ F1]. inversion F1 as [|? ? [? ?]].
      discriminate. }
  rewrite of_outcome_ok.
  destruct (Cli.int (Cli.get_default "monthly" (Cli.VInt 0) sec)) as [m|e].
  2:{ rewrite of_outcome_raise. cbn [fst snd].
      split; [now eexists|]. split; [constructor|].
      intros F. inversion F as [|? ? _ F1]. inversion F1 as [|? ? _ F2].
      inversion F2 as [|? ? [? ?]]. discriminate. }
  rewrite of_outcome_ok.
  destruct (Cli.int (Cli.get_default "yearly" (Cli.VInt 0) sec)) as [y|e].
  2:{ rewrite of_outcome_raise. cbn [fst snd].
      split; [now eexists|]. split; [constructor|].
      intros F. inversion F as [|? ? _ F1]. inversion F1 as [|? ? _ F2].
      inversion F2 as [|? ? _ F3]. inversion F3 as [|? ? [? ?]].
      discriminate. }
  rewrite of_outcome_ok.
  match goal with
  | |- context [Cli.and_then (Cli.note1 ?r ?n1) ?f h] =>
      destruct (and_then_note1 r n1 f h) as [-> ->]
  end.
  match goal with
  | |- context [Cli.and_then (Cli.note1 ?r ?n1) ?f ?h1] =>
      destruct (and_then_note1 r n1 f h1) as [-> ->]
  end.
  match goal with
  | |- context [Cli.and_then (Cli.list_snapshots_int ?r ?ds) _ ?h1] =>
      destruct (list_snapshots_int_fails r ds h1) as (E & C & T)
  end.
  split; [exact E|]. rewrite C. split; [now repeat constructor|].
  intros _ O. split; [|reflexivity]. apply T. exact O.
Qed.

Lemma main_fails_on_numeric_prefix_witness :
  exists e,
    snd (Cli.main (example_runtime "")
           [("tank", [("snapshot_prefix", "2024"); ("daily", "7")])]
           (Cli.mkargs "/etc/sanoid/sanoid.conf" true false 0 "tank")
           noon_10_jan noon_10_jan []) = inr e.
Proof.
  apply (main_fails_on_numeric_prefix (example_runtime "")
           [("tank", [("snapshot_prefix", "2024"); ("daily", "7")])]
           (Cli.mkargs "/etc/sanoid/sanoid.conf" true false 0 "tank")
           noon_10_jan noon_10_jan []
           [("tank", [("snapshot_prefix", Cli.VInt 2024);
                      ("daily", Cli.VInt 7)])]
           [("snapshot_prefix", Cli.VInt 2024); ("daily", Cli.VInt 7)]
           2024);
    reflexivity.
Defined.

(** ** The values of a loaded configuration *)

Fixpoint all_ascii_digits (s : string) : bool :=
  match s with
  | EmptyString => true
  | String c s' => is_digit c && all_ascii_digits s'
  end.

Lemma digit_char_not_space (c : ascii) :
  Cli.is_digit_char c = true ->
  is_int_space c = false
  /\ c <> "+"%char /\ c <> "-"%char /\ c <> "_"%char.
Proof.
  destruct c as [[] [] [] [] [] [] [] []]; try discriminate;
    intros _; repeat split; discriminate.
Qed.

Lemma int_rstrip_digit_chars (s : string) :
  Cli.all_digit_chars s = true -> int_rstrip s = s.
Proof.
  induction s as [|c s IH]; [reflexivity|].
  cbn [int_rstrip Cli.all_digit_chars].
  intros [C A]%andb_true_iff. rewrite (IH A).
  now rewrite (proj1 (digit_char_not_space c C)).
Qed.

Lemma int_lstrip_digit_chars (s : string) :
  Cli.all_digit_chars s = true -> int_lstrip s = s.
Proof.
  destruct s as [|c s]; [reflexivity|].
  cbn [int_lstrip Cli.all_digit_chars].
  intros [C A]%andb_true_iff.
  now rewrite (proj1 (digit_char_not_space c C)).
Qed.

Lemma int_of_digit_chars (s : string) :
  Cli.all_digit_chars s = true -> int_of_str s = int_unsigned s.
Proof.
  intros A. unfold int_of_str.
  rewrite (int_lstrip_digit_chars s A), (int_rstrip_digit_chars s A).
  destruct s as [|c s]; [reflexivity|].
  cbn in A. apply andb_true_iff in A. destruct A as [C _].
  destruct (digit_char_not_space c C) as (_ & Np & Nm & _).
  destruct c as [[] [] [] [] [] [] [] []]; try reflexivity;
    congruence.
Qed.

Lemma int_digits_ascii (s : string) (acc : Z) (b : bool) :
  all_ascii_digits s = true -> s <> ""%string \/ b = true -> 0 <= acc ->
  exists n, int_digits s acc b = Some n /\ 0 <= n.
Proof.
  revert acc b.
  induction s as [|c s IH]; intros acc b A N P; cbn [int_digits].
  - destruct N as [N| ->]; [contradiction|]. now exists acc.
  - cbn [all_ascii_digits] in A. apply andb_true_iff in A.
    destruct A as [C A].
    rewrite C. apply IH; [exact A|now right|].
    pose proof (digit_val_bounds c C). lia.
Qed.

Lemma int_digits_superscript (s : string) (acc : Z) (b : bool) :
  Cli.all_digit_chars s = true -> all_ascii_digits s = false ->
  int_digits s acc b = None.
Proof.
  revert acc b.
  induction s as [|c s IH]; intros acc b A N;
    cbn [int_digits all_ascii_digits Cli.all_digit_chars] in *;
    [discriminate|].
  apply andb_true_iff in A. destruct A as [C A].
  destruct (is_digit c) eqn:D; cbn [andb] in N.
  - now apply IH.
  - destruct (digit_char_not_space c C) as (_ & _ & _ & Nu).
    destruct (Ascii.eqb_spec c "_"); [contradiction|reflexivity].
Qed.

(** A text [int] reads after [str.isdigit] has accepted it: decimal digits
    only, and no more of them than [int] takes. *)
Definition decimal (val : string) : bool :=
  all_ascii_digits val && negb (INT_MAX_STR_DIGITS <? count_digits val).

(** What the inner loop of [load_sanoid_conf] makes of a text. *)
Lemma convert_cases (text : string) :
  let val := Cli.strip text in
  if Cli.isdigit val then
    if decimal val then
      exists n, Cli.convert text = Ok (Cli.VInt n) /\ 0 <= n
                /\ int_of_str val = Some n
    else Cli.convert text = Raise (ValueError "invalid literal for int()")
  else Cli.convert text = Ok (Cli.VStr val).
Proof.
  cbv zeta. unfold Cli.convert, decimal.
  destruct (Cli.isdigit (Cli.strip text)) eqn:D; [|reflexivity].
  unfold Cli.isdigit in D. apply andb_true_iff in D. destruct D as [Ne A].
  cbn [Cli.int]. rewrite (int_of_digit_chars _ A). unfold int_unsigned.
  destruct (INT_MAX_STR_DIGITS <? count_digits (Cli.strip text));
    [now rewrite andb_false_r|].
  rewrite andb_true_r.
  destruct (all_ascii_digits (Cli.strip text)) eqn:S.
  - destruct (int_digits_ascii (Cli.strip text) 0 false S) as (n & -> & P);
      [|lia|now exists n].
    left. intros E. rewrite E in Ne. discriminate.
  - now rewrite (int_digits_superscript _ 0 false A S).
Qed.

(** A text the loader cannot take: digits for [str.isdigit], with a digit
    that is not decimal among them or more digits than [int] takes. *)
Definition unreadable (text : string) : bool :=
  Cli.isdigit (Cli.strip text) && negb (decimal (Cli.strip text)).

(** What a loaded value can be. *)
Definition loaded_value (v : Cli.value) : Prop :=
  match v with
  | Cli.VInt n => 0 <= n
  | Cli.VStr s => Cli.isdigit s = false
  end.

Lemma convert_outcome (text : string) :
  if unreadable text
  then Cli.convert text = Raise (ValueError "invalid literal for int()")
  else exists v, Cli.convert text = Ok v /\ loaded_value v.
Proof.
  pose proof (convert_cases text) as C. cbv zeta in C. unfold unreadable.
  destruct (Cli.isdigit (Cli.strip text)) eqn:D; cbn [andb].
  - destruct (decimal (Cli.strip text)); cbn [negb]; [|exact C].
    destruct C as (n & -> & P & _). now exists (Cli.VInt n).
  - rewrite C. now exists (Cli.VStr (Cli.strip text)).
Qed.

Lemma load_items_outcome (items : list (string * string))
    (sec : Cli.dict Cli.value) :
  Forall (fun kv => loaded_value (snd kv)) sec ->
  if existsb (fun kv => unreadable (snd kv)) items
  then Cli.load_items items sec
       = Raise (ValueError "invalid literal for int()")
  else exists d, Cli.load_items items sec = Ok d
                 /\ Forall (fun kv => loaded_value (snd kv)) d.
Proof.
  revert sec. induction items as [|[key text] items IH]; intros sec F; cbn.
  - now exists sec.
  - pose proof (convert_outcome text) as C.
    destruct (unreadable text); cbn [orb]; [now rewrite C|].
    destruct C as (v & -> & L). apply IH.
    now apply (setitem_values loaded_value).
Qed.

Lemma load_sections_outcome (p : Cli.parsed) (cfg : Cli.config) :
  Forall (fun kv => Forall (fun kv => loaded_value (snd kv)) (snd kv)) cfg ->
  if existsb (fun s => existsb (fun kv => unreadable (snd kv)) (snd s)) p
  then Cli.load_sections p cfg
       = Raise (ValueError "invalid literal for int()")
  else exists cfg',
         Cli.load_sections p cfg = Ok cfg'
         /\ Forall (fun kv => Forall (fun kv => loaded_value (snd kv))
                                     (snd kv)) cfg'.
Proof.
  revert cfg. induction p as [|[sec items] p IH]; intros cfg F; cbn.
  - now exists cfg.
  - pose proof (load_items_outcome items [] (Forall_nil _)) as L.
    destruct (existsb _ items); cbn [orb]; [now rewrite L|].
    destruct L as (d & -> & Fd). apply IH.
    now apply (setitem_values
                 (fun d => Forall (fun kv => loaded_value (snd kv)) d)).
Qed.

(** X15.  [load_sanoid_conf] fails exactly on a value that [str.isdigit]
    takes for a number and [int] does not: a superscript digit among the
    digits, or more digits than the limit of [int], 4300 unless the
    interpreter is told otherwise.  The whole file is then refused with
    [ValueError].  Otherwise it returns, and every value of every section
    is an [int] that is not negative, for a text of decimal digits, or a
    text that is not all digits. *)
Theorem load_sanoid_conf_outcome (p : Cli.parsed) :
  if existsb (fun s => existsb (fun kv => unreadable (snd kv)) (snd s)) p
  then exists msg, Cli.load_sanoid_conf p = Raise (ValueError msg)
  else exists cfg,
         Cli.load_sanoid_conf p = Ok cfg
         /\ forall section d key v,
              In (section, d) cfg -> In (key, v) d ->
              match v with
              | Cli.VInt n => 0 <= n
              | Cli.VStr s => Cli.isdigit s = false
              end.
Proof.
  pose proof (load_sections_outcome p [] (Forall_nil _)) as L.
  unfold Cli.load_sanoid_conf.
  destruct (existsb _ p); [eexists; exact L|].
  destruct L as (cfg & -> & F). exists cfg. split; [reflexivity|].
  intros section d key v Is Ik.
  rewrite Forall_forall in F. specialize (F _ Is). cbn in F.
  rewrite Forall_forall in F. exact (F _ Ik).
Qed.

(** ** Which snapshots a run destroys *)

(** The names a bucket puts in [keep]: that of its survivor and, when the
    survivor is promoted, the name it gets. *)
Definition kept_by (target : string) (g : list Snapshot) (name : string)
  : Prop :=
  exists best,
    pick_best g = Some best
    /\ (name = full_name best
        \/ (tier best <> target
            /\ name = replace ("_" ++ tier best) ("_" ++ target)
                              (full_name best))).

(** The promotion a bucket asks for. *)
Definition renamed_by (target : string) (g : list Snapshot)
    (r : string * string) : Prop :=
  exists best,
    pick_best g = Some best /\ tier best <> target
    /\ r = (full_name best,
            replace ("_" ++ tier best) ("_" ++ target) (full_name best)).

(** What is in [keep] and in [renames] after the buckets [b] was there
    before or comes from one of them. *)
Definition comes_from (target : string) (b : buckets) (p p' : plan) : Prop :=
  (forall name, In name (keep p') ->
     In name (keep p) \/ exists k g, In (k, g) b /\ kept_by target g name)
  /\ (forall r, In r (renames p') ->
        In r (renames p)
        \/ exists k g, In (k, g) b /\ renamed_by target g r).

Lemma bucket_plan_origin target best g (p : plan) :
  pick_best g = Some best ->
  (forall name, In name (keep (bucket_plan target best g p)) ->
     In name (keep p) \/ kept_by target g name)
  /\ (forall r, In r (renames (bucket_plan target best g p)) ->
        In r (renames p) \/ renamed_by target g r).
Proof.
  intros E. unfold bucket_plan. cbv zeta.
  set (q := if negb (tier best =? target)%string then _ else _).
  destruct (delete_rest_effect best g q) as (-> & -> & _).
  subst q. destruct (String.eqb_spec (tier best) target) as [T|T];
    cbn [negb keep renames keep_add renames_append]; split.
  - intros name [->|H]%PlanFacts.set_add_In; [right|now left].
    exists best. split; [exact E|now left].
  - intros r H. now left.
  - intros name
      [->|[->|H]%PlanFacts.set_add_In]%PlanFacts.set_add_In;
      [right|right|now left]; exists best; (split; [exact E|]);
      [right; now split|now left].
  - intros r [H|[<-|[]]]%in_app_iff; [now left|right].
    exists best. now repeat split.
Qed.

Lemma process_buckets_origin (rt : runtime) label target
    (zone : list Snapshot) (b : buckets) (p : plan) :
  BucketFacts.groups_from zone b ->
  exists t p', emits (process_buckets rt label target b p) t p'
               /\ comes_from target b p p'.
Proof.
  intros W. unfold process_buckets.
  apply (emits_fold_each_keeps (fun q => comes_from target b p q)).
  - intros [k g] q I [Hk Hr]. destruct (W k g I) as [N _].
    destruct (PlanFacts.pick_best_some g N) as (best & Eb & _).
    destruct (process_bucket_emits rt label target k g q best Eb) as [t E].
    exists t, (bucket_plan target best g q). split; [exact E|].
    destruct (bucket_plan_origin target best g q Eb) as [Bk Br].
    split.
    + intros name H. destruct (Bk name H) as [K|K]; [now apply Hk|].
      right. now exists k, g.
    + intros r H. destruct (Br r H) as [K|K]; [now apply Hr|].
      right. now exists k, g.
  - split; intros x H; now left.
Qed.

(** A name the four passes keep. *)
Definition kept_name (snaps : list Snapshot) (spec : RetentionSpec)
    (now : datetime) (name : string) : Prop :=
  exists cond key target k g,
    In (cond, key, target) passes
    /\ In (k, g) (pass_buckets cond key spec now snaps)
    /\ kept_by target g name.

(** A promotion the four passes ask for. *)
Definition promotion (snaps : list Snapshot) (spec : RetentionSpec)
    (now : datetime) (r : string * string) : Prop :=
  exists cond key target k g,
    In (cond, key, target) passes
    /\ In (k, g) (pass_buckets cond key spec now snaps)
    /\ renamed_by target g r.

Lemma planned_origin (rt : runtime) (snaps : list Snapshot) spec now :
  (forall name, In name (keep (planned rt snaps spec now)) ->
     kept_name snaps spec now name)
  /\ (forall r, In r (renames (planned rt snaps spec now)) ->
        promotion snaps spec now r).
Proof.
  set (sn := sorted timestamp datetime_ltb snaps).
  destruct (process_buckets_origin rt "Daily" "daily" _ _ empty_plan
              (BucketFacts.group_by_from day_of (daily_zone spec now sn)))
    as (t1 & p1 & E1 & K1 & R1).
  destruct (process_buckets_origin rt "Weekly" "weekly" _ _ p1
              (BucketFacts.group_by_from week_of (weekly_zone spec now sn)))
    as (t2 & p2 & E2 & K2 & R2).
  destruct (process_buckets_origin rt "Monthly" "monthly" _ _ p2
              (BucketFacts.group_by_from month_of
                 (monthly_zone spec now sn)))
    as (t3 & p3 & E3 & K3 & R3).
  destruct (process_buckets_origin rt "Yearly" "yearly" _ _ p3
              (BucketFacts.group_by_from year_of (yearly_zone spec now sn)))
    as (t4 & p4 & E4 & K4 & R4).
  assert (E : exists t, emits (plan_retention rt snaps spec now) t p4).
  { eexists. unfold plan_retention. cbv zeta.
    repeat (eapply EffectFacts.emits_bind;
            [apply EffectFacts.emits_say|]; cbv beta).
    eapply EffectFacts.emits_bind; [exact E1|]; cbv beta.
    eapply EffectFacts.emits_bind; [apply EffectFacts.emits_say|]; cbv beta.
    eapply EffectFacts.emits_bind; [exact E2|]; cbv beta.
    eapply EffectFacts.emits_bind; [apply EffectFacts.emits_say|]; cbv beta.
    eapply EffectFacts.emits_bind; [exact E3|]; cbv beta.
    eapply EffectFacts.emits_bind; [apply EffectFacts.emits_say|]; cbv beta.
    eapply EffectFacts.emits_bind; [exact E4|]; cbv beta.
    apply EffectFacts.emits_ret. }
  destruct E as [t E].
  rewrite (emits_unique _ _ _ _ _
             (RunFacts.plan_retention_emits rt snaps spec now) E).
  assert (P1 : In (in_daily_zone, day_of, "daily") passes)
    by (cbn; tauto).
  assert (P2 : In (in_weekly_zone, week_of, "weekly") passes)
    by (cbn; tauto).
  assert (P3 : In (in_monthly_zone, month_of, "monthly") passes)
    by (cbn; tauto).
  assert (P4 : In (in_yearly_zone, year_of, "yearly") passes)
    by (cbn; tauto).
  split.
  - intros name H. unfold kept_name.
    destruct (K4 name H) as [H3|(k & g & I & K)]; [|now eauto 10].
    destruct (K3 name H3) as [H2|(k & g & I & K)]; [|now eauto 10].
    destruct (K2 name H2) as [H1|(k & g & I & K)]; [|now eauto 10].
    destruct (K1 name H1) as [[]|(k & g & I & K)]. now eauto 10.
  - intros r H. unfold promotion.
    destruct (R4 r H) as [H3|(k & g & I & K)]; [|now eauto 10].
    destruct (R3 r H3) as [H2|(k & g & I & K)]; [|now eauto 10].
    destruct (R2 r H2) as [H1|(k & g & I & K)]; [|now eauto 10].
    destruct (R1 r H1) as [[]|(k & g & I & K)]. now eauto 10.
Qed.

Lemma planned_keep (rt : runtime) (snaps : list Snapshot) spec now
    (name : string) :
  In name (keep (planned rt snaps spec now))
  <-> kept_name snaps spec now name.
Proof.
  split; [apply planned_origin|].
  intros (cond & key & target & k & g & P & I & best & E & K).
  destruct (planned_settled rt snaps spec now _ _ _ _ _ P I)
    as (best' & E' & Kb & _ & Kn).
  assert (best' = best) by congruence. subst best'.
  destruct K as [->|[T ->]]; [exact Kb|now apply Kn].
Qed.

Lemma announced_when_done (rt : runtime) (snaps : list Snapshot) spec now
    dry h :
  snd (tiered_retention rt snaps spec dry now h) = Ok tt ->
  announced (fst (tiered_retention rt snaps spec dry now h))
  = planned_ops rt (planned rt snaps spec now).
Proof.
  intros R.
  destruct (RunFacts.runs_tiered_retention rt snaps spec dry now h)
    as (k & -> & [[_ ->]|(argv & h' & F & _)]); [|congruence].
  apply RunFacts.announced_retention_blocks.
Qed.

(** X16.  In a run that ends without an exception, a dry run or a real
    one, the snapshots destroyed are exactly the rest: a snapshot of the
    input list is announced for [zfs destroy], and in a real run destroyed,
    if and only if its name is neither the name of the survivor of a bucket
    nor the name a promotion gives. *)
Theorem destroyed_exactly_the_rest (rt : runtime) (snaps : list Snapshot)
    (spec : RetentionSpec) (dry : bool) (now : datetime) (h : trace) :
  let run := tiered_retention rt snaps spec dry now h in
  snd run = Ok tt ->
  forall s, In s snaps ->
    (In (Destroy (full_name s)) (announced (fst run))
     <-> ~ kept_name snaps spec now (full_name s))
    /\ (dry = false ->
        (In ["zfs"; "destroy"; full_name s] (issued (fst run))
         <-> ~ kept_name snaps spec now (full_name s))).
Proof.
  cbv zeta. intros R s I.
  assert (A : In (Destroy (full_name s))
                 (announced (fst (tiered_retention rt snaps spec dry now h)))
              <-> ~ kept_name snaps spec now (full_name s)).
  { rewrite (announced_when_done rt snaps spec now dry h R).
    rewrite <- (planned_keep rt). unfold planned_ops.
    rewrite in_app_iff. split.
    - intros [([o n] & C & _)%in_map_iff|(f & C & G)%in_map_iff];
        [discriminate|].
      injection C as ->. apply filter_In in G. destruct G as [_ G].
      unfold destroy_guard in G. apply negb_true_iff in G.
      intros K. apply PlanFacts.mem_In in K. congruence.
    - intros N. right. apply in_map. apply filter_In. split.
      + apply (Permutation_in _
                 (Permutation_sym (iter_set_perm rt _))).
        destruct (some_zone spec (age_days (timestamp s) now))
          as (cond & key & target & P & C).
        destruct (in_pass_bucket snaps spec now cond key s I C)
          as (g & Ig & Hs).
        destruct (planned_settled rt snaps spec now _ _ _ _ _ P Ig)
          as (best & _ & K & D & _).
        destruct (D s Hs) as [E|H]; [|exact H].
        rewrite E in N. contradiction.
      + unfold destroy_guard. apply negb_true_iff.
        destruct (mem (full_name s) (keep (planned rt snaps spec now)))
          eqn:Mm; [|reflexivity].
        apply PlanFacts.mem_In in Mm. contradiction. }
  split; [exact A|]. intros ->. rewrite <- A.
  destruct (tiered_retention_issued rt snaps spec false now h) as [-> _].
  split.
  - intros ([f|o n|f] & C & H)%in_map_iff; try discriminate.
    now injection C as ->.
  - intros H. apply in_map_iff. now exists (Destroy (full_name s)).
Qed.

Lemma destroyed_exactly_the_rest_witness :
  ~ kept_name [january 3 "daily" 100; january 4 "monthly" 200]
      (mkRetentionSpec 2 1 0 0 "snappy") noon_10_jan
      (full_name (january 3 "daily" 100)).
Proof.
  assert (R : snd (tiered_retention (example_runtime "")
                     [january 3 "daily" 100; january 4 "monthly" 200]
                     (mkRetentionSpec 2 1 0 0 "snappy") true noon_10_jan [])
              = Ok tt) by (vm_compute; reflexivity).
  destruct (destroyed_exactly_the_rest (example_runtime "")
              [january 3 "daily" 100; january 4 "monthly" 200]
              (mkRetentionSpec 2 1 0 0 "snappy") true noon_10_jan [] R
              (january 3 "daily" 100) (or_introl eq_refl)) as [[H _] _].
  apply H. vm_compute. right. left. reflexivity.
Defined.

(** ** The names of the promotions *)

(** X17.  On snapshots with the names the program writes, of a dataset and
    a prefix without underscore, every rename of a run, announced or
    issued, takes the full name of a snapshot of the list that is in the
    zone of another tier than its own, and gives it the same name with
    that tier at the end: dataset, prefix and timestamp stay. *)
Theorem promotions_change_only_tier (rt : runtime) (snaps : list Snapshot)
    (spec : RetentionSpec) (dry : bool) (now : datetime) (h : trace) :
  (forall s, In s snaps -> plainly_named s) ->
  let t := fst (tiered_retention rt snaps spec dry now h) in
  forall old new,
    In (Rename old new) (announced t)
    \/ In ["zfs"; "rename"; old; new] (issued t) ->
    exists s cond key target,
      In s snaps
      /\ In (cond, key, target) passes
      /\ cond spec (age_days (timestamp s) now) = true
      /\ tier s <> target
      /\ old = full_name s
      /\ new = (dataset s ++ "@" ++ prefix s ++ "-"
                ++ strftime (timestamp s) ++ "_" ++ target)%string.
Proof.
  intros W t old new H. subst t.
  assert (A : In (Rename old new)
                 (announced
                    (fst (tiered_retention rt snaps spec dry now h)))).
  { destruct H as [H|H]; [exact H|].
    destruct (tiered_retention_issued rt snaps spec dry now h) as [E _].
    rewrite E in H. destruct dry; [contradiction|].
    apply in_map_iff in H. destruct H as ([f|o n|f] & C & H);
      try discriminate.
    now injection C as -> ->. }
  pose proof (announced_guarded rt snaps spec now dry h) as G.
  rewrite Forall_forall in G. destruct (G _ A) as [[R _]|[]].
  apply (planned_origin rt) in R.
  destruct R as (cond & key & target & k & g & P & I & best & E & T & C).
  injection C as -> ->.
  destruct (pick_best_max g best E) as [Hb _].
  destruct (pass_bucket_members snaps spec now cond key k g best I Hb)
    as (Ib & Cb & _).
  exists best, cond, key, target.
  repeat (split; [assumption|]). split; [reflexivity|].
  apply promoted_name. now apply W.
Qed.

Lemma promotions_change_only_tier_witness :
  exists s cond key target,
    In s [january 3 "daily" 100; january 4 "monthly" 200]
    /\ In (cond, key, target) passes
    /\ cond (mkRetentionSpec 2 1 0 0 "snappy")
            (age_days (timestamp s) noon_10_jan) = true
    /\ tier s <> target
    /\ "tank@snappy-2024-01-04_08:00:00_monthly"%string = full_name s
    /\ "tank@snappy-2024-01-04_08:00:00_weekly"%string
       = (dataset s ++ "@" ++ prefix s ++ "-" ++ strftime (timestamp s)
          ++ "_" ++ target)%string.
Proof.
  apply (promotions_change_only_tier (example_runtime "")
           [january 3 "daily" 100; january 4 "monthly" 200]
           (mkRetentionSpec 2 1 0 0 "snappy") true noon_10_jan []).
  - intros s [<-|[<-|[]]]; repeat split; try reflexivity;
      try (cbn; tauto); cbn; lia.
  - left. vm_compute. left. reflexivity.
Defined.

(** ** Snapshots the program leaves alone *)

Lemma nothing_announced (l : list op) : Forall (fun _ => False) l -> l = [].
Proof. destruct 1; [reflexivity|contradiction]. Qed.

(** X18.  A list in which every snapshot carries the tier of the zone its
    age puts it in, and in which two snapshots of one zone and one bucket
    have the same name, is left alone: the run announces no operation and
    runs no command. *)
Theorem settled_snapshots_left_alone (rt : runtime) (snaps : list Snapshot)
    (spec : RetentionSpec) (dry : bool) (now : datetime) (h : trace) :
  (forall s cond key target,
     In s snaps -> In (cond, key, target) passes ->
     cond spec (age_days (timestamp s) now) = true -> tier s = target) ->
  (forall s s' cond key target,
     In s snaps -> In s' snaps -> In (cond, key, target) passes ->
     cond spec (age_days (timestamp s) now) = true ->
     cond spec (age_days (timestamp s') now) = true ->
     key s = key s' -> full_name s = full_name s') ->
  announced (fst (tiered_retention rt snaps spec dry now h)) = []
  /\ issued (fst (tiered_retention rt snaps spec dry now h)) = [].
Proof.
  intros T U.
  assert (A : announced (fst (tiered_retention rt snaps spec dry now h))
              = []).
  { apply nothing_announced.
    eapply Forall_impl; [|apply (announced_guarded rt snaps spec now dry h)].
    intros [f|old new|f] [Gr|Gd]; try contradiction.
    - destruct Gr as [R _]. apply (planned_origin rt) in R.
      destruct R as (cond & key & target & k & g & P & I & best & E & N & _).
      destruct (pick_best_max g best E) as [Hb _].
      destruct (pass_bucket_members snaps spec now cond key k g best I Hb)
        as (Ib & Cb & _).
      exact (N (T best cond key target Ib P Cb)).
    - destruct Gd as [D K]. apply K.
      destruct (RunFacts.planned_listed rt snaps spec now) as [L _].
      destruct (L f D) as (s & Is & <-).
      destruct (some_zone spec (age_days (timestamp s) now))
        as (cond & key & target & P & C).
      destruct (in_pass_bucket snaps spec now cond key s Is C)
        as (g & Ig & Hs).
      destruct (planned_settled rt snaps spec now _ _ _ _ _ P Ig)
        as (best & E & Kb & _).
      destruct (pick_best_max g best E) as [Hb _].
      destruct (pass_bucket_members snaps spec now cond key _ g best Ig Hb)
        as (Ib & Cb & Kk).
      now rewrite (U s best cond key target Is Ib P C Cb (eq_sym Kk)). }
  split; [exact A|].
  destruct (tiered_retention_issued rt snaps spec dry now h) as [-> _].
  rewrite A. now destruct dry.
Qed.

Lemma settled_snapshots_left_alone_witness :
  announced (fst (tiered_retention (example_runtime "")
                    [january 9 "daily" 100; january 10 "daily" 100]
                    (mkRetentionSpec 2 1 0 0 "snappy") false noon_10_jan []))
  = [].
Proof.
  apply (settled_snapshots_left_alone (example_runtime "")
           [january 9 "daily" 100; january 10 "daily" 100]
           (mkRetentionSpec 2 1 0 0 "snappy") false noon_10_jan []).
  - intros s cond key target [<-|[<-|[]]] [P|[P|[P|[P|[]]]]];
      injection P as <- <- <-; vm_compute; congruence.
  - intros s s' cond key target [<-|[<-|[]]] [<-|[<-|[]]] [P|[P|[P|[P|[]]]]];
      injection P as <- <- <-; vm_compute; congruence.
Defined.

(** ** Verbosity *)

(** An event of a run without messages: the line of an operation in the
    mode of the run, or a command. *)
Definition plain_event (dry : bool) (e : event) : bool :=
  match e with
  | Print (OpLine d _) => Bool.eqb d dry
  | Print (Message _) => false
  | Call _ => true
  end.

(** A computation that prints no message. *)
Definition plain {A : Type} (dry : bool) (m : M A) : Prop :=
  forall h, forallb (plain_event dry) (fst (m h)) = true.

Lemma plain_bind {A B : Type} (dry : bool) (m : M A) (f : A -> M B) :
  plain dry m -> (forall a, plain dry (f a)) -> plain dry (bind m f).
Proof.
  intros Hm Hf h. rewrite fst_bind, forallb_app, (Hm h).
  destruct (snd (m h)); [apply Hf|reflexivity].
Qed.

Lemma plain_ret {A : Type} (dry : bool) (a : A) : plain dry (ret a).
Proof. now intros h. Qed.

Lemma plain_of_option {A : Type} (dry : bool) (o : option A) (e : exn) :
  plain dry (of_option o e).
Proof. now destruct o. Qed.

Lemma plain_say (dry : bool) (rt : runtime) (level : Z) (n : note) :
  VERBOSITY rt < level -> plain dry (say rt level n).
Proof.
  intros V h. unfold say.
  destruct (Z.leb_spec level (VERBOSITY rt)); [lia|reflexivity].
Qed.

Lemma plain_for_each {A : Type} (dry : bool) (l : list A)
    (body : A -> M unit) :
  (forall x, plain dry (body x)) -> plain dry (for_each l body).
Proof.
  intros H. induction l as [|x l IH]; cbn [for_each]; [apply plain_ret|].
  apply plain_bind; [apply H|intros _; exact IH].
Qed.

Lemma plain_fold_each {A S : Type} (dry : bool) (l : list A)
    (body : A -> S -> M S) (s : S) :
  (forall x s, plain dry (body x s)) -> plain dry (fold_each l body s).
Proof.
  intros H. revert s.
  induction l as [|x l IH]; intros s; cbn [fold_each]; [apply plain_ret|].
  apply plain_bind; [apply H|intros s'; apply IH].
Qed.

Section Silent.
Variable rt : runtime.
Hypothesis silent : VERBOSITY rt < 1.

Lemma plain_v (dry : bool) (n : note) :
  plain dry (v1 rt n) /\ plain dry (v2 rt n) /\ plain dry (v3 rt n).
Proof. repeat split; apply plain_say; lia. Qed.

Ltac hush :=
  repeat first
    [ apply plain_ret
    | apply plain_of_option
    | apply (proj1 (plain_v _ _))
    | apply (proj1 (proj2 (plain_v _ _)))
    | apply (proj2 (proj2 (plain_v _ _)))
    | apply plain_bind; [|intros ?] ].

Lemma plain_scan_lines (dry : bool) (prefix : string) (lines : list string)
    (snaps : list Snapshot) :
  plain dry (scan_lines rt prefix lines snaps).
Proof.
  revert snaps.
  induction lines as [|line rest IH]; intros snaps; cbn [scan_lines];
    [apply plain_ret|].
  destruct (split_char TAB line) as [|full [|used [|x l]]];
    try (intros h; reflexivity).
  destruct (negb (contains_char "@" full)); [apply IH|].
  apply plain_bind; [apply plain_of_option|intros [ds snapname]].
  destruct (regex_match prefix snapname) as [[ts_str tier]|].
  - unfold parse_timestamp. hush. apply IH.
  - hush. apply IH.
Qed.

Lemma plain_list_snapshots (dry : bool) (dataset prefix : string) :
  plain dry (list_snapshots rt dataset prefix).
Proof.
  unfold list_snapshots. cbv zeta. hush.
  - intros h. unfold check_output. reflexivity.
  - apply plain_scan_lines.
Qed.

Lemma plain_zfs (dry : bool) :
  (forall full, plain dry (zfs_create rt full dry))
  /\ (forall old new, plain dry (zfs_rename rt old new dry))
  /\ (forall full, plain dry (zfs_destroy rt full dry)).
Proof.
  unfold zfs_create, zfs_rename, zfs_destroy.
  repeat split; intros; destruct dry; intros h; reflexivity.
Qed.

Lemma plain_create_daily_snapshot (dataset prefix : string)
    (snaps : list Snapshot) (dry : bool) (now : datetime) :
  plain dry (create_daily_snapshot rt dataset prefix snaps dry now).
Proof.
  unfold create_daily_snapshot. cbv zeta.
  destruct (last_item snaps) as [last|]; [|apply plain_zfs].
  destruct (date_eqb _ _ && String.eqb _ _); [hush|].
  destruct (used last =? 0); [hush|apply plain_zfs].
Qed.

Lemma plain_tiered_retention (snaps : list Snapshot) (spec : RetentionSpec)
    (dry : bool) (now : datetime) :
  plain dry (tiered_retention rt snaps spec dry now).
Proof.
  unfold tiered_retention. destruct snaps as [|s snaps]; [hush|].
  apply plain_bind.
  - unfold plan_retention. cbv zeta. hush;
      unfold process_buckets; apply plain_fold_each;
      intros [k g] p; unfold process_bucket; hush;
      destruct (negb (String.eqb _ _)); hush.
  - intros p. unfold execute. hush.
    + apply plain_for_each. intros [old new].
      destruct (negb _ && negb _); [apply plain_zfs|apply plain_ret].
    + apply plain_for_each. intros full.
      destruct (negb _); [apply plain_zfs|apply plain_ret].
Qed.

End Silent.

Definition plain_main_event (dry : bool) (e : Cli.main_event) : bool :=
  match e with
  | Cli.Core e => plain_event dry e
  | Cli.Note _ => false
  end.

Definition plain_run {A : Type} (dry : bool) (m : Cli.Run A) : Prop :=
  forall h, forallb (plain_main_event dry) (fst (m h)) = true.

Lemma plain_and_then {A B : Type} (dry : bool) (m : Cli.Run A)
    (f : A -> Cli.Run B) :
  plain_run dry m -> (forall a, plain_run dry (f a)) ->
  plain_run dry (Cli.and_then m f).
Proof.
  intros Hm Hf h. unfold Cli.and_then.
  specialize (Hm h). destruct (m h) as [t [a|e]]; cbn [fst] in *.
  - specialize (Hf a (h ++ t)). destruct (f a (h ++ t)) as [t' r].
    cbn [fst] in *. now rewrite forallb_app, Hm, Hf.
  - exact Hm.
Qed.

Lemma plain_lift {A : Type} (dry : bool) (m : M A) :
  plain dry m -> plain_run dry (Cli.lift m).
Proof.
  intros H h. unfold Cli.lift. specialize (H (Cli.core h)).
  destruct (m (Cli.core h)) as [t r]. cbn [fst] in *.
  induction t as [|e t IH]; [reflexivity|].
  cbn [map forallb plain_main_event] in *.
  apply andb_true_iff in H. destruct H as [-> H]. now apply IH.
Qed.

Lemma plain_note1 (dry : bool) (rt : runtime) (n : Cli.main_note) :
  VERBOSITY rt < 1 -> plain_run dry (Cli.note1 rt n).
Proof.
  intros V h. unfold Cli.note1.
  destruct (Z.leb_spec 1 (VERBOSITY rt)); [lia|reflexivity].
Qed.

(** X19.  Without [-v] the program prints no message: every event of a
    run of [main] is the line of an operation, with [[DRY]] exactly in a
    dry run, or a command. *)
Theorem silent_without_v (rt : runtime) (p : Cli.parsed) (a : Cli.args)
    (now_create now_retention : datetime) (h : list Cli.main_event) :
  Cli.args_v a <= 0 ->
  forall e, In e (fst (Cli.main rt p a now_create now_retention h)) ->
    (exists o, e = Cli.Core (Print (OpLine (Cli.args_dry a) o)))
    \/ exists argv, e = Cli.Core (Call argv).
Proof.
  intros V.
  assert (S : VERBOSITY (Cli.with_verbosity rt (Cli.args_v a)) < 1)
    by (cbn; lia).
  assert (P : plain_run (Cli.args_dry a)
                (Cli.main rt p a now_create now_retention)).
  { unfold Cli.main. cbv zeta.
    repeat (apply plain_and_then;
            [first [apply plain_lift; intros ?; reflexivity
                   |apply plain_note1; exact S]
            |intros ?]).
    destruct (Cli.get_default _ _ _) as [n|prefix].
    - apply plain_and_then; [|intros ? ?; reflexivity].
      unfold Cli.list_snapshots_int.
      apply plain_and_then; [|intros ? ?; reflexivity].
      apply plain_lift. apply plain_bind.
      + apply (plain_v _ S).
      + intros _ h'. reflexivity.
    - apply plain_and_then;
        [apply plain_lift, (plain_list_snapshots _ S)|intros snaps].
      apply plain_and_then.
      + destruct (Cli.args_create a); [|intros ?; reflexivity].
        apply plain_and_then; [apply plain_note1; exact S|intros _].
        apply plain_and_then;
          [apply plain_lift, (plain_create_daily_snapshot _ S)|intros _].
        apply plain_lift, (plain_list_snapshots _ S).
      + intros snaps'.
        apply plain_and_then; [apply plain_note1; exact S|intros _].
        apply plain_lift, (plain_tiered_retention _ S). }
  intros e I. specialize (P h). rewrite forallb_forall in P.
  specialize (P e I).
  destruct e as [[[n|d o]|argv]|n]; try discriminate.
  - left. exists o. cbn in P. apply Bool.eqb_prop in P. now subst.
  - right. now exists argv.
Qed.

Lemma silent_without_v_witness :
  (exists o,
     Cli.Core (Print (OpLine true
                        (Create "tank@snappy-2024-01-10_12:00:00_daily")))
     = Cli.Core (Print (OpLine true o)))
  \/ exists argv,
       Cli.Core (Print (OpLine true
                          (Create "tank@snappy-2024-01-10_12:00:00_daily")))
       = Cli.Core (Call argv).
Proof.
  apply (silent_without_v (example_runtime app_daily_listing)
           [("tank", [("daily", "7")])]
           (Cli.mkargs "/etc/sanoid/sanoid.conf" true true 0 "tank")
           noon_10_jan noon_10_jan [] (Z.le_refl 0)).
  vm_compute. right. left. reflexivity.
Defined.
